(** * Simple SEO Validator: a shallow embedding of [validator.py]

    The development follows the layout of the script:

    - Python values the script computes with ([str] as a list of code
      points, [bytes] as a list of octets, exceptions as an error sum);
    - the part of the BeautifulSoup object model the checks rely on
      (a tag tree, [find], [find_all], [get_text], [select], [decompose]);
    - the five field checks and the content-visibility check;
    - [urllib.parse.urlparse] and [normalize_url];
    - the decoding chain of [fetch_and_parse] and [fallback_decode].

    Every check prints one result line and returns a [bool].  The printed
    line is kept as a finding, its leading icon as a [Status]. *)

From Stdlib Require Import ZArith NArith List Ascii String Floats Uint63 Lia Bool.
From Stdlib.Strings Require Import Byte.
From stdpp Require Import base option list.

Set Warnings "-register-all,-inexact-float".

Local Open Scope nat_scope.
Local Open Scope list_scope.

(** ** Python strings *)

(** A Python [str] is a sequence of Unicode code points. *)
Definition pystr : Type := list N.

(** ASCII literals of the script. *)
Definition lit (s : string) : pystr :=
  List.map N_of_ascii (list_ascii_of_string s).

Definition str_eqb (a b : pystr) : bool := bool_decide (a = b).

(** [str.isspace] for one character: the code points with the Unicode
    White_Space property or bidirectional class WS, B or S. *)
Definition py_isspace (c : N) : bool :=
  ((9 <=? c) && (c <=? 13) || (28 <=? c) && (c <=? 32) || (c =? 133)
   || (c =? 160) || (c =? 5760) || (8192 <=? c) && (c <=? 8202)
   || (c =? 8232) || (c =? 8233) || (c =? 8239) || (c =? 8287)
   || (c =? 12288))%N.

(** [s.lstrip(chars)], [s.rstrip(chars)] and [s.strip()], the stripped
    characters given as a predicate. *)
Fixpoint lstrip_by (p : N -> bool) (s : pystr) : pystr :=
  match s with
  | c :: s' => if p c then lstrip_by p s' else s
  | [] => []
  end.

Definition rstrip_by (p : N -> bool) (s : pystr) : pystr :=
  rev (lstrip_by p (rev s)).

Definition strip (s : pystr) : pystr :=
  rstrip_by py_isspace (lstrip_by py_isspace s).

(** No character of [s] satisfies [p]. *)
Definition free (p : N -> bool) (s : pystr) : Prop :=
  Forall (fun c => p c = false) s.

(** [s.startswith(p)] *)
Fixpoint startswith (p s : pystr) : bool :=
  match p, s with
  | [], _ => true
  | a :: p', b :: s' => (a =? b)%N && startswith p' s'
  | _ :: _, [] => false
  end.

(** [needle in hay] on strings: substring search. *)
Fixpoint contains (needle hay : pystr) : bool :=
  startswith needle hay ||
  match hay with
  | [] => false
  | _ :: hay' => contains needle hay'
  end.

(** [sep.join(parts)] *)
Fixpoint join (sep : pystr) (parts : list pystr) : pystr :=
  match parts with
  | [] => []
  | [p] => p
  | p :: ps => p ++ sep ++ join sep ps
  end.

(** [s.split()]: maximal runs of non-whitespace characters. *)
Fixpoint split_ws_aux (cur : pystr) (s : pystr) : list pystr :=
  match s with
  | [] => match cur with [] => [] | _ => [rev cur] end
  | c :: s' =>
      if py_isspace c
      then match cur with
           | [] => split_ws_aux [] s'
           | _ => rev cur :: split_ws_aux [] s'
           end
      else split_ws_aux (c :: cur) s'
  end.

Definition split_ws (s : pystr) : list pystr := split_ws_aux [] s.

(** [s.lower()] on the letters A-Z; the script lowers class names only to
    look for ASCII words in them. *)
Definition lower_char (c : N) : N :=
  if ((65 <=? c) && (c <=? 90))%N then (c + 32)%N else c.

Definition lower (s : pystr) : pystr := List.map lower_char s.

(** The test ['一' <= char <= '鿿']. *)
Definition is_cjk (c : N) : bool := ((0x4e00 <=? c) && (c <=? 0x9fff))%N.

(** [sum(1 for char in s if '一' <= char <= '鿿')] *)
Definition chinese_count (s : pystr) : nat := length (List.filter is_cjk s).

(** ** The result lines *)

(** The icon that opens a result line: a cross, a warning sign, a check
    mark or an information sign. *)
Inductive Status := PASS | WARN | FAIL | INFO.

(** ** The BeautifulSoup object model *)

(** The classes of the strings of a document.  The parser builds a
    [NavigableString] for character data, a [CData] for a CDATA section and
    a [Comment] for a comment; character data read inside a [script], a
    [style], a [template], an [rt] or an [rp] tag gets the class of that
    tag instead.  Doctypes, declarations and processing instructions are
    left out: no call of the script can tell them from a comment. *)
Inductive StringClass :=
| NavigableString
| CData
| Comment
| Script
| Stylesheet
| TemplateString
| RubyTextString
| RubyParenthesisString.

#[global] Instance StringClass_eq_dec : EqDecision StringClass.
Proof. solve_decision. Defined.

(** A page element is a string or a tag.  [nid] stands for the identity of
    the tag object: [decompose] is called on tag objects collected
    beforehand, and finds them again by identity.  [attrs] is the tag's
    attribute dictionary, with the values as they are written in the
    markup. *)
Inductive Node :=
| Text (cls : StringClass) (s : pystr)
| Elem (nid : nat) (name : pystr) (attrs : list (pystr * pystr))
       (children : list Node).

(** The [BeautifulSoup] object is itself a tag, named [[document]]. *)
Definition BeautifulSoup (contents : list Node) : Node :=
  Elem 0 (lit "[document]") [] contents.

Definition children_of (n : Node) : list Node :=
  match n with
  | Text _ _ => []
  | Elem _ _ _ cs => cs
  end.

(** The element and everything below it, in document order. *)
Fixpoint subtree (n : Node) : list Node :=
  n :: match n with
       | Text _ _ => []
       | Elem _ _ _ cs => List.flat_map subtree cs
       end.

(** [tag.descendants] *)
Definition descendants (n : Node) : list Node :=
  List.flat_map subtree (children_of n).

Definition is_tag (n : Node) : bool :=
  match n with Elem _ _ _ _ => true | Text _ _ => false end.

Definition tag_name (n : Node) : pystr :=
  match n with Elem _ nm _ _ => nm | Text _ _ => [] end.

Definition tag_id (n : Node) : option nat :=
  match n with Elem i _ _ _ => Some i | Text _ _ => None end.

(** [tag.get(key)]: [None] when the attribute is absent. *)
Fixpoint dict_get (key : pystr) (d : list (pystr * pystr)) : option pystr :=
  match d with
  | [] => None
  | (k, v) :: d' => if str_eqb k key then Some v else dict_get key d'
  end.

Definition get_attr (n : Node) (key : pystr) : option pystr :=
  match n with
  | Elem _ _ a _ => dict_get key a
  | Text _ _ => None
  end.

(** [tag.get(key, '')] *)
Definition get_attr_default (n : Node) (key : pystr) : pystr :=
  default [] (get_attr n key).

(** [tag.find_all(...)] with the match given as a predicate on tags. *)
Definition find_all_by (p : Node -> bool) (n : Node) : list Node :=
  List.filter (fun d => is_tag d && p d) (descendants n).

(** [tag.find_all(name)] and [tag.find_all([name1, name2, ...])] *)
Definition has_name (names : list pystr) (n : Node) : bool :=
  existsb (str_eqb (tag_name n)) names.

Definition find_all (names : list pystr) (n : Node) : list Node :=
  find_all_by (has_name names) n.

(** [tag.find(...)]: the first match, or [None]. *)
Definition find_by (p : Node -> bool) (n : Node) : option Node :=
  head (find_all_by p n).

Definition find (name : pystr) (n : Node) : option Node :=
  find_by (has_name [name]) n.

(** [builder.string_containers]: the tags whose character data gets a
    class of its own. *)
Definition string_containers (name : pystr) : option StringClass :=
  if str_eqb name (lit "rt") then Some RubyTextString
  else if str_eqb name (lit "rp") then Some RubyParenthesisString
  else if str_eqb name (lit "style") then Some Stylesheet
  else if str_eqb name (lit "script") then Some Script
  else if str_eqb name (lit "template") then Some TemplateString
  else None.

(** [tag.interesting_string_types]: the classes of the strings that make
    the text of a tag.  For a tag that is no string container these are
    [NavigableString] and [CData]: the strings of the scripts, style
    sheets, templates and ruby annotations below it, and the comments, are
    no part of its text. *)
Definition interesting_string_types (n : Node) : list StringClass :=
  match string_containers (tag_name n) with
  | Some cls => [cls]
  | None => [NavigableString; CData]
  end.

Definition class_in (types : list StringClass) (cls : StringClass) : bool :=
  existsb (fun t => bool_decide (cls = t)) types.

(** The strings below an element (or the string itself) whose class is
    one of [types], in order. *)
Definition strings_of (types : list StringClass) (n : Node) : list pystr :=
  List.flat_map (fun d => match d with
                          | Text cls s => if class_in types cls then [s] else []
                          | Elem _ _ _ _ => []
                          end)
                (subtree n).

(** [tag._all_strings()]: the strings of the tag's interesting classes. *)
Definition all_strings (n : Node) : list pystr :=
  strings_of (interesting_string_types n) n.

(** [tag.get_text(strip=True, separator=sep)]: every string is stripped,
    the empty ones are dropped, the rest is joined. *)
Definition nonempty (s : pystr) : bool :=
  match s with [] => false | _ => true end.

Definition stripped_strings (n : Node) : list pystr :=
  List.filter nonempty (List.map strip (all_strings n)).

Definition get_text_strip (sep : pystr) (n : Node) : pystr :=
  join sep (stripped_strings n).

(** ** check_title *)

Inductive TitleFinding :=
| TitleMissing        (* no title tag *)
| TitleTooShort       (* cross: too short *)
| TitleSlightlyShort  (* warning: slightly short *)
| TitleTooLong        (* warning: too long *)
| TitleLengthOk.      (* check mark *)

Definition title_status (f : TitleFinding) : Status :=
  match f with
  | TitleMissing | TitleTooShort => FAIL
  | TitleSlightlyShort | TitleTooLong => WARN
  | TitleLengthOk => PASS
  end.

(** [chinese_count > len(title_content) / 2].  The quotient is a double in
    Python; for lengths below 2^52 the comparison with the integer count
    comes out as in exact arithmetic. *)
Definition title_is_chinese_dominant (title_content : pystr) : bool :=
  length title_content <? 2 * chinese_count title_content.

Definition title_band (is_chinese_dominant : bool) (title_length : nat)
  : TitleFinding :=
  if is_chinese_dominant then
    if title_length <? 15 then TitleTooShort
    else if title_length <? 30 then TitleSlightlyShort
    else if 70 <? title_length then TitleTooLong
    else TitleLengthOk
  else
    if title_length <? 30 then TitleTooShort
    else if title_length <? 50 then TitleSlightlyShort
    else if 65 <? title_length then TitleTooLong
    else TitleLengthOk.

Definition check_title (soup : Node) : TitleFinding * bool :=
  match find (lit "title") soup with
  | None => (TitleMissing, false)
  | Some title_tag =>
      let title_content := get_text_strip [] title_tag in
      let title_length := length title_content in
      let is_chinese_dominant := title_is_chinese_dominant title_content in
      (title_band is_chinese_dominant title_length,
       (30 <=? title_length) && (title_length <=? 70))
  end.

(** ** check_meta_description *)

Inductive MetaFinding :=
| MetaMissing        (* cross: no meta description tag *)
| MetaEmpty          (* warning: the content is empty *)
| MetaTooShort       (* cross *)
| MetaSlightlyShort  (* warning *)
| MetaTooLong        (* warning *)
| MetaLengthOk.      (* check mark *)

Definition meta_status (f : MetaFinding) : Status :=
  match f with
  | MetaMissing | MetaTooShort => FAIL
  | MetaEmpty | MetaSlightlyShort | MetaTooLong => WARN
  | MetaLengthOk => PASS
  end.

(** [chinese_count > len(desc_content) / 3], in exact arithmetic (see
    [title_is_chinese_dominant]). *)
Definition desc_is_chinese_dominant (desc_content : pystr) : bool :=
  length desc_content <? 3 * chinese_count desc_content.

Definition desc_band (is_chinese_dominant : bool) (desc_length : nat)
  : MetaFinding :=
  if is_chinese_dominant then
    if desc_length <? 50 then MetaTooShort
    else if desc_length <? 100 then MetaSlightlyShort
    else if 200 <? desc_length then MetaTooLong
    else MetaLengthOk
  else
    if desc_length <? 120 then MetaTooShort
    else if desc_length <? 140 then MetaSlightlyShort
    else if 180 <? desc_length then MetaTooLong
    else MetaLengthOk.

(** [attrs={key: value}] on an attribute with a single value. *)
Definition attr_is (key value : pystr) (n : Node) : bool :=
  match get_attr n key with
  | Some v => str_eqb v value
  | None => false
  end.

(** The match of [soup.find('meta', attrs={'name': 'description'})]. *)
Definition is_meta_description (n : Node) : bool :=
  has_name [lit "meta"] n && attr_is (lit "name") (lit "description") n.

Definition check_meta_description (soup : Node) : MetaFinding * bool :=
  match find_by is_meta_description soup with
  | None => (MetaMissing, false)
  | Some meta_desc =>
      let desc_content := strip (get_attr_default meta_desc (lit "content")) in
      if negb (nonempty desc_content) then (MetaEmpty, false)
      else
        let desc_length := length desc_content in
        let is_chinese_dominant := desc_is_chinese_dominant desc_content in
        (desc_band is_chinese_dominant desc_length,
         if is_chinese_dominant
         then (100 <=? desc_length) && (desc_length <=? 200)
         else (140 <=? desc_length) && (desc_length <=? 180))
  end.

(** ** check_h1 *)

Inductive H1Length := H1Empty | H1Short | H1Long | H1LengthOk.

Inductive H1Relation :=
| RelIdentical   (* warning: identical to the title *)
| RelContained   (* check mark: one contains the other *)
| RelNear        (* check mark: a shared key phrase *)
| RelWeak.       (* warning: weak relation *)

(** What [check_h1] prints: whether the missing-H1 line was printed, the
    state line of every H1, whether the multiple-H1 warning was printed and
    the relation line, when the relation with the title was examined. *)
Record H1Report := {
  h1_missing : bool;
  h1_states : list H1Length;
  h1_multiple : bool;
  h1_relation : option H1Relation
}.

Definition h1_length_state (h1_length : nat) : H1Length :=
  if h1_length =? 0 then H1Empty
  else if h1_length <? 10 then H1Short
  else if 100 <? h1_length then H1Long
  else H1LengthOk.

Definition stop_words : list N :=
  [0x7684; 0x548c; 0x4e0e; 0x53ca; 0x6216; 0x5728; 0x662f; 0x6709; 0x4e86;
   0x5417; 0x5462; 0x5427; 0x554a]%N.

Definition in_stop_words (c : N) : bool := existsb (N.eqb c) stop_words.

(** [words[a:b]] *)
Definition slice {A} (a b : nat) (l : list A) : list A :=
  List.firstn (b - a) (List.skipn a l).

Definition extract_key_phrases (text : pystr) : list pystr :=
  let words := List.filter (fun word => negb (in_stop_words word)) text in
  (if 2 <? length words
   then [slice 0 (Nat.min 3 (length words)) words] else [])
  ++
  (if 4 <? length words
   then [slice 2 (Nat.min 5 (length words)) words] else []).

Definition phrases_related (h1_phrases title_phrases : list pystr) : bool :=
  existsb (fun h1_phrase =>
    existsb (fun title_phrase =>
      (2 <=? length h1_phrase) && (2 <=? length title_phrase)
      && (contains h1_phrase title_phrase || contains title_phrase h1_phrase))
      title_phrases) h1_phrases.

Definition h1_title_relation (primary_h1 page_title : pystr) : H1Relation :=
  if str_eqb primary_h1 page_title then RelIdentical
  else if contains primary_h1 page_title || contains page_title primary_h1
  then RelContained
  else if phrases_related (extract_key_phrases primary_h1)
                          (extract_key_phrases page_title)
  then RelNear
  else RelWeak.

Definition check_h1 (soup : Node) : H1Report * bool :=
  let h1_tags := find_all [lit "h1"] soup in
  let h1_count := length h1_tags in
  let page_title :=
    match find (lit "title") soup with
    | Some title_tag => get_text_strip [] title_tag
    | None => []
    end in
  if h1_count =? 0 then
    ({| h1_missing := true; h1_states := []; h1_multiple := false;
        h1_relation := None |}, false)
  else
    let h1_contents := List.map (get_text_strip []) h1_tags in
    let states := List.map (fun h1_text => h1_length_state (length h1_text))
                           h1_contents in
    let relation :=
      if nonempty page_title && (1 <=? h1_count) then
        match h1_contents with
        | primary_h1 :: _ => Some (h1_title_relation primary_h1 page_title)
        | [] => None
        end
      else None in
    ({| h1_missing := false; h1_states := states;
        h1_multiple := 1 <? h1_count; h1_relation := relation |},
     h1_count =? 1).

(** ** check_image_alt *)

Inductive ImageFinding :=
| ImgNone         (* information: no image on the page *)
| ImgAllHaveAlt   (* check mark *)
| ImgFewMissing   (* warning: a few images lack alt *)
| ImgManyMissing  (* warning: a good many images lack alt *)
| ImgMostMissing. (* cross: half of the images or more lack alt *)

Definition image_status (f : ImageFinding) : Status :=
  match f with
  | ImgNone => INFO
  | ImgAllHaveAlt => PASS
  | ImgFewMissing | ImgManyMissing => WARN
  | ImgMostMissing => FAIL
  end.

(** A count as a double.  Exact below 2^53. *)
Definition float_of_nat (n : nat) : float :=
  PrimFloat.of_uint63 (Uint63.of_Z (Z.of_nat n)).

(** [(missing_alt_count / total_images) * 100], in binary64 as Python
    computes it. *)
Definition missing_percentage (missing_alt_count total_images : nat) : float :=
  (float_of_nat missing_alt_count / float_of_nat total_images * 100)%float.

(** [not img.get('alt')]: the attribute is absent or empty. *)
Definition lacks_alt (img : Node) : bool :=
  match get_attr img (lit "alt") with
  | None => true
  | Some v => negb (nonempty v)
  end.

Definition image_band (missing_alt_count total_images : nat) : ImageFinding :=
  if missing_alt_count =? 0 then ImgAllHaveAlt
  else if (missing_percentage missing_alt_count total_images <? 20)%float
  then ImgFewMissing
  else if (missing_percentage missing_alt_count total_images <? 50)%float
  then ImgManyMissing
  else ImgMostMissing.

(** The default of [img.get('src', ...)] in the examples. *)
Definition no_src : pystr := [0x65e0%N] ++ lit "src" ++ [0x5c5e; 0x6027]%N.

Record ImageReport := {
  img_finding : ImageFinding;
  img_examples : list pystr
}.

Definition check_image_alt (soup : Node) : ImageReport * bool :=
  let all_images := find_all [lit "img"] soup in
  let total_images := length all_images in
  if total_images =? 0 then
    ({| img_finding := ImgNone; img_examples := [] |}, true)
  else
    let images_without_alt := List.filter lacks_alt all_images in
    let missing_alt_count := length images_without_alt in
    if missing_alt_count =? 0 then
      ({| img_finding := ImgAllHaveAlt; img_examples := [] |}, true)
    else
      ({| img_finding := image_band missing_alt_count total_images;
          img_examples :=
            List.map (fun img =>
                        List.firstn 50 (default no_src (get_attr img (lit "src"))))
                     (List.firstn 5 images_without_alt) |},
       missing_alt_count =? 0).

(** ** urllib.parse.urlparse *)

(** [c in s] for a character. *)
Definition has_char (c : N) (s : pystr) : bool := existsb (N.eqb c) s.

(** [s.find(c)]: the index of the first [c]; [None] stands for -1. *)
Fixpoint str_find (c : N) (s : pystr) : option nat :=
  match s with
  | [] => None
  | x :: s' => if (c =? x)%N then Some 0 else option_map S (str_find c s')
  end.

(** [s.find(c, start)] *)
Definition str_find_from (c : N) (start : nat) (s : pystr) : option nat :=
  option_map (fun i => start + i) (str_find c (List.skipn start s)).

(** [s.rfind(c)] *)
Definition str_rfind (c : N) (s : pystr) : option nat :=
  option_map (fun i => length s - 1 - i) (str_find c (rev s)).

(** [s.replace(c, "")] *)
Definition remove_char (c : N) (s : pystr) : pystr :=
  List.filter (fun x => negb (c =? x)%N) s.

Definition ch (a : ascii) : N := N_of_ascii a.

(** The set [_WHATWG_C0_CONTROL_OR_SPACE]. *)
Definition is_c0_control_or_space (c : N) : bool := (c <=? 32)%N.

Definition is_ascii_alpha (c : N) : bool :=
  ((65 <=? c) && (c <=? 90) || (97 <=? c) && (c <=? 122))%N.

(** Membership in [scheme_chars]: letters, digits and [+-.]. *)
Definition is_scheme_char (c : N) : bool :=
  (is_ascii_alpha c || (48 <=? c) && (c <=? 57)
   || (c =? 43) || (c =? 45) || (c =? 46))%N.

Definition uses_params : list pystr :=
  List.map lit ["" ; "ftp"; "hdl"; "prospero"; "http"; "imap"; "https";
                "shttp"; "rtsp"; "rtspu"; "sip"; "sips"; "mms"; "sftp";
                "tel"]%string.

(** The two validity checks of [urlsplit] that only decide whether
    [ValueError] is raised: [_check_bracketed_netloc], run on a location
    with both brackets, and [_checknetloc], whose NFKC test is run on a
    location that is not ASCII.  They rest on [ipaddress] and
    [unicodedata] and are taken as given. *)
Record NetlocChecks := {
  check_bracketed_netloc : pystr -> bool;
  checknetloc_nfkc : pystr -> bool
}.

Definition splitnetloc (url : pystr) (start : nat) : pystr * pystr :=
  let delim :=
    fold_left (fun delim c =>
                 match str_find_from c start url with
                 | Some wdelim => Nat.min delim wdelim
                 | None => delim
                 end)
              [ch "/"; ch "?"; ch "#"] (length url) in
  (slice start delim url, List.skipn delim url).

Record SplitResult := {
  sr_scheme : pystr;
  sr_netloc : pystr;
  sr_path : pystr
}.

(** The head of [urlsplit]: leading C0 controls and spaces are stripped,
    then tabs and line ends are removed everywhere. *)
Definition clean_url (url : pystr) : pystr :=
  fold_left (fun u b => remove_char b u) [9; 13; 10]%N
            (lstrip_by is_c0_control_or_space url).

(** The scheme, when the text before the first colon is one, and the rest
    of the url. *)
Definition split_scheme (url : pystr) : pystr * pystr :=
  match str_find (ch ":") url, url with
  | Some (S i'), c0 :: _ =>
      if is_ascii_alpha c0 && forallb is_scheme_char (List.firstn (S i') url)
      then (lower (List.firstn (S i') url), List.skipn (S i' + 1) url)
      else ([], url)
  | _, _ => ([], url)
  end.

(** The location after a leading [//], and the rest of the url. *)
Definition split_location (K : NetlocChecks) (url : pystr)
  : option (pystr * pystr) :=
  if str_eqb (List.firstn 2 url) (lit "//") then
    let '(netloc, rest) := splitnetloc url 2 in
    if has_char (ch "[") netloc && negb (has_char (ch "]") netloc)
       || has_char (ch "]") netloc && negb (has_char (ch "[") netloc)
    then None
    else if has_char (ch "[") netloc && has_char (ch "]") netloc
              && negb (check_bracketed_netloc K netloc)
    then None
    else Some (netloc, rest)
  else Some ([], url).

(** [url.split(c, 1)[0]] when [c] is in [url], [url] otherwise. *)
Definition cut_at (c : N) (url : pystr) : pystr :=
  match str_find c url with
  | Some i => List.firstn i url
  | None => url
  end.

(** [urlsplit(url)], up to the query and the fragment, which
    [normalize_url] does not read.  [None] stands for [ValueError]. *)
Definition urlsplit (K : NetlocChecks) (url : pystr) : option SplitResult :=
  let '(scheme, url) := split_scheme (clean_url url) in
  match split_location K url with
  | None => None
  | Some (netloc, url) =>
      let url := cut_at (ch "?") (cut_at (ch "#") url) in
      if nonempty netloc && negb (forallb (fun c => (c <? 128)%N) netloc)
         && negb (checknetloc_nfkc K netloc)
      then None
      else Some {| sr_scheme := scheme; sr_netloc := netloc; sr_path := url |}
  end.

(** [_splitparams(url)], the path component of the pair. *)
Definition splitparams (url : pystr) : pystr :=
  if has_char (ch "/") url then
    match str_rfind (ch "/") url with
    | Some j =>
        match str_find_from (ch ";") j url with
        | Some i => List.firstn i url
        | None => url
        end
    | None => url
    end
  else
    match str_find (ch ";") url with
    | Some i => List.firstn i url
    | None => url
    end.

(** [urlparse(url)]: the location and the path. *)
Definition urlparse (K : NetlocChecks) (url : pystr) : option (pystr * pystr) :=
  match urlsplit K url with
  | None => None
  | Some r =>
      let path :=
        if existsb (str_eqb (sr_scheme r)) uses_params
           && has_char (ch ";") (sr_path r)
        then splitparams (sr_path r)
        else sr_path r in
      Some (sr_netloc r, path)
  end.

(** ** check_canonical *)

(** [normalize_url]: [parsed.netloc + parsed.path.rstrip('/')]. *)
Definition normalize_url (K : NetlocChecks) (url : pystr) : option pystr :=
  match urlparse K url with
  | None => None
  | Some (netloc, path) => Some (netloc ++ rstrip_by (N.eqb (ch "/")) path)
  end.

Inductive CanonicalFinding :=
| CanonMissing    (* warning: no canonical tag *)
| CanonEmptyHref  (* cross: the href is empty *)
| CanonSelf       (* check mark: points to the page itself *)
| CanonOther.     (* warning: points to another URL *)

Definition canonical_status (f : CanonicalFinding) : Status :=
  match f with
  | CanonMissing | CanonOther => WARN
  | CanonEmptyHref => FAIL
  | CanonSelf => PASS
  end.

(** [attrs={key: value}] on an attribute with several values, such as
    [rel] and [class]: one of the values, or their joined string, is
    [value]. *)
Definition attr_has (key value : pystr) (n : Node) : bool :=
  match get_attr n key with
  | Some v =>
      let values := split_ws v in
      existsb (fun item => str_eqb item value) values
      || str_eqb (join (lit " ") values) value
  | None => false
  end.

(** The match of [soup.find('link', attrs={'rel': 'canonical'})]. *)
Definition is_canonical_link (n : Node) : bool :=
  has_name [lit "link"] n && attr_has (lit "rel") (lit "canonical") n.

(** [None] stands for the [ValueError] of [urlparse]. *)
Definition check_canonical (K : NetlocChecks) (soup : Node) (current_url : pystr)
  : option (CanonicalFinding * bool) :=
  match find_by is_canonical_link soup with
  | None => Some (CanonMissing, false)
  | Some canonical_tag =>
      let canonical_url := strip (get_attr_default canonical_tag (lit "href")) in
      if negb (nonempty canonical_url) then Some (CanonEmptyHref, false)
      else
        match normalize_url K current_url with
        | None => None
        | Some current_normalized =>
            match normalize_url K canonical_url with
            | None => None
            | Some canonical_normalized =>
                if str_eqb current_normalized canonical_normalized
                then Some (CanonSelf, true)
                else Some (CanonOther, false)
            end
        end
  end.

(** ** Mutable documents *)

(** [decompose] changes a document in place.  The store holds every
    [BeautifulSoup] object built so far; a tag object is the document it
    lives in together with its identity there. *)
Abbreviation Store := (list Node) (only parsing).
Abbreviation Ref := nat (only parsing).
Abbreviation TagRef := (nat * nat)%type (only parsing).

(** Computations that read and write the store. [None]: a reference that
    does not point into the store (no Python program holds one). *)
Definition M (A : Type) : Type := Store -> option (A * Store).

Definition ret {A} (a : A) : M A := fun st => Some (a, st).

Definition bind {A B} (m : M A) (f : A -> M B) : M B :=
  fun st => match m st with
            | Some (a, st') => f a st'
            | None => None
            end.

Notation "x <- c1 ;; c2" := (bind c1 (fun x => c2))
  (at level 100, c1 at next level, right associativity).
Notation "c1 ;;; c2" := (bind c1 (fun _ => c2))
  (at level 100, c2 at level 200, right associativity).

(** [for x in xs: body(x)] *)
Fixpoint for_each {A} (xs : list A) (body : A -> M unit) : M unit :=
  match xs with
  | [] => ret tt
  | x :: xs' => body x ;;; for_each xs' body
  end.

Definition read (l : Ref) : M Node :=
  fun st => match st !! l with
            | Some doc => Some (doc, st)
            | None => None
            end.

(** The markup of a tag, parsed.  The markup is taken to parse back to a
    tag of the same shape, with the classes the parser gives to its
    strings: character data gets the class of the innermost string
    container around it in the markup, [container] when there is none;
    CDATA sections and comments stay what they are.  The copy keeps the
    identities of the original. *)
Definition is_character_data (cls : StringClass) : bool :=
  match cls with
  | CData | Comment => false
  | _ => true
  end.

Fixpoint parsed (container : StringClass) (n : Node) : Node :=
  match n with
  | Text cls s => Text (if is_character_data cls then container else cls) s
  | Elem i nm a cs =>
      Elem i nm a
           (List.map (parsed (default container (string_containers nm))) cs)
  end.

(** The tag in [BeautifulSoup(str(tag), 'html.parser')]. *)
Definition copy_of (tag : Node) : Node := parsed NavigableString tag.

(** [BeautifulSoup(str(tag), 'html.parser')]: a new document that holds a
    copy of the tag, in a document of its own. *)
Definition new_soup (markup : list Node) : M Ref :=
  fun st => Some (length st, st ++ [BeautifulSoup (List.map copy_of markup)]).

Definition is_nid (i : nat) (n : Node) : bool :=
  match n with
  | Elem j _ _ _ => j =? i
  | Text _ _ => false
  end.

(** The document without the tag of identity [i] and what is below it. *)
Fixpoint remove_tag (i : nat) (n : Node) : Node :=
  match n with
  | Text _ _ => n
  | Elem j nm a cs =>
      Elem j nm a
        (List.flat_map
           (fun c => if is_nid i c then [] else [remove_tag i c]) cs)
  end.

(** [tag.decompose()].  On a tag that went away with an enclosing tag it
    changes nothing. *)
Definition decompose (t : TagRef) : M unit :=
  fun st => match st !! t.1 with
            | Some doc => Some (tt, <[t.1 := remove_tag t.2 doc]> st)
            | None => None
            end.

(** The tag a tag object stands for. *)
Definition deref (t : TagRef) : M Node :=
  doc <- read t.1 ;;
  match find_by (is_nid t.2) doc with
  | Some n => ret n
  | None => fun _ => None
  end.

Definition tag_refs (l : Ref) (tags : list Node) : list TagRef :=
  List.map (fun i => (l, i)) (omap tag_id tags).

(** [soup(names)], which is [soup.find_all(names)], as tag objects. *)
Definition find_all_refs (names : list pystr) (l : Ref) : M (list TagRef) :=
  doc <- read l ;; ret (tag_refs l (find_all names doc)).

(** The selectors the script passes to [select]: a tag name, [.class] or
    [#id]. *)
Inductive Selector :=
| SelType (name : pystr)
| SelClass (cls : pystr)
| SelId (id : pystr).

Definition selector_matches (sel : Selector) (n : Node) : bool :=
  match sel with
  | SelType name => str_eqb (tag_name n) name
  | SelClass cls =>
      existsb (str_eqb cls) (split_ws (get_attr_default n (lit "class")))
  | SelId id =>
      match get_attr n (lit "id") with
      | Some v => str_eqb v id
      | None => false
      end
  end.

Definition select (sel : Selector) (n : Node) : list Node :=
  find_all_by (selector_matches sel) n.

Definition select_refs (sel : Selector) (l : Ref) : M (list TagRef) :=
  doc <- read l ;; ret (tag_refs l (select sel doc)).

(** ** check_initial_content *)

Inductive VisibilityFinding :=
| VisNoBody      (* warning: no body tag *)
| VisHighRisk    (* cross: hardly any content in the initial HTML *)
| VisMediumRisk  (* warning: the content may be insufficient *)
| VisGood        (* check mark *)
| VisUnsure.     (* warning: needs a further check *)

Definition visibility_status (f : VisibilityFinding) : Status :=
  match f with
  | VisHighRisk => FAIL
  | VisNoBody | VisMediumRisk | VisUnsure => WARN
  | VisGood => PASS
  end.

Definition noise_tags : list pystr :=
  List.map lit ["script"; "style"; "noscript"; "iframe"; "nav"; "header";
                "footer"; "aside"; "form"; "button"; "input"]%string.

Definition nav_selectors : list Selector :=
  [SelType (lit "nav"); SelClass (lit "navigation"); SelClass (lit "navbar");
   SelClass (lit "menu"); SelId (lit "nav"); SelId (lit "navigation");
   SelId (lit "menu"); SelClass (lit "header"); SelClass (lit "footer");
   SelClass (lit "sidebar")].

Definition content_words : list pystr :=
  List.map lit ["content"; "post"; "article"; "main"; "entry"]%string.

(** The [class_] function of the script:
    [x and any(word in str(x).lower() for word in [...])]. *)
Definition class_is_content (x : pystr) : bool :=
  nonempty x && existsb (fun word => contains word (lower x)) content_words.

(** [find_all(class_=f)]: [f] is tried on every class of the tag, then on
    the classes joined by a space. *)
Definition class_matches (f : pystr -> bool) (n : Node) : bool :=
  match get_attr n (lit "class") with
  | Some v =>
      let classes := split_ws v in
      existsb f classes || f (join (lit " ") classes)
  | None => false
  end.

(** [len(p.get_text(strip=True)) > 50] *)
Definition is_meaningful (p : Node) : bool :=
  50 <? length (get_text_strip [] p).

(** The four-way decision at the end of the function: the result line and
    the returned value. *)
Definition visibility_decision (text_length meaningful_paragraphs : nat)
  (has_content_structure : bool) : VisibilityFinding * bool :=
  if text_length <? 100 then (VisHighRisk, false)
  else if (text_length <? 300) && (meaningful_paragraphs <? 2)
  then (VisMediumRisk, false)
  else if has_content_structure || (2 <=? meaningful_paragraphs)
  then (VisGood, true)
  else (VisUnsure, 200 <=? text_length).

Record VisibilityReport := {
  vis_finding : VisibilityFinding;
  vis_text_length : option nat;   (* printed once there is a body *)
  vis_word_count : option nat
}.

Definition check_initial_content (soup : Ref) : M (VisibilityReport * bool) :=
  doc <- read soup ;;
  match find (lit "body") doc with
  | None =>
      ret ({| vis_finding := VisNoBody; vis_text_length := None;
              vis_word_count := None |}, false)
  | Some body_tag =>
      let body : TagRef := (soup, default 0 (tag_id body_tag)) in
      (* body_copy = BeautifulSoup(str(body), 'html.parser') *)
      markup <- deref body ;;
      body_copy <- new_soup [markup] ;;
      (* temp_body = BeautifulSoup(str(body), 'html.parser') *)
      markup <- deref body ;;
      temp_body <- new_soup [markup] ;;
      tags <- find_all_refs noise_tags temp_body ;;
      for_each tags decompose ;;;
      for_each nav_selectors (fun selector =>
        tags <- select_refs selector temp_body ;;
        for_each tags decompose) ;;;
      temp <- read temp_body ;;
      let visible_text := get_text_strip (lit " ") temp in
      let text_length := length visible_text in
      let word_count := length (split_ws visible_text) in
      b <- deref body ;;
      let content_tags := find_all [lit "article"; lit "main"] b in
      b <- deref body ;;
      let content_classes := find_all_by (class_matches class_is_content) b in
      let has_content_structure :=
        (0 <? length content_tags) || (0 <? length content_classes) in
      b <- deref body ;;
      let paragraphs := find_all [lit "p"] b in
      let meaningful_paragraphs := List.filter is_meaningful paragraphs in
      let '(finding, verdict) :=
        visibility_decision text_length (length meaningful_paragraphs)
                            has_content_structure in
      ret ({| vis_finding := finding; vis_text_length := Some text_length;
              vis_word_count := Some word_count |}, verdict)
  end.

(** *** The working copy, as a value

    What the two loops of [check_initial_content] leave of a document,
    written without the store: the statements below compare the run of
    the function with it. *)

(** The identities of the tags of a document.  The parser builds one
    object per tag: the identities of a parsed document are distinct. *)
Definition tag_ids (doc : Node) : list nat := omap tag_id (descendants doc).

Definition distinct_ids (doc : Node) : Prop := NoDup (tag_ids doc).

(** [for tag in tags: tag.decompose()] on the tags of the given
    identities. *)
Definition remove_all (ids : list nat) (doc : Node) : Node :=
  fold_left (fun d i => remove_tag i d) ids doc.

Definition without_noise (doc : Node) : Node :=
  remove_all (omap tag_id (find_all noise_tags doc)) doc.

Definition without_selected (selectors : list Selector) (doc : Node) : Node :=
  fold_left (fun d selector => remove_all (omap tag_id (select selector d)) d)
            selectors doc.

(** What the two loops leave of the copy of a body. *)
Definition working_copy (body : Node) : Node :=
  without_selected nav_selectors (without_noise (BeautifulSoup [copy_of body])).

(** The report and the value for a body, from its working copy and from
    the body itself. *)
Definition visibility_of (body : Node) : VisibilityReport * bool :=
  let visible_text := get_text_strip (lit " ") (working_copy body) in
  let text_length := length visible_text in
  let has_content_structure :=
    (0 <? length (find_all [lit "article"; lit "main"] body))
    || (0 <? length (find_all_by (class_matches class_is_content) body)) in
  let meaningful_paragraphs :=
    List.filter is_meaningful (find_all [lit "p"] body) in
  let '(finding, verdict) :=
    visibility_decision text_length (length meaningful_paragraphs)
                        has_content_structure in
  ({| vis_finding := finding; vis_text_length := Some text_length;
      vis_word_count := Some (length (split_ws visible_text)) |}, verdict).

(** Every string below the tag that is not blank lies below a tag whose
    identity is in [ids]. *)
Fixpoint covered (ids : list nat) (n : Node) : bool :=
  match n with
  | Text cls s =>
      negb (class_in [NavigableString; CData] cls && nonempty (strip s))
  | Elem i _ _ cs => existsb (Nat.eqb i) ids || forallb (covered ids) cs
  end.

(** The same for the document itself, which no loop removes. *)
Definition covered_root (ids : list nat) (doc : Node) : bool :=
  forallb (covered ids) (children_of doc).

(** A tag whose contents are [nav] and [script] tags, and blank strings
    between them. *)
Definition only_nav_and_script (body : Node) : Prop :=
  Forall (fun c => match c with
                   | Text _ s => strip s = []
                   | Elem _ _ _ _ => has_name [lit "nav"; lit "script"] c = true
                   end)
         (children_of body).

(** ** Decoding the response *)

Definition bytes : Type := list byte.

(** The exceptions the decoding code tells apart: [except
    UnicodeDecodeError] catches the first only, a bare [except] and
    [except Exception] catch all of them. *)
Inductive PyError := UnicodeDecodeError | LookupError | OtherError.

Definition Result (A : Type) : Type := (A + PyError)%type.

(** The [errors] argument of [bytes.decode]. *)
Inductive Errors := Strict | Ignore | Replace.

(** The dictionary [chardet.detect] returns. *)
Record Detected := {
  det_encoding : option pystr;
  det_confidence : float
}.

(** The response as [fetch_and_parse] reads it: [response.content],
    [response.encoding] and the requested [url]. *)
Record RawResponse := {
  content : bytes;
  encoding : option pystr;
  url : pystr
}.

(** What the script calls in its libraries: [bytes.decode(encoding,
    errors)] of the interpreter, [response.text] of requests and
    [chardet.detect]. *)
Record Libraries := {
  decode : pystr -> Errors -> bytes -> Result pystr;
  response_text : RawResponse -> Result pystr;
  chardet_detect : bytes -> Detected
}.

(** A call that returned text or raised [UnicodeDecodeError]. *)
Definition text_or_decode_error (r : Result pystr) : Prop :=
  match r with
  | inl _ => True
  | inr e => e = UnicodeDecodeError
  end.

(** ['.cn' in url or any(site in url for site in sites)] *)
Definition cjk_hint (sites : list pystr) (url : pystr) : bool :=
  contains (lit ".cn") url || existsb (fun site => contains site url) sites.

Definition fetch_sites : list pystr :=
  List.map lit ["sina"; "baidu"; "sohu"; "163"; "qq"]%string.

Definition fallback_sites : list pystr :=
  List.map lit ["sina"; "baidu"; "sohu"; "163"; "qq"; "zhihu"]%string.

Definition cjk_encodings : list pystr :=
  List.map lit ["gbk"; "gb2312"; "gb18030"; "utf-8"; "iso-8859-1"]%string.

Definition other_encodings : list pystr :=
  List.map lit ["utf-8"; "gbk"; "gb2312"; "iso-8859-1"]%string.

(** The loop of [fallback_decode] over the candidate encodings, and the
    lossy UTF-8 decoding after it. *)
Fixpoint try_encodings (L : Libraries) (content : bytes)
  (encodings : list pystr) : Result pystr :=
  match encodings with
  | [] => decode L (lit "utf-8") Ignore content
  | encoding :: rest =>
      match decode L encoding Strict content with
      | inr UnicodeDecodeError => try_encodings L content rest
      | r => r
      end
  end.

Definition fallback_decode (L : Libraries) (content : bytes)
  (url : option pystr) : Result pystr :=
  let encodings :=
    match url with
    | Some u =>
        if nonempty u && cjk_hint fallback_sites u
        then cjk_encodings else other_encodings
    | None => other_encodings
    end in
  try_encodings L content encodings.

(** [if response.encoding:] *)
Definition declared (response : RawResponse) : option pystr :=
  match encoding response with
  | Some e => if nonempty e then Some e else None
  | None => None
  end.

(** The encoding block of [fetch_and_parse]: the value of [content], or
    the exception that leaves the block. *)
Definition decode_response (L : Libraries) (response : RawResponse)
  : Result pystr :=
  match declared response with
  | Some enc =>
      match decode L enc Strict (content response) with
      | inr UnicodeDecodeError =>
          match (if cjk_hint fetch_sites (url response)
                 then decode L (lit "gbk") Strict (content response)
                 else decode L (lit "utf-8") Strict (content response)) with
          | inr UnicodeDecodeError => response_text L response
          | r => r
          end
      | r => r
      end
  | None =>
      let detected := chardet_detect L (List.firstn 1024 (content response)) in
      if (0.8 <? det_confidence detected)%float then
        match det_encoding detected with
        | Some enc =>
            match decode L enc Ignore (content response) with
            | inl s => inl s
            | inr _ => fallback_decode L (content response) (Some (url response))
            end
        | None => (* decode(None, ...) raises TypeError *)
            fallback_decode L (content response) (Some (url response))
        end
      else fallback_decode L (content response) (Some (url response))
  end.

(** [fetch_and_parse] from the encoding block on: the text handed to the
    parser, or [None] when the [except Exception] handler returns [None]. *)
Definition fetch_and_parse_text (L : Libraries) (response : RawResponse)
  : option pystr :=
  match decode_response L response with
  | inl s => Some s
  | inr _ => None
  end.

(** ** The libraries on concrete inputs

    An excerpt of the interpreter's codec registry, used to run the
    decoding chain on examples: the codecs the script names and [ascii],
    found under their usual spellings.  The GB code tables are cut down to
    the code points of the examples; a byte pair outside the excerpt is
    treated as unassigned. *)
Module CPython.

Definition REPLACEMENT : N := 0xFFFD%N.

Definition ok_cons (c : N) (r : Result pystr) : Result pystr :=
  match r with
  | inl s => inl (c :: s)
  | inr e => inr e
  end.

(** The error handlers: what decoding does with an undecodable input
    before going on with [k]. *)
Definition on_error (errors : Errors) (k : Result pystr) : Result pystr :=
  match errors with
  | Strict => inr UnicodeDecodeError
  | Ignore => k
  | Replace => ok_cons REPLACEMENT k
  end.

(** What a codec may return under the handler [errors]: text, or
    [UnicodeDecodeError] when the handler is strict. *)
Definition codec_result (errors : Errors) (r : Result pystr) : Prop :=
  match r with
  | inl _ => True
  | inr e => errors = Strict /\ e = UnicodeDecodeError
  end.

Fixpoint ascii_decode (errors : Errors) (bs : bytes) : Result pystr :=
  match bs with
  | [] => inl []
  | b :: rest =>
      if (Byte.to_N b <? 128)%N
      then ok_cons (Byte.to_N b) (ascii_decode errors rest)
      else on_error errors (ascii_decode errors rest)
  end.

Definition latin_1_decode (bs : bytes) : Result pystr :=
  inl (List.map Byte.to_N bs).

(** One step of the UTF-8 decoder: a character and its length, an
    ill-formed prefix and its length, or a sequence cut by the end of the
    input. *)
Inductive Utf8Step :=
| Utf8Char (c : N) (len : nat)
| Utf8Bad (len : nat)
| Utf8End.

Definition is_cont (b : N) : bool := ((128 <=? b) && (b <? 192))%N.

Definition utf8_step (bs : list N) : Utf8Step :=
  match bs with
  | [] => Utf8End
  | c1 :: r1 =>
      if (c1 <? 0x80)%N then Utf8Char c1 1
      else if (c1 <? 0xC2)%N then Utf8Bad 1
      else if (c1 <? 0xE0)%N then
        match r1 with
        | [] => Utf8End
        | c2 :: _ =>
            if is_cont c2
            then Utf8Char ((c1 - 0xC0) * 64 + (c2 - 0x80))%N 2
            else Utf8Bad 1
        end
      else if (c1 <? 0xF0)%N then
        match r1 with
        | [] => Utf8End
        | c2 :: r2 =>
            if negb (is_cont c2)
               || (c1 =? 0xE0)%N && (c2 <? 0xA0)%N
               || (c1 =? 0xED)%N && (0xA0 <=? c2)%N
            then Utf8Bad 1
            else
              match r2 with
              | [] => Utf8End
              | c3 :: _ =>
                  if is_cont c3
                  then Utf8Char ((c1 - 0xE0) * 4096 + (c2 - 0x80) * 64
                                 + (c3 - 0x80))%N 3
                  else Utf8Bad 2
              end
        end
      else if (c1 <? 0xF5)%N then
        match r1 with
        | [] => Utf8End
        | c2 :: r2 =>
            if negb (is_cont c2)
               || (c1 =? 0xF0)%N && (c2 <? 0x90)%N
               || (c1 =? 0xF4)%N && (0x90 <=? c2)%N
            then Utf8Bad 1
            else
              match r2 with
              | [] => Utf8End
              | c3 :: r3 =>
                  if negb (is_cont c3) then Utf8Bad 2
                  else
                    match r3 with
                    | [] => Utf8End
                    | c4 :: _ =>
                        if is_cont c4
                        then Utf8Char ((c1 - 0xF0) * 262144
                                       + (c2 - 0x80) * 4096
                                       + (c3 - 0x80) * 64 + (c4 - 0x80))%N 4
                        else Utf8Bad 3
                    end
              end
        end
      else Utf8Bad 1
  end.

(** [skip] counts the bytes of the current sequence still to pass over. *)
Fixpoint utf8_go (errors : Errors) (skip : nat) (bs : list N) : Result pystr :=
  match bs with
  | [] => inl []
  | _ :: rest =>
      match skip with
      | S k => utf8_go errors k rest
      | 0 =>
          match utf8_step bs with
          | Utf8Char c len => ok_cons c (utf8_go errors (len - 1) rest)
          | Utf8Bad len => on_error errors (utf8_go errors (len - 1) rest)
          | Utf8End => on_error errors (inl [])
          end
      end
  end.

Definition utf_8_decode (errors : Errors) (bs : bytes) : Result pystr :=
  utf8_go errors 0 (List.map Byte.to_N bs).

(** A double-byte Chinese codec over a code table: ASCII bytes stand for
    themselves, any other byte opens a pair. *)
Fixpoint dbcs_decode (table : N -> N -> option N) (errors : Errors)
  (bs : list N) : Result pystr :=
  match bs with
  | [] => inl []
  | c :: rest =>
      if (c <? 0x80)%N then ok_cons c (dbcs_decode table errors rest)
      else
        match rest with
        | [] => on_error errors (inl [])
        | c2 :: rest2 =>
            match table c c2 with
            | Some decoded => ok_cons decoded (dbcs_decode table errors rest2)
            | None => on_error errors (dbcs_decode table errors rest)
            end
        end
  end.

(** D6D0 and CEC4 are U+4E2D and U+6587 in GB2312 and in GBK; 8140 is
    U+4E02 in GBK and lies outside GB2312. *)
Definition gb2312_table (c c2 : N) : option N :=
  if ((c =? 0xD6) && (c2 =? 0xD0))%N then Some 0x4E2D%N
  else if ((c =? 0xCE) && (c2 =? 0xC4))%N then Some 0x6587%N
  else None.

Definition gbk_table (c c2 : N) : option N :=
  if ((c =? 0x81) && (c2 =? 0x40))%N then Some 0x4E02%N
  else gb2312_table c c2.

Inductive Codec := ascii | latin_1 | utf_8 | gbk | gb2312 | gb18030.

(** The name as the registry looks it up: lower case, with hyphens and
    spaces turned into underscores. *)
Definition normalize_encoding (name : pystr) : pystr :=
  List.map (fun c => if ((c =? 45) || (c =? 32))%N then 95%N else c) (lower name).

Definition lookup (name : pystr) : option Codec :=
  let n := normalize_encoding name in
  if existsb (str_eqb n) (List.map lit ["ascii"; "us_ascii"]%string)
  then Some ascii
  else if existsb (str_eqb n)
            (List.map lit ["latin_1"; "latin1"; "iso_8859_1"; "iso8859_1"]%string)
  then Some latin_1
  else if existsb (str_eqb n) (List.map lit ["utf_8"; "utf8"]%string)
  then Some utf_8
  else if existsb (str_eqb n) (List.map lit ["gbk"; "cp936"]%string)
  then Some gbk
  else if str_eqb n (lit "gb2312") then Some gb2312
  else if str_eqb n (lit "gb18030") then Some gb18030
  else None.

(** [content.decode(encoding, errors)].  Empty input decodes to the empty
    string before the codec is looked up. *)
Definition py_decode (name : pystr) (errors : Errors) (bs : bytes)
  : Result pystr :=
  match bs with
  | [] => inl []
  | _ =>
      match lookup name with
      | None => inr LookupError
      | Some ascii => ascii_decode errors bs
      | Some latin_1 => latin_1_decode bs
      | Some utf_8 => utf_8_decode errors bs
      | Some gb2312 => dbcs_decode gb2312_table errors (List.map Byte.to_N bs)
      | Some gbk | Some gb18030 =>
          dbcs_decode gbk_table errors (List.map Byte.to_N bs)
      end
  end.

(** [response.text] of requests for a response with a declared encoding:
    the content decoded with it and [errors="replace"], and with the
    default encoding when the name is unknown. *)
Definition requests_text (response : RawResponse) : Result pystr :=
  match content response with
  | [] => inl []
  | _ =>
      match py_decode (default [] (encoding response)) Replace
                      (content response) with
      | inr LookupError => py_decode (lit "utf-8") Replace (content response)
      | r => r
      end
  end.

(** A detector is a parameter of the examples.  On the few bytes of the
    examples the detection is not confident: the detector that is never
    sure stands for it. *)
Definition detect_unsure (_ : bytes) : Detected :=
  {| det_encoding := None; det_confidence := 0%float |}.

Definition libraries (detect : bytes -> Detected) : Libraries :=
  {| decode := py_decode;
     response_text := requests_text;
     chardet_detect := detect |}.

(** The netloc checks on the examples, whose locations are plain ASCII
    host names: nothing is rejected. *)
Definition netloc_checks : NetlocChecks :=
  {| check_bracketed_netloc := fun _ => true;
     checknetloc_nfkc := fun _ => true |}.

End CPython.

(** ** The checks in a row *)

(** What [main] prints once the page is parsed: the visibility report,
    whether the hint on doubtful results follows it, and the results of
    the five field checks in the order of the calls.  [check_canonical] is
    the last call; [None] in its place stands for the [ValueError] that
    ends the run there. *)
Record Analysis := {
  an_visibility : VisibilityReport * bool;
  an_hint : bool;
  an_title : TitleFinding * bool;
  an_description : MetaFinding * bool;
  an_h1 : H1Report * bool;
  an_images : ImageReport * bool;
  an_canonical : option (CanonicalFinding * bool);
  an_finished : bool   (* the closing banner is printed *)
}.

Definition run_checks (K : NetlocChecks) (soup : Ref) (url : pystr)
  : M Analysis :=
  is_content_visible <- check_initial_content soup ;;
  doc <- read soup ;;
  let title := check_title doc in
  doc <- read soup ;;
  let description := check_meta_description doc in
  doc <- read soup ;;
  let h1 := check_h1 doc in
  doc <- read soup ;;
  let images := check_image_alt doc in
  doc <- read soup ;;
  let canonical := check_canonical K doc url in
  ret {| an_visibility := is_content_visible;
         an_hint := negb is_content_visible.2;
         an_title := title;
         an_description := description;
         an_h1 := h1;
         an_images := images;
         an_canonical := canonical;
         an_finished := match canonical with Some _ => true | None => false end |}.

(** ** Tags, seen without their contents *)

(** The identity, the name and the attributes of a tag: what the
    selectors and the names of [find_all] look at. *)
Definition shallow (n : Node) : option (nat * pystr * list (pystr * pystr)) :=
  match n with
  | Text _ _ => None
  | Elem i nm a _ => Some (i, nm, a)
  end.

(** The document holds nothing, or one tag that looks like [b]. *)
Definition holds_at_most (b d : Node) : Prop :=
  is_tag d = true
  /\ (children_of d = []
      \/ exists b', children_of d = [b'] /\ shallow b' = shallow b).

(** ** Urls, piece by piece

    The cleaning of [urlsplit] after its left strip, and the cut of
    [_splitnetloc] written on the characters instead of the indices: the
    statements on urls compare the code with them. *)

Definition clean_tail (r : pystr) : pystr :=
  fold_left (fun u b => remove_char b u) [9; 13; 10]%N r.

(** A string that [urlsplit] takes for a scheme when a colon follows it:
    a letter first, then letters, digits and [+-.]. *)
Definition is_scheme (scheme : pystr) : bool :=
  match scheme with
  | c :: _ => is_ascii_alpha c && forallb is_scheme_char scheme
  | [] => false
  end.

(** One of the characters [/?#] that end the location. *)
Definition is_delim (c : N) : bool :=
  (ch "/" =? c)%N || (ch "?" =? c)%N || (ch "#" =? c)%N.

Fixpoint undelimited (s : pystr) : pystr :=
  match s with
  | [] => []
  | x :: s' => if is_delim x then [] else x :: undelimited s'
  end.

Fixpoint from_delim (s : pystr) : pystr :=
  match s with
  | [] => []
  | x :: s' => if is_delim x then s else from_delim s'
  end.

(** ** Example pages *)

Section Examples.
Local Open Scope string_scope.

Definition tag (i : nat) (name : string) (attrs : list (string * pystr))
  (contents : list Node) : Node :=
  Elem i (lit name) (List.map (fun kv => (lit kv.1, kv.2)) attrs) contents.

Definition page (head body : list Node) : Node :=
  BeautifulSoup [tag 1 "html" [] [tag 2 "head" [] head; tag 3 "body" [] body]].

Definition page_with_title (t : pystr) : Node :=
  page [tag 10 "title" [] [Text NavigableString t]] [].

(** A title tag that holds a string and, after it, a script. *)
Definition title_with_script (t script : pystr) : Node :=
  tag 10 "title" [] [Text NavigableString t;
                     tag 11 "script" [] [Text Script script]].

(** Thirty CJK characters, and the first twenty-five of them. *)
Definition cjk_title_30 : pystr :=
  [0x8fd9; 0x662f; 0x4e00; 0x4e2a; 0x5f88; 0x957f; 0x7684; 0x4e2d; 0x6587;
   0x6807; 0x9898; 0x7528; 0x6765; 0x6d4b; 0x8bd5; 0x957f; 0x5ea6; 0x5224;
   0x65ad; 0x662f; 0x5426; 0x6b63; 0x786e; 0x9002; 0x4e2d; 0x5440; 0x4e00;
   0x4e8c; 0x4e09; 0x56db]%N.

Definition cjk_title_25 : pystr := List.firstn 25 cjk_title_30.

Definition latin_title_68 : pystr :=
  lit "Simple SEO Validator: titles, descriptions, headings and image texts".

(** The title "Short" after a line break and thirty spaces, with a tab
    and a line break after it. *)
Definition padded_short : pystr :=
  (10%N :: repeat 32%N 30 ++ lit "Short" ++ [9; 10]%N)%list.

(** The title of 68 characters between two line breaks and four spaces. *)
Definition padded_title_68 : pystr :=
  ([10; 32; 32]%N ++ latin_title_68 ++ [32; 32; 10]%N)%list.

Definition page_with_description (d : pystr) : Node :=
  page [tag 10 "meta" [("name", lit "description"); ("content", d)] []] [].

(** A page whose canonical link is [href]. *)
Definition page_with_canonical (href : pystr) : Node :=
  page [tag 10 "link" [("rel", lit "canonical"); ("href", href)] []] [].

(** One H1 that shares nothing with the title; one empty H1. *)
Definition page_unrelated_h1 : Node :=
  page [tag 10 "title" [] [Text NavigableString (lit "Cheap flights to Lisbon")]]
       [tag 11 "h1" [] [Text NavigableString (lit "Welcome")]].

Definition page_empty_h1 : Node :=
  page [tag 10 "title" [] [Text NavigableString (lit "Cheap flights to Lisbon")]]
       [tag 11 "h1" [] []].

(** Two H1, the first one equal to the title. *)
Definition page_two_h1 : Node :=
  page [tag 10 "title" [] [Text NavigableString (lit "Welcome")]]
       [tag 11 "h1" [] [Text NavigableString (lit "Welcome")];
        tag 12 "h1" [] [Text NavigableString (lit "Welcome again")]].

(** Five images, the third without alt. *)
Definition page_five_images : Node :=
  page []
       [tag 11 "img" [("src", lit "a.png"); ("alt", lit "a")] [];
        tag 12 "img" [("src", lit "b.png"); ("alt", lit "b")] [];
        tag 13 "img" [("src", lit "c.png")] [];
        tag 14 "img" [("src", lit "d.png"); ("alt", lit "d")] [];
        tag 15 "img" [("src", lit "e.png"); ("alt", lit "e")] []].

(** A body that holds a navigation bar and a script, with a line break
    between them, and nothing else. *)
Definition nav_script_body : Node :=
  tag 3 "body" []
      [tag 11 "nav" []
         [tag 12 "a" [("href", lit "/")] [Text NavigableString (lit "Home")];
          tag 13 "a" [("href", lit "/cart")] [Text NavigableString (lit "Cart")]];
       Text NavigableString [10; 32; 32]%N;
       tag 14 "script" [] [Text Script (lit "render(document.body);")]].

Definition page_nav_script : Node :=
  page [tag 10 "title" [] [Text NavigableString (lit "Shop")]]
       (children_of nav_script_body).

(** A body whose 300 characters lie in a template. *)
Definition template_body : Node :=
  tag 3 "body" []
      [tag 11 "template" []
         [tag 12 "div" [] [Text TemplateString (repeat 97%N 300)]]].

Definition page_template : Node :=
  page [tag 10 "title" [] [Text NavigableString (lit "Shop")]]
       (children_of template_body).

(** A body that lies inside a template, with a paragraph of 300
    characters: in the page its string is a template string. *)
Definition body_in_template : Node :=
  tag 3 "body" [] [tag 4 "p" [] [Text TemplateString (repeat 97%N 300)]].

Definition page_body_in_template : Node :=
  BeautifulSoup [tag 1 "html" [] [tag 2 "template" [] [body_in_template]]].

(** A paragraph of 40 characters that holds a script of 40 more, a
    paragraph of 60 characters and 100 characters in a division. *)
Definition script_paragraph_body : Node :=
  tag 3 "body" []
      [tag 11 "p" []
         [Text NavigableString (repeat 97%N 40);
          tag 12 "script" [] [Text Script (repeat 98%N 40)]];
       tag 13 "p" [] [Text NavigableString (repeat 99%N 60)];
       tag 14 "div" [] [Text NavigableString (repeat 100%N 100)]].

Definition page_script_paragraph : Node :=
  page [tag 10 "title" [] [Text NavigableString (lit "Shop")]]
       (children_of script_paragraph_body).

(** Two long paragraphs inside a header, and 120 characters of text in a
    division after it. *)
Definition header_paragraphs_body : Node :=
  tag 3 "body" []
      [tag 11 "header" []
         [tag 12 "p" [] [Text NavigableString (repeat 97%N 60)];
          tag 13 "p" [] [Text NavigableString (repeat 98%N 60)]];
       tag 14 "div" [] [Text NavigableString (repeat 99%N 120)]].

Definition page_header_paragraphs : Node :=
  page [tag 10 "title" [] [Text NavigableString (lit "Shop")]]
       (children_of header_paragraphs_body).

(** A page whose body carries the class [menu] and holds 400 characters
    of text in two paragraphs. *)
Definition menu_body : Node :=
  tag 3 "body" [("class", lit "home menu")]
      [tag 11 "p" [] [Text NavigableString (repeat 97%N 200)];
       tag 12 "p" [] [Text NavigableString (repeat 98%N 200)]].

Definition page_menu_body : Node :=
  BeautifulSoup
    [tag 1 "html" []
       [tag 2 "head" [] [tag 10 "title" [] [Text NavigableString (lit "Shop")]];
        menu_body]].

(** [b"..."] for an ASCII literal. *)
Definition bytes_of (s : string) : bytes :=
  List.map byte_of_ascii (list_ascii_of_string s).

(** A page served with a charset the interpreter has no codec for. *)
Definition response_unknown_charset : RawResponse :=
  {| content := bytes_of "<p>ok</p>";
     encoding := Some (lit "utf8mb4");
     url := lit "http://example.com/" |}.

(** A page declared as ASCII that holds the byte FF. *)
Definition response_bad_ascii : RawResponse :=
  {| content := (bytes_of "<p>" ++ [xff] ++ bytes_of "</p>")%list;
     encoding := Some (lit "ascii");
     url := lit "http://example.com/" |}.

(** A GBK page from a [.cn] site, served without a charset: U+4E2D U+6587
    U+4E02 U+4E2D U+6587.  The third character is outside GB2312. *)
Definition response_gbk : RawResponse :=
  {| content := [xd6; xd0; xce; xc4; x81; x40; xd6; xd0; xce; xc4];
     encoding := None;
     url := lit "http://example.cn/" |}.

End Examples.

(** * Properties *)

(** ** Arithmetic on lengths *)

Ltac bool_arith :=
  repeat match goal with
         | |- context [?a <? ?b] => destruct (Nat.ltb_spec a b)
         | |- context [?a <=? ?b] => destruct (Nat.leb_spec a b)
         | |- context [?a =? ?b] => destruct (Nat.eqb_spec a b)
         end;
  simpl; try lia; try congruence; auto.

(** ** Stripping *)

Lemma lstrip_by_all p s :
  Forall (fun c => p c = true) s -> lstrip_by p s = [].
Proof. induction 1 as [|c s Hc _ IH]; cbn; [reflexivity|]. rewrite Hc. exact IH. Qed.

Lemma lstrip_by_app_all p l s :
  Forall (fun c => p c = true) l -> lstrip_by p (l ++ s) = lstrip_by p s.
Proof. induction 1 as [|c l Hc _ IH]; cbn; [reflexivity|]. rewrite Hc. exact IH. Qed.

Lemma lstrip_by_length p s : length (lstrip_by p s) <= length s.
Proof.
  induction s as [|c s IH]; cbn; [lia|]. destruct (p c); cbn; lia.
Qed.

Lemma lstrip_by_same_length p s :
  length (lstrip_by p s) = length s -> lstrip_by p s = s.
Proof.
  destruct s as [|c s]; cbn; [reflexivity|].
  destruct (p c); [|reflexivity].
  pose proof (lstrip_by_length p s). cbn. lia.
Qed.

Lemma rstrip_by_length p s : length (rstrip_by p s) <= length s.
Proof.
  unfold rstrip_by. rewrite length_rev.
  etrans; [apply lstrip_by_length|]. rewrite length_rev. reflexivity.
Qed.

(** A string that stripping leaves as it is begins and ends with a
    character that is no white space; white space around it is what
    stripping takes away. *)
Lemma strip_fixed core :
  strip core = core ->
  lstrip_by py_isspace core = core /\ rstrip_by py_isspace core = core.
Proof.
  unfold strip. intros E.
  assert (L : lstrip_by py_isspace core = core).
  { apply lstrip_by_same_length.
    pose proof (lstrip_by_length py_isspace core).
    pose proof (rstrip_by_length py_isspace (lstrip_by py_isspace core)) as R.
    rewrite E in R. lia. }
  split; [exact L|]. rewrite L in E. exact E.
Qed.

Lemma strip_padded left core right :
  Forall (fun c => py_isspace c = true) left ->
  Forall (fun c => py_isspace c = true) right ->
  strip core = core ->
  strip (left ++ core ++ right) = core.
Proof.
  intros Hl Hr E. destruct (strip_fixed _ E) as [L R].
  unfold strip. rewrite lstrip_by_app_all by exact Hl.
  destruct core as [|c core'].
  - cbn [app]. rewrite lstrip_by_all by exact Hr. reflexivity.
  - assert (Hc : py_isspace c = false).
    { cbn in L. destruct (py_isspace c); [|reflexivity].
      pose proof (lstrip_by_length py_isspace core') as B.
      rewrite L in B. cbn in B. lia. }
    cbn [app lstrip_by]. rewrite Hc.
    change (c :: core' ++ right) with ((c :: core') ++ right).
    unfold rstrip_by. rewrite rev_app_distr, lstrip_by_app_all.
    + exact R.
    + apply Forall_rev, Hr.
Qed.

(** ** check_title *)

Lemma find_name name doc x :
  find name doc = Some x -> is_tag x = true /\ tag_name x = name.
Proof.
  unfold find, find_by, find_all_by. intros H.
  assert (I : In x (List.filter
                      (fun d => is_tag d && has_name [name] d)
                      (descendants doc))).
  { destruct (List.filter _ _) as [|y l]; [discriminate|].
    injection H as ->. left. reflexivity. }
  apply filter_In in I. destruct I as [_ I].
  apply andb_true_iff in I. destruct I as [T I]. split; [exact T|].
  unfold has_name in I. cbn [existsb] in I. rewrite orb_false_r in I.
  unfold str_eqb in I. apply bool_decide_eq_true in I. exact I.
Qed.

Lemma strings_of_elem types j nm a cs :
  strings_of types (Elem j nm a cs) = List.flat_map (strings_of types) cs.
Proof.
  unfold strings_of. cbn [subtree List.flat_map app].
  induction cs as [|c cs IH]; [reflexivity|].
  cbn [List.flat_map]. rewrite flat_map_app, IH. reflexivity.
Qed.

(** The text of a tag that is no string container. *)
Lemma get_text_strip_plain sep n :
  string_containers (tag_name n) = None ->
  get_text_strip sep n
  = join sep (List.filter nonempty
                (List.map strip (strings_of [NavigableString; CData] n))).
Proof.
  intros C. unfold get_text_strip, stripped_strings, all_strings,
    interesting_string_types. rewrite C. reflexivity.
Qed.

(** The text of a title that holds one string, and possibly tags whose
    strings are no part of its text: the string without the white space
    around it. *)
Lemma title_text_trimmed soup title_tag cls left core right rest :
  find (lit "title") soup = Some title_tag ->
  children_of title_tag = Text cls (left ++ core ++ right) :: rest ->
  class_in [NavigableString; CData] cls = true ->
  Forall (fun n => strings_of [NavigableString; CData] n = []) rest ->
  Forall (fun c => py_isspace c = true) left ->
  Forall (fun c => py_isspace c = true) right ->
  strip core = core ->
  get_text_strip [] title_tag = core.
Proof.
  intros H C K R Hl Hr E. destruct (find_name _ _ _ H) as [T Nm].
  destruct title_tag as [c0 s0|i nm a cs]; [discriminate|].
  cbn [children_of] in C. cbn [tag_name] in Nm. subst nm cs.
  rewrite get_text_strip_plain by reflexivity.
  rewrite strings_of_elem. cbn [List.flat_map].
  assert (Z : List.flat_map (strings_of [NavigableString; CData]) rest = []).
  { clear -R. induction R as [|n rest Hn _ IH]; [reflexivity|].
    cbn [List.flat_map]. rewrite IH, Hn. reflexivity. }
  rewrite Z, app_nil_r. unfold strings_of. cbn [subtree List.flat_map app].
  rewrite K. cbn [app List.map List.filter].
  rewrite (strip_padded _ _ _ Hl Hr E).
  destruct core; reflexivity.
Qed.

Lemma check_title_found soup title_tag :
  find (lit "title") soup = Some title_tag ->
  check_title soup =
    (title_band (title_is_chinese_dominant (get_text_strip [] title_tag))
                (length (get_text_strip [] title_tag)),
     (30 <=? length (get_text_strip [] title_tag))
     && (length (get_text_strip [] title_tag) <=? 70)).
Proof. intros H. unfold check_title. rewrite H. reflexivity. Qed.

Lemma title_is_chinese_dominant_spec (t : pystr) :
  title_is_chinese_dominant t = true <-> length t < 2 * chinese_count t.
Proof. unfold title_is_chinese_dominant. apply Nat.ltb_lt. Qed.

(** C7.  For a page with a title, with [t] the text of the title (for a
    title that holds one string, and possibly tags such as scripts whose
    strings are no text, [t] is that string without the white space
    around it) and CJK dominance meaning that the CJK characters number
    more than half of [t]: a CJK-dominant title is FAIL below 15
    characters, WARN below 30, WARN above 70 and PASS otherwise; any other
    title is FAIL below 30, WARN below 50, WARN above 65 and PASS
    otherwise.  Hence a CJK-dominant title of 30 characters is PASS, and
    the title "Short" is FAIL. *)
Theorem check_title_bands soup title_tag :
  find (lit "title") soup = Some title_tag ->
  let t := get_text_strip [] title_tag in
  let n := length t in
  let st := title_status (check_title soup).1 in
  (forall cls left core right rest,
      children_of title_tag = Text cls (left ++ core ++ right) :: rest ->
      class_in [NavigableString; CData] cls = true ->
      Forall (fun d => strings_of [NavigableString; CData] d = []) rest ->
      Forall (fun c => py_isspace c = true) left ->
      Forall (fun c => py_isspace c = true) right ->
      strip core = core ->
      t = core)
  /\ (title_is_chinese_dominant t = true <-> n < 2 * chinese_count t)
  /\ (title_is_chinese_dominant t = true ->
      (n < 15 -> st = FAIL) /\ (15 <= n < 30 -> st = WARN)
      /\ (70 < n -> st = WARN) /\ (30 <= n <= 70 -> st = PASS))
  /\ (title_is_chinese_dominant t = false ->
      (n < 30 -> st = FAIL) /\ (30 <= n < 50 -> st = WARN)
      /\ (65 < n -> st = WARN) /\ (50 <= n <= 65 -> st = PASS))
  /\ (title_is_chinese_dominant t = true -> n = 30 -> st = PASS)
  /\ (t = lit "Short" -> st = FAIL).
Proof.
  intros H t n st.
  assert (Hst : st = title_status (title_band (title_is_chinese_dominant t) n)).
  { unfold st. rewrite (check_title_found _ _ H). reflexivity. }
  split.
  { intros cls left core right rest. apply title_text_trimmed with (soup := soup).
    exact H. }
  split; [apply title_is_chinese_dominant_spec|].
  split; [|split; [|split]].
  - intros Hd. rewrite Hst, Hd. unfold title_band.
    repeat split; intros; bool_arith.
  - intros Hd. rewrite Hst, Hd. unfold title_band.
    repeat split; intros; bool_arith.
  - intros Hd Hn. rewrite Hst, Hd, Hn. reflexivity.
  - intros Ht. rewrite Hst. unfold n. rewrite Ht. reflexivity.
Qed.

Lemma check_title_bands_witness :
  check_title (page_with_title cjk_title_30) = (TitleLengthOk, true)
  /\ title_status (check_title (page_with_title cjk_title_30)).1 = PASS
  /\ get_text_strip []
       (title_with_script padded_short
          (lit "document.title += location.host"))
     = lit "Short"
  /\ title_status
       (check_title
          (page [title_with_script padded_short
                   (lit "document.title += location.host")] [])).1
     = FAIL.
Proof.
  split; [reflexivity|]. split.
  - apply (check_title_bands (page_with_title cjk_title_30)
             (tag 10 "title" [] [Text NavigableString cjk_title_30]) eq_refl);
      reflexivity.
  - pose proof (check_title_bands
                  (page [title_with_script padded_short
                           (lit "document.title += location.host")] [])
                  (title_with_script padded_short
                     (lit "document.title += location.host")) eq_refl) as W.
    cbv zeta in W. destruct W as (P & _ & _ & _ & _ & S).
    assert (E : get_text_strip []
                  (title_with_script padded_short
                     (lit "document.title += location.host"))
                = lit "Short").
    { apply (P NavigableString (10%N :: repeat 32%N 30) (lit "Short")
               [9; 10]%N
               [tag 11 "script" []
                  [Text Script (lit "document.title += location.host")]]).
      - reflexivity.
      - reflexivity.
      - repeat constructor.
      - repeat constructor.
      - repeat constructor.
      - reflexivity. }
    split; [exact E|]. apply S, E.
Defined.

(** C10.  For a page with a title, the value [check_title] returns is true
    exactly when the length of the text of the title lies in 30..70,
    whatever the dominant language; for a title that holds one string, and
    possibly tags such as scripts whose strings are no text, that is the
    length of the string without the white space around it.  A
    CJK-dominant title of 25 characters gets the slightly-short warning
    (not FAIL) and the value false; a title of 68 characters that is not
    CJK-dominant gets the too-long warning and the value true. *)
Theorem check_title_verdict soup title_tag :
  find (lit "title") soup = Some title_tag ->
  let t := get_text_strip [] title_tag in
  let n := length t in
  (forall cls left core right rest,
      children_of title_tag = Text cls (left ++ core ++ right) :: rest ->
      class_in [NavigableString; CData] cls = true ->
      Forall (fun d => strings_of [NavigableString; CData] d = []) rest ->
      Forall (fun c => py_isspace c = true) left ->
      Forall (fun c => py_isspace c = true) right ->
      strip core = core ->
      n = length core)
  /\ ((check_title soup).2 = true <-> 30 <= n <= 70)
  /\ (title_is_chinese_dominant t = true -> n = 25 ->
      check_title soup = (TitleSlightlyShort, false)
      /\ title_status (check_title soup).1 = WARN)
  /\ (title_is_chinese_dominant t = false -> n = 68 ->
      check_title soup = (TitleTooLong, true)
      /\ title_status (check_title soup).1 = WARN).
Proof.
  intros H t n. rewrite (check_title_found _ _ H). fold t. fold n.
  split.
  { intros cls left core right rest C K R Hl Hr E. unfold n, t.
    rewrite (title_text_trimmed _ _ _ _ _ _ _ H C K R Hl Hr E). reflexivity. }
  split; [|split].
  - cbn [snd]. rewrite andb_true_iff, !Nat.leb_le. reflexivity.
  - intros Hd Hn. rewrite Hd, Hn. split; reflexivity.
  - intros Hd Hn. rewrite Hd, Hn. split; reflexivity.
Qed.

Lemma check_title_verdict_witness :
  check_title (page_with_title cjk_title_25) = (TitleSlightlyShort, false)
  /\ length padded_title_68 = 74
  /\ check_title
       (page [title_with_script padded_title_68
                (lit "document.title += location.host")] [])
     = (TitleTooLong, true).
Proof.
  split; [|split; [reflexivity|]].
  - apply (check_title_verdict (page_with_title cjk_title_25)
             (tag 10 "title" [] [Text NavigableString cjk_title_25]) eq_refl);
      reflexivity.
  - pose proof (check_title_verdict
                  (page [title_with_script padded_title_68
                           (lit "document.title += location.host")] [])
                  (title_with_script padded_title_68
                     (lit "document.title += location.host")) eq_refl) as W.
    cbv zeta in W. destruct W as (P & _ & _ & L).
    apply L; [reflexivity|].
    apply (P NavigableString [10; 32; 32]%N latin_title_68 [32; 32; 10]%N
             [tag 11 "script" []
                [Text Script (lit "document.title += location.host")]]).
    + reflexivity.
    + reflexivity.
    + repeat constructor.
    + repeat constructor.
    + repeat constructor.
    + reflexivity.
Defined.

(** ** check_h1 *)

(** C5.  The value [check_h1] returns is true exactly when the page has
    one H1, so two pages with the same number of H1 get the same value,
    whatever their title and whatever the text of each H1: one H1 with a
    weak relation to the title, or an empty one, still gives true; two H1,
    the first equal to the title, give false. *)
Theorem check_h1_verdict :
  (forall soup,
      (check_h1 soup).2 = true <-> length (find_all [lit "h1"] soup) = 1)
  /\ (forall soup1 soup2,
         length (find_all [lit "h1"] soup1) = length (find_all [lit "h1"] soup2) ->
         (check_h1 soup1).2 = (check_h1 soup2).2)
  /\ check_h1 page_unrelated_h1 =
       ({| h1_missing := false; h1_states := [H1Short]; h1_multiple := false;
           h1_relation := Some RelWeak |}, true)
  /\ check_h1 page_empty_h1 =
       ({| h1_missing := false; h1_states := [H1Empty]; h1_multiple := false;
           h1_relation := Some RelContained |}, true)
  /\ check_h1 page_two_h1 =
       ({| h1_missing := false; h1_states := [H1Short; H1LengthOk];
           h1_multiple := true; h1_relation := Some RelIdentical |}, false).
Proof.
  assert (V : forall soup,
             (check_h1 soup).2 = (length (find_all [lit "h1"] soup) =? 1)).
  { intros soup. unfold check_h1.
    destruct (Nat.eqb_spec (length (find_all [lit "h1"] soup)) 0) as [E|E].
    - rewrite E. reflexivity.
    - reflexivity. }
  split; [|split; [|repeat split]].
  - intros soup. rewrite V. apply Nat.eqb_eq.
  - intros soup1 soup2 E. rewrite !V, E. reflexivity.
Qed.

(** ** check_meta_description *)

Lemma desc_is_chinese_dominant_spec (d : pystr) :
  desc_is_chinese_dominant d = true <-> length d < 3 * chinese_count d.
Proof. unfold desc_is_chinese_dominant. apply Nat.ltb_lt. Qed.

(** C6, as stated, fails on a description padded with white space: a
    content attribute of 150 spaces is not empty, is not CJK-dominant and
    has a length in 140..180, and the returned value is false. *)
Lemma check_meta_description_padding :
  let d := repeat 32%N 150 in
  let soup := page_with_description d in
  exists meta_desc,
    find_by is_meta_description soup = Some meta_desc
    /\ get_attr meta_desc (lit "content") = Some d
    /\ d <> [] /\ length d = 150
    /\ desc_is_chinese_dominant d = false
    /\ check_meta_description soup = (MetaEmpty, false).
Proof.
  eexists. split; [reflexivity|].
  split; [reflexivity|]. split; [discriminate|].
  repeat split.
Qed.

(** C6, amended.  Without a meta description tag the returned value is
    false (finding: missing, FAIL), whatever the page is written in.  With
    one, let [d] be its content attribute stripped of surrounding white
    space: when [d] is empty the value is false; otherwise the value is
    true exactly when the length of [d] lies in 100..200 for a
    CJK-dominant [d] (its CJK characters number more than a third of its
    length) and in 140..180 for any other. *)
Theorem check_meta_description_verdict soup :
  (find_by is_meta_description soup = None ->
   check_meta_description soup = (MetaMissing, false)
   /\ meta_status MetaMissing = FAIL)
  /\ (forall meta_desc,
         find_by is_meta_description soup = Some meta_desc ->
         let d := strip (get_attr_default meta_desc (lit "content")) in
         (d = [] -> check_meta_description soup = (MetaEmpty, false))
         /\ (d <> [] ->
             ((check_meta_description soup).2 = true <->
              if desc_is_chinese_dominant d
              then 100 <= length d <= 200
              else 140 <= length d <= 180))
         /\ (desc_is_chinese_dominant d = true <->
             length d < 3 * chinese_count d)).
Proof.
  split.
  - intros H. unfold check_meta_description. rewrite H. split; reflexivity.
  - intros meta_desc H d. unfold check_meta_description. rewrite H. fold d.
    split; [|split].
    + intros E. rewrite E. reflexivity.
    + intros E. destruct d as [|c d'] eqn:Ed; [congruence|].
      cbn [nonempty negb snd]. rewrite <- Ed.
      destruct (desc_is_chinese_dominant d);
        rewrite andb_true_iff, !Nat.leb_le; reflexivity.
    + apply desc_is_chinese_dominant_spec.
Qed.

Lemma check_meta_description_verdict_witness :
  (check_meta_description (page_with_description (repeat 97%N 150))).2 = true.
Proof.
  destruct (check_meta_description_verdict
              (page_with_description (repeat 97%N 150))) as [_ V].
  destruct (V (tag 10 "meta" [("name"%string, lit "description");
                              ("content"%string, repeat 97%N 150)] [])
              eq_refl) as (_ & I & _).
  apply I; [discriminate|]. vm_compute. lia.
Defined.

(** ** check_image_alt *)

Lemma check_image_alt_some soup :
  0 < length (find_all [lit "img"] soup) ->
  let total := length (find_all [lit "img"] soup) in
  let missing := length (List.filter lacks_alt (find_all [lit "img"] soup)) in
  (check_image_alt soup).2 = (missing =? 0)
  /\ img_finding (check_image_alt soup).1 = image_band missing total.
Proof.
  intros H total missing. unfold check_image_alt. fold total. fold missing.
  destruct (Nat.eqb_spec total 0) as [E|E]; [unfold total in E; lia|].
  destruct (Nat.eqb_spec missing 0) as [E'|E'].
  - rewrite E'. split; reflexivity.
  - split; reflexivity.
Qed.

Lemma lacks_alt_false (img : Node) :
  lacks_alt img = false <->
  exists v, get_attr img (lit "alt") = Some v /\ v <> [].
Proof.
  unfold lacks_alt. destruct (get_attr img (lit "alt")) as [v|].
  - destruct v as [|c v]; simpl; split.
    + discriminate.
    + intros (v' & E & N). injection E as <-. congruence.
    + intros _. eexists. split; [reflexivity|discriminate].
    + reflexivity.
  - split; [discriminate|]. intros (v & E & _). discriminate.
Qed.

Lemma filter_length_zero {A} (p : A -> bool) (l : list A) :
  length (List.filter p l) = 0 <-> Forall (fun x => p x = false) l.
Proof.
  induction l as [|a l IH]; simpl.
  - split; [constructor|reflexivity].
  - destruct (p a) eqn:E; simpl.
    + split; [discriminate|]. intros F. inversion F; congruence.
    + rewrite IH. split.
      * intros F. constructor; assumption.
      * intros F. inversion F; assumption.
Qed.

(** On pages of up to a hundred images the two tests on the percentage
    come out as in exact arithmetic. *)
Lemma missing_percentage_exact :
  forallb (fun total =>
    forallb (fun missing =>
      Bool.eqb (missing_percentage missing total <? 20)%float
               (100 * missing <? 20 * total)
      && Bool.eqb (missing_percentage missing total <? 50)%float
                  (100 * missing <? 50 * total))
      (seq 0 (S total)))
    (seq 1 100) = true.
Proof. vm_compute. reflexivity. Qed.

(** C9.  A page without images gets the information line (INFO) and the
    value true.  On a page with images the value is true exactly when no
    image lacks a non-empty alt attribute; the few-missing warning is given
    exactly when some image lacks it and the percentage, as the script
    computes it, is below 20; with one image in five lacking it the
    percentage is 20, which is not below 20, and the finding is the
    many-missing warning. *)
Theorem check_image_alt_bands soup :
  let all_images := find_all [lit "img"] soup in
  let total := length all_images in
  let missing := length (List.filter lacks_alt all_images) in
  (total = 0 ->
   check_image_alt soup = ({| img_finding := ImgNone; img_examples := [] |}, true)
   /\ image_status ImgNone = INFO)
  /\ (0 < total ->
      ((check_image_alt soup).2 = true <->
       Forall (fun img => exists v, get_attr img (lit "alt") = Some v /\ v <> [])
              all_images))
  /\ (0 < total ->
      (img_finding (check_image_alt soup).1 = ImgFewMissing <->
       missing <> 0 /\ (missing_percentage missing total <? 20)%float = true))
  /\ (total = 5 -> missing = 1 ->
      missing_percentage missing total = 20%float
      /\ img_finding (check_image_alt soup).1 = ImgManyMissing
      /\ image_status ImgManyMissing = WARN
      /\ (check_image_alt soup).2 = false).
Proof.
  intros all_images total missing. split; [|split; [|split]].
  - intros E. unfold check_image_alt. fold all_images. fold total.
    rewrite E. split; reflexivity.
  - intros H. destruct (check_image_alt_some soup H) as [V _].
    rewrite V. fold all_images. rewrite Nat.eqb_eq, filter_length_zero.
    rewrite !Forall_forall. split; intros F img Hin.
    + apply lacks_alt_false, F, Hin.
    + apply lacks_alt_false, F, Hin.
  - intros H. destruct (check_image_alt_some soup H) as [_ B].
    rewrite B. fold all_images. fold total. fold missing.
    unfold image_band.
    destruct (Nat.eqb_spec missing 0) as [E|E].
    + split; [discriminate|]. intros [N _]. congruence.
    + destruct (missing_percentage missing total <? 20)%float.
      * split; auto.
      * destruct (missing_percentage missing total <? 50)%float;
          (split; [discriminate|]; intros [_ F]; discriminate).
  - intros Et Em.
    assert (H : 0 < length (find_all [lit "img"] soup))
      by (fold all_images; fold total; lia).
    destruct (check_image_alt_some soup H) as [V B].
    rewrite V, B. fold all_images. fold total. fold missing.
    rewrite Et, Em. repeat split.
Qed.

Lemma check_image_alt_bands_witness :
  check_image_alt (page [] []) =
    ({| img_finding := ImgNone; img_examples := [] |}, true)
  /\ img_finding (check_image_alt page_five_images).1 = ImgManyMissing
  /\ (check_image_alt page_five_images).2 = false.
Proof.
  split; [|split].
  - apply (check_image_alt_bands (page [] [])). reflexivity.
  - apply (check_image_alt_bands page_five_images); reflexivity.
  - apply (check_image_alt_bands page_five_images); reflexivity.
Defined.

(** ** Strings without a given character *)

Lemma free_lstrip_by p q s : free p s -> free p (lstrip_by q s).
Proof.
  induction 1 as [|x s Hx Hs IH]; simpl; [constructor|].
  destruct (q x); [assumption|constructor; assumption].
Qed.

Lemma free_rstrip_by p q s : free p s -> free p (rstrip_by q s).
Proof.
  intros H. unfold rstrip_by. apply Forall_rev, free_lstrip_by, Forall_rev, H.
Qed.

Lemma free_filter p q s : free p s -> free p (List.filter q s).
Proof.
  induction 1 as [|x s Hx Hs IH]; simpl; [constructor|].
  destruct (q x); [constructor|]; assumption.
Qed.

Lemma free_remove_char c s : free (N.eqb c) (remove_char c s).
Proof.
  unfold remove_char. induction s as [|x s IH]; simpl; [constructor|].
  destruct (c =? x)%N eqn:E; simpl; [assumption|].
  constructor; assumption.
Qed.

Lemma filter_free_id p s :
  free p s -> List.filter (fun x => negb (p x)) s = s.
Proof.
  induction 1 as [|x s Hx Hs IH]; simpl; [reflexivity|].
  rewrite Hx. simpl. rewrite IH. reflexivity.
Qed.

Lemma str_find_none c s : str_find c s = None <-> free (N.eqb c) s.
Proof.
  induction s as [|x s IH]; simpl.
  - split; [constructor|reflexivity].
  - destruct (c =? x)%N eqn:E.
    + split; [discriminate|]. intros F. inversion F; congruence.
    + destruct (str_find c s) as [i|]; simpl.
      * split; [discriminate|]. intros F. inversion F as [|? ? ? F'].
        apply IH in F'. discriminate.
      * split; [|reflexivity]. intros _. constructor; [assumption|].
        apply IH. reflexivity.
Qed.

Lemma str_find_take c s i k :
  str_find c s = Some i -> k <= i -> free (N.eqb c) (List.firstn k s).
Proof.
  revert i k. induction s as [|x s IH]; intros i k; simpl; [discriminate|].
  destruct (c =? x)%N eqn:E.
  - intros [= <-] Hk. assert (k = 0) as -> by lia. constructor.
  - destruct (str_find c s) as [j|] eqn:F; simpl; [|discriminate].
    intros [= <-] Hk. destruct k as [|k]; [constructor|].
    simpl. constructor; [assumption|]. apply (IH j); [reflexivity|lia].
Qed.

Lemma free_take_any c s k :
  (forall i, str_find c s = Some i -> k <= i) -> free (N.eqb c) (List.firstn k s).
Proof.
  intros H. destruct (str_find c s) as [i|] eqn:F.
  - apply (str_find_take c s i); [assumption|]. apply H. reflexivity.
  - apply Forall_take. apply str_find_none. assumption.
Qed.

Lemma has_char_false c s : has_char c s = false <-> free (N.eqb c) s.
Proof.
  unfold has_char, free. induction s as [|x s IH]; simpl.
  - split; [constructor|reflexivity].
  - rewrite orb_false_iff, IH. split.
    + intros [? ?]. constructor; assumption.
    + intros F. inversion F. split; assumption.
Qed.

Lemma cut_at_free c s : free (N.eqb c) (cut_at c s).
Proof.
  unfold cut_at. destruct (str_find c s) as [i|] eqn:F.
  - apply (str_find_take c s i); [assumption|lia].
  - apply str_find_none. assumption.
Qed.

Lemma free_cut_at p c s : free p s -> free p (cut_at c s).
Proof.
  intros H. unfold cut_at. destruct (str_find c s); [apply Forall_take|]; exact H.
Qed.

Lemma cut_at_id c s : free (N.eqb c) s -> cut_at c s = s.
Proof.
  intros H. unfold cut_at. apply str_find_none in H. rewrite H. reflexivity.
Qed.

(** What stripping leaves does not begin with a stripped character. *)
Lemma lstrip_by_head p s :
  match lstrip_by p s with
  | c :: _ => p c = false
  | [] => True
  end.
Proof.
  induction s as [|x s IH]; simpl; [exact I|].
  destruct (p x) eqn:E; [exact IH|exact E].
Qed.

Lemma lstrip_by_id p s :
  match s with c :: _ => p c = false | [] => True end -> lstrip_by p s = s.
Proof. destruct s as [|c s]; simpl; [reflexivity|]. intros ->. reflexivity. Qed.

Lemma rstrip_by_app_id p a b :
  free p a -> rstrip_by p (a ++ rstrip_by p b) = a ++ rstrip_by p b.
Proof.
  intros Ha. unfold rstrip_by at 1. f_equal.
  rewrite <- (rev_involutive (a ++ rstrip_by p b)) at 2. f_equal.
  apply lstrip_by_id. rewrite rev_app_distr. unfold rstrip_by.
  rewrite rev_involutive.
  pose proof (lstrip_by_head p (rev b)) as Hb.
  destruct (lstrip_by p (rev b)) as [|c l]; simpl.
  - apply Forall_rev in Ha. destruct (rev a) as [|c l]; [exact I|].
    inversion Ha; assumption.
  - exact Hb.
Qed.

(** ** urlparse and normalize_url *)

Lemma clean_url_free u :
  free (N.eqb 9) (clean_url u) /\ free (N.eqb 13) (clean_url u)
  /\ free (N.eqb 10) (clean_url u).
Proof.
  unfold clean_url. cbn [fold_left]. repeat split.
  - apply free_filter, free_filter, free_remove_char.
  - apply free_filter, free_remove_char.
  - apply free_remove_char.
Qed.

Lemma split_scheme_free p url : free p url -> free p (split_scheme url).2.
Proof.
  intros H. unfold split_scheme.
  destruct (str_find (ch ":") url) as [[|i']|]; destruct url as [|c0 url'];
    try exact H.
  destruct (is_ascii_alpha c0 && _); [|exact H].
  apply Forall_drop, H.
Qed.

Lemma splitnetloc_free url :
  let netloc := (splitnetloc url 2).1 in
  free (N.eqb (ch "/")) netloc /\ free (N.eqb (ch "?")) netloc
  /\ free (N.eqb (ch "#")) netloc.
Proof.
  unfold splitnetloc, slice, str_find_from. cbn [fold_left fst].
  destruct (str_find (ch "/") (List.skipn 2 url)) as [a|] eqn:Ea;
    destruct (str_find (ch "?") (List.skipn 2 url)) as [b|] eqn:Eb;
    destruct (str_find (ch "#") (List.skipn 2 url)) as [c|] eqn:Ec;
    cbn [option_map];
    (split; [|split]); apply free_take_any; intros i Hi;
    rewrite ?Ea, ?Eb, ?Ec in Hi; try discriminate;
    injection Hi as <-; lia.
Qed.

Lemma splitnetloc_sub p url :
  free p url -> free p (splitnetloc url 2).1 /\ free p (splitnetloc url 2).2.
Proof.
  intros H. unfold splitnetloc, slice. cbn [fst snd]. split.
  - apply Forall_take, Forall_drop, H.
  - apply Forall_drop, H.
Qed.

Lemma split_location_some K url netloc rest :
  split_location K url = Some (netloc, rest) ->
  (netloc = [] /\ rest = url)
  \/ (netloc = (splitnetloc url 2).1 /\ rest = (splitnetloc url 2).2).
Proof.
  unfold split_location. destruct (str_eqb _ _).
  - destruct (splitnetloc url 2) as [n r]. cbn [fst snd].
    destruct (_ || _); [discriminate|].
    destruct (_ && _); [discriminate|].
    intros [= <- <-]. right. split; reflexivity.
  - intros [= <- <-]. left. split; reflexivity.
Qed.

Lemma urlsplit_some K u r :
  urlsplit K u = Some r ->
  exists url,
    (forall p, free p (clean_url u) -> free p url)
    /\ ((sr_netloc r = [] /\ sr_path r = cut_at (ch "?") (cut_at (ch "#") url))
        \/ (sr_netloc r = (splitnetloc url 2).1
            /\ sr_path r =
                 cut_at (ch "?") (cut_at (ch "#") (splitnetloc url 2).2))).
Proof.
  unfold urlsplit.
  pose proof (fun p => split_scheme_free p (clean_url u)) as Hs.
  destruct (split_scheme (clean_url u)) as [scheme url]. cbn [snd] in Hs.
  destruct (split_location K url) as [[netloc rest]|] eqn:El; [|discriminate].
  destruct (_ && _); [discriminate|]. intros [= <-]. cbn [sr_netloc sr_path].
  exists url. split; [exact Hs|].
  destruct (split_location_some _ _ _ _ El) as [[-> ->]|[-> ->]]; auto.
Qed.

Lemma splitparams_free p s : free p s -> free p (splitparams s).
Proof.
  intros H. unfold splitparams.
  destruct (has_char (ch "/") s).
  - destruct (str_rfind (ch "/") s) as [j|]; [|exact H].
    destruct (str_find_from (ch ";") j s); [apply Forall_take|]; exact H.
  - destruct (str_find (ch ";") s); [apply Forall_take|]; exact H.
Qed.

(** The shape of a normalized url: no tab or line end, no [?] and no [#],
    no [/] at the end. *)
Lemma normalize_url_shape K u r :
  normalize_url K u = Some r ->
  (free (N.eqb 9) r /\ free (N.eqb 13) r /\ free (N.eqb 10) r)
  /\ free (N.eqb (ch "#")) r /\ free (N.eqb (ch "?")) r
  /\ rstrip_by (N.eqb (ch "/")) r = r.
Proof.
  unfold normalize_url, urlparse.
  destruct (urlsplit K u) as [res|] eqn:E; [|discriminate].
  set (path := if _ && _ then splitparams (sr_path res) else sr_path res).
  intros [= <-].
  assert (Hpath : forall p, free p (sr_path res) -> free p path).
  { intros p H. unfold path. destruct (_ && _); [apply splitparams_free|]; exact H. }
  destruct (urlsplit_some _ _ _ E) as (url & Hsub & Hres).
  destruct (clean_url_free u) as (H9 & H13 & H10).
  assert (Hn : forall p, free p url -> free p (sr_netloc res)).
  { intros p H. destruct Hres as [[-> _]|[-> _]]; [constructor|].
    apply splitnetloc_sub, H. }
  assert (Hp : forall p, free p url -> free p path).
  { intros p H. apply Hpath.
    destruct Hres as [[_ ->]|[_ ->]]; apply free_cut_at, free_cut_at;
      [|apply splitnetloc_sub]; exact H. }
  assert (Hq : free (N.eqb (ch "?")) path /\ free (N.eqb (ch "#")) path).
  { split; apply Hpath; destruct Hres as [[_ ->]|[_ ->]];
      try apply cut_at_free; apply free_cut_at, cut_at_free. }
  assert (Hl : free (N.eqb (ch "/")) (sr_netloc res)
               /\ free (N.eqb (ch "?")) (sr_netloc res)
               /\ free (N.eqb (ch "#")) (sr_netloc res)).
  { destruct Hres as [[-> _]|[-> _]]; [repeat constructor|].
    apply splitnetloc_free. }
  destruct Hq as [Hq1 Hq2]. destruct Hl as (Hl1 & Hl2 & Hl3).
  assert (Happ : forall p, free p (sr_netloc res) -> free p path ->
                 free p (sr_netloc res ++ rstrip_by (N.eqb (ch "/")) path)).
  { intros p Ha Hb. apply Forall_app. split; [|apply free_rstrip_by]; assumption. }
  split; [repeat split|split; [|split]].
  - apply Happ; [apply Hn|apply Hp]; apply Hsub, H9.
  - apply Happ; [apply Hn|apply Hp]; apply Hsub, H13.
  - apply Happ; [apply Hn|apply Hp]; apply Hsub, H10.
  - apply Happ; assumption.
  - apply Happ; assumption.
  - apply rstrip_by_app_id, Hl1.
Qed.

Lemma startswith_take2 r :
  startswith (lit "//") r = false -> str_eqb (List.firstn 2 r) (lit "//") = false.
Proof.
  intros H. unfold str_eqb. apply bool_decide_eq_false. intros E.
  destruct r as [|a [|b r]]; try discriminate.
  cbn in E. injection E as -> ->. discriminate.
Qed.

(** A string of the shape of a normalized url that has no colon and no
    semicolon, and begins neither with [//] nor with a control character
    or a space, is its own normal form. *)
Lemma normalize_url_fixed K r :
  match r with c :: _ => is_c0_control_or_space c = false | [] => True end ->
  free (N.eqb 9) r -> free (N.eqb 13) r -> free (N.eqb 10) r ->
  free (N.eqb (ch ":")) r -> free (N.eqb (ch ";")) r ->
  free (N.eqb (ch "#")) r -> free (N.eqb (ch "?")) r ->
  startswith (lit "//") r = false ->
  rstrip_by (N.eqb (ch "/")) r = r ->
  normalize_url K r = Some r.
Proof.
  intros H0 H9 H13 H10 Hc Hs Hh Hq Hss Hr.
  assert (Ec : clean_url r = r).
  { unfold clean_url, remove_char. rewrite (lstrip_by_id _ _ H0).
    cbn [fold_left].
    rewrite (filter_free_id (N.eqb 9)) by assumption.
    rewrite (filter_free_id (N.eqb 13)) by assumption.
    rewrite (filter_free_id (N.eqb 10)) by assumption.
    reflexivity. }
  unfold normalize_url, urlparse, urlsplit. rewrite Ec.
  unfold split_scheme. apply str_find_none in Hc. rewrite Hc.
  unfold split_location. rewrite (startswith_take2 _ Hss).
  rewrite (cut_at_id (ch "#")) by assumption.
  rewrite (cut_at_id (ch "?")) by assumption.
  cbn [nonempty andb sr_scheme sr_path sr_netloc].
  apply has_char_false in Hs. rewrite Hs, andb_false_r.
  cbn [app]. rewrite Hr. reflexivity.
Qed.

(** C8, as stated, fails.  Normalizing is not idempotent: the normal form
    of [http://a.com:8080/p/] is [a.com:8080/p], which is read as a url of
    scheme [a.com] and normalized to [8080/p]; the normal form of
    [////a.com] is [//a.com], whose normal form is [a.com].  And urls that
    differ only in the scheme or in a trailing slash can have different
    normal forms: that of [http://a.com/p;x] is [a.com/p], the parameter
    cut off, that of [gopher://a.com/p;x] and of [http://a.com/p;x/] is
    [a.com/p;x]. *)
Lemma normalize_url_not_idempotent :
  (normalize_url CPython.netloc_checks (lit "http://a.com:8080/p/")
   = Some (lit "a.com:8080/p")
   /\ normalize_url CPython.netloc_checks (lit "a.com:8080/p")
      = Some (lit "8080/p")
   /\ lit "a.com:8080/p" <> lit "8080/p")
  /\ (normalize_url CPython.netloc_checks (lit "////a.com") = Some (lit "//a.com")
      /\ normalize_url CPython.netloc_checks (lit "//a.com") = Some (lit "a.com")
      /\ lit "//a.com" <> lit "a.com")
  /\ (normalize_url CPython.netloc_checks (lit "http://a.com/p;x")
      = Some (lit "a.com/p")
      /\ normalize_url CPython.netloc_checks (lit "gopher://a.com/p;x")
         = Some (lit "a.com/p;x")
      /\ normalize_url CPython.netloc_checks (lit "http://a.com/p;x/")
         = Some (lit "a.com/p;x")
      /\ lit "a.com/p" <> lit "a.com/p;x").
Proof.
  split; [|split];
    repeat (split; [reflexivity|]); discriminate.
Qed.

Lemma check_canonical_found K soup current_url canonical_tag a b :
  find_by is_canonical_link soup = Some canonical_tag ->
  strip (get_attr_default canonical_tag (lit "href")) <> [] ->
  normalize_url K current_url = Some a ->
  normalize_url K (strip (get_attr_default canonical_tag (lit "href"))) = Some b ->
  check_canonical K soup current_url =
    if str_eqb a b then Some (CanonSelf, true) else Some (CanonOther, false).
Proof.
  intros Hf Hne Ha Hb. unfold check_canonical. rewrite Hf.
  destruct (strip (get_attr_default canonical_tag (lit "href"))) as [|c s] eqn:E;
    [congruence|].
  cbn [nonempty negb]. rewrite Ha, Hb. reflexivity.
Qed.

(** ** The decoding chain *)

Section Fallback.
Variable L : Libraries.

(** The first candidate that decodes wins. *)
Lemma try_encodings_first content before encoding after s :
  Forall (fun e => decode L e Strict content = inr UnicodeDecodeError) before ->
  decode L encoding Strict content = inl s ->
  try_encodings L content (before ++ encoding :: after) = inl s.
Proof.
  intros Hb He. induction Hb as [|e before E _ IH]; simpl.
  - rewrite He. reflexivity.
  - rewrite E. exact IH.
Qed.

(** When every candidate fails, the content is decoded as UTF-8 with
    the undecodable bytes dropped. *)
Lemma try_encodings_none content encodings :
  Forall (fun e => decode L e Strict content = inr UnicodeDecodeError)
         encodings ->
  try_encodings L content encodings = decode L (lit "utf-8") Ignore content.
Proof.
  induction 1 as [|e encodings E _ IH]; simpl; [reflexivity|].
  rewrite E. exact IH.
Qed.

Lemma fallback_decode_list content u :
  fallback_decode L content (Some u) =
    try_encodings L content
      (if cjk_hint fallback_sites u then cjk_encodings else other_encodings).
Proof.
  unfold fallback_decode. destruct u as [|c u]; reflexivity.
Qed.

(** C2, amended.  The priority list of [fallback_decode] is used when
    no encoding is declared and the detection is not confident
    (confidence not above 0.8), names no encoding, or the decoding with
    the detected encoding raises.  The list is chosen by the CJK hint of
    [fallback_decode] (which also knows zhihu), its candidates are tried
    in order and the first that decodes wins.  When an encoding is
    declared, its strict decoding fails and the strict GBK-or-UTF-8
    attempt fails as well, the result is [response.text]; the priority
    list is not used. *)
Theorem decode_response_fallback :
  (forall response,
      declared response = None ->
      let detected := chardet_detect L (List.firstn 1024 (content response)) in
      (0.8 <? det_confidence detected)%float = false
      \/ det_encoding detected = None
      \/ (exists enc e, det_encoding detected = Some enc
                        /\ decode L enc Ignore (content response) = inr e) ->
      decode_response L response =
        try_encodings L (content response)
          (if cjk_hint fallback_sites (url response)
           then cjk_encodings else other_encodings))
  /\ (forall content before encoding after s,
         Forall (fun e => decode L e Strict content = inr UnicodeDecodeError)
                before ->
         decode L encoding Strict content = inl s ->
         try_encodings L content (before ++ encoding :: after) = inl s)
  /\ (forall response enc,
         declared response = Some enc ->
         decode L enc Strict (content response) = inr UnicodeDecodeError ->
         decode L (if cjk_hint fetch_sites (url response)
                   then lit "gbk" else lit "utf-8")
                Strict (content response) = inr UnicodeDecodeError ->
         decode_response L response = response_text L response).
Proof.
  split; [|split].
  - intros response Hd detected H. unfold decode_response. rewrite Hd.
    fold detected. rewrite <- fallback_decode_list.
    destruct H as [H|[H|(enc & e & H1 & H2)]].
    + rewrite H. reflexivity.
    + rewrite H. destruct (0.8 <? det_confidence detected)%float; reflexivity.
    + rewrite H1, H2.
      destruct (0.8 <? det_confidence detected)%float; reflexivity.
  - apply try_encodings_first.
  - intros response enc Hd H1 H2. unfold decode_response. rewrite Hd, H1.
    destruct (cjk_hint fetch_sites (url response)); rewrite H2; reflexivity.
Qed.

End Fallback.

(** C2, as stated, fails on a declared encoding: for a page declared as
    ASCII that holds the byte FF, the ASCII and the UTF-8 attempts fail
    and the result is [response.text], with U+FFFD for the byte; the
    priority list would have given the ISO-8859-1 reading, with U+00FF. *)
Lemma decode_response_declared_not_list :
  let L := CPython.libraries CPython.detect_unsure in
  let r := response_bad_ascii in
  decode L (lit "ascii") Strict (content r) = inr UnicodeDecodeError
  /\ cjk_hint fetch_sites (url r) = false
  /\ decode L (lit "utf-8") Strict (content r) = inr UnicodeDecodeError
  /\ decode_response L r = inl (lit "<p>" ++ [0xFFFD%N] ++ lit "</p>")
  /\ fallback_decode L (content r) (Some (url r))
     = inl (lit "<p>" ++ [0xFF%N] ++ lit "</p>")
  /\ decode_response L r <> fallback_decode L (content r) (Some (url r)).
Proof.
  repeat split. discriminate.
Qed.

Lemma decode_response_fallback_witness :
  decode_response (CPython.libraries CPython.detect_unsure) response_gbk
  = inl [0x4e2d; 0x6587; 0x4e02; 0x4e2d; 0x6587]%N.
Proof.
  transitivity
    (try_encodings (CPython.libraries CPython.detect_unsure)
       (content response_gbk) cjk_encodings).
  - apply (decode_response_fallback (CPython.libraries CPython.detect_unsure)).
    + reflexivity.
    + left. reflexivity.
  - reflexivity.
Defined.

Section Resolver.
Variable L : Libraries.

(** What is known of the libraries: the interpreter has the five
    candidate codecs, so that strict decoding with one of them returns
    text or raises [UnicodeDecodeError]; ISO-8859-1 decodes every byte
    string; [response.text] returns text. *)
Hypothesis candidates_known :
  forall e content,
    In e (cjk_encodings ++ other_encodings) ->
    text_or_decode_error (decode L e Strict content).
Hypothesis latin_1_total :
  forall content, exists s, decode L (lit "iso-8859-1") Strict content = inl s.
Hypothesis response_text_total :
  forall response, exists s, response_text L response = inl s.

Lemma try_encodings_text content encodings :
  (forall e, In e encodings -> In e (cjk_encodings ++ other_encodings)) ->
  In (lit "iso-8859-1") encodings ->
  exists s, try_encodings L content encodings = inl s.
Proof.
  induction encodings as [|e encodings IH]; intros Hsub Hin; [destruct Hin|].
  simpl. pose proof (candidates_known e content (Hsub e (or_introl eq_refl))) as K.
  destruct (decode L e Strict content) as [s|err] eqn:E; [eauto|].
  simpl in K. subst err. apply IH.
  - intros e' H'. apply Hsub. right. exact H'.
  - destruct Hin as [Heq|Hin]; [|exact Hin].
    destruct (latin_1_total content) as [s Hs].
    rewrite Heq, Hs in E. discriminate.
Qed.

Lemma fallback_decode_text content u :
  exists s, fallback_decode L content u = inl s.
Proof.
  unfold fallback_decode.
  destruct u as [u|]; [destruct (nonempty u && cjk_hint fallback_sites u)|];
    apply try_encodings_text;
    try (intros e He; apply in_or_app; (left; exact He) || (right; exact He));
    unfold cjk_encodings, other_encodings; simpl; auto 10.
Qed.

(** When the decoding returns text.  With no declared encoding it always
    does.  With a declared encoding it does whenever the strict decoding
    with that encoding returns text or raises [UnicodeDecodeError].  For
    content that GBK decodes, from a url with [.cn] and with no declared
    encoding, the result is the GBK decoding when the detection is not
    confident (confidence not above 0.8); when it is, the result is the
    decoding with the detected encoding, undecodable bytes dropped. *)
Lemma decode_response_text :
  (forall response,
      declared response = None ->
      exists s, decode_response L response = inl s)
  /\ (forall response enc,
         declared response = Some enc ->
         text_or_decode_error (decode L enc Strict (content response)) ->
         exists s, decode_response L response = inl s
                   /\ fetch_and_parse_text L response = Some s)
  /\ (forall response s,
         declared response = None ->
         contains (lit ".cn") (url response) = true ->
         decode L (lit "gbk") Strict (content response) = inl s ->
         let detected :=
           chardet_detect L (List.firstn 1024 (content response)) in
         ((0.8 <? det_confidence detected)%float = false ->
          decode_response L response = inl s)
         /\ (forall enc s',
                (0.8 <? det_confidence detected)%float = true ->
                det_encoding detected = Some enc ->
                decode L enc Ignore (content response) = inl s' ->
                decode_response L response = inl s')).
Proof.
  split; [|split].
  - intros response Hd. unfold decode_response. rewrite Hd.
    destruct (0.8 <? _)%float; [|apply fallback_decode_text].
    destruct (det_encoding _) as [enc|]; [|apply fallback_decode_text].
    destruct (decode L enc Ignore (content response)) as [s|e];
      [eauto|apply fallback_decode_text].
  - intros response enc Hd K.
    assert (H : exists s, decode_response L response = inl s).
    { unfold decode_response. rewrite Hd.
      destruct (decode L enc Strict (content response)) as [s|e]; [eauto|].
      simpl in K. subst e.
      assert (G : In (lit "gbk") (cjk_encodings ++ other_encodings))
        by (simpl; auto).
      assert (U : In (lit "utf-8") (cjk_encodings ++ other_encodings))
        by (simpl; auto 10).
      pose proof (candidates_known _ (content response) G) as KG.
      pose proof (candidates_known _ (content response) U) as KU.
      destruct (cjk_hint fetch_sites (url response)).
      - destruct (decode L (lit "gbk") Strict (content response)) as [s|e];
          [eauto|]. simpl in KG. subst e. apply response_text_total.
      - destruct (decode L (lit "utf-8") Strict (content response)) as [s|e];
          [eauto|]. simpl in KU. subst e. apply response_text_total. }
    destruct H as [s H]. exists s. split; [exact H|].
    unfold fetch_and_parse_text. rewrite H. reflexivity.
  - intros response s Hd Hcn Hg detected. split.
    + intros Hc. unfold decode_response. rewrite Hd. fold detected.
      rewrite Hc, fallback_decode_list.
      unfold cjk_hint. rewrite Hcn. cbn [orb].
      apply (try_encodings_first L (content response) [] (lit "gbk"));
        [constructor|exact Hg].
    + intros enc s' Hc He Hs. unfold decode_response. rewrite Hd.
      fold detected. rewrite Hc, He, Hs. reflexivity.
Qed.

End Resolver.

(** ** The codec excerpt meets what the chain assumes *)

Lemma codec_result_ok_cons errors c r :
  CPython.codec_result errors r -> CPython.codec_result errors (CPython.ok_cons c r).
Proof. destruct r; simpl; auto. Qed.

Lemma codec_result_on_error errors k :
  CPython.codec_result errors k -> CPython.codec_result errors (CPython.on_error errors k).
Proof.
  destruct errors; simpl; auto. apply codec_result_ok_cons.
Qed.

Lemma ascii_decode_result errors bs :
  CPython.codec_result errors (CPython.ascii_decode errors bs).
Proof.
  induction bs as [|b bs IH]; simpl; [exact I|].
  destruct (Byte.to_N b <? 128)%N;
    [apply codec_result_ok_cons|apply codec_result_on_error]; exact IH.
Qed.

Lemma utf8_go_result errors skip bs :
  CPython.codec_result errors (CPython.utf8_go errors skip bs).
Proof.
  revert skip. induction bs as [|b bs IH]; intros skip; [exact I|].
  cbn [CPython.utf8_go]. destruct skip as [|k]; [|apply IH].
  destruct (CPython.utf8_step (b :: bs)).
  - apply codec_result_ok_cons, IH.
  - apply codec_result_on_error, IH.
  - apply codec_result_on_error. exact I.
Qed.

Lemma dbcs_decode_result table errors bs :
  CPython.codec_result errors (CPython.dbcs_decode table errors bs).
Proof.
  assert (H : forall n bs, length bs <= n ->
                    CPython.codec_result errors (CPython.dbcs_decode table errors bs)).
  { clear bs. induction n as [|n IH]; intros bs Hn.
    - destruct bs; [exact I|simpl in Hn; lia].
    - destruct bs as [|c rest]; [exact I|]. cbn [CPython.dbcs_decode].
      simpl in Hn.
      destruct (c <? 128)%N; [apply codec_result_ok_cons, IH; lia|].
      destruct rest as [|c2 rest2]; [apply codec_result_on_error; exact I|].
      simpl in Hn.
      destruct (table c c2).
      + apply codec_result_ok_cons, IH. lia.
      + apply codec_result_on_error, IH. simpl. lia. }
  apply (H (length bs)). lia.
Qed.

Lemma py_decode_result name errors bs :
  CPython.lookup name <> None ->
  CPython.codec_result errors (CPython.py_decode name errors bs).
Proof.
  intros Hk. unfold CPython.py_decode. destruct bs as [|b bs]; [exact I|].
  destruct (CPython.lookup name) as [[]|]; [..|congruence].
  - apply ascii_decode_result.
  - exact I.
  - apply utf8_go_result.
  - apply dbcs_decode_result.
  - apply dbcs_decode_result.
  - apply dbcs_decode_result.
Qed.

Lemma py_decode_known e content :
  In e (cjk_encodings ++ other_encodings) ->
  text_or_decode_error (CPython.py_decode e Strict content).
Proof.
  intros Hin.
  assert (Hk : CPython.lookup e <> None).
  { simpl in Hin.
    repeat (destruct Hin as [<-|Hin]; [discriminate|]). destruct Hin. }
  pose proof (py_decode_result e Strict content Hk) as R.
  destruct (CPython.py_decode e Strict content); simpl in *; tauto.
Qed.

Lemma py_decode_latin_1 content :
  exists s, CPython.py_decode (lit "iso-8859-1") Strict content = inl s.
Proof. destruct content; eexists; reflexivity. Qed.

Lemma requests_text_total response :
  exists s, CPython.requests_text response = inl s.
Proof.
  unfold CPython.requests_text. destruct (content response) as [|b bs]; [eauto|].
  set (enc := default [] (encoding response)).
  assert (U : exists s, CPython.py_decode (lit "utf-8") Replace (b :: bs) = inl s).
  { pose proof (py_decode_result (lit "utf-8") Replace (b :: bs)) as R.
    destruct (CPython.py_decode (lit "utf-8") Replace (b :: bs)) as [s|e];
      [eauto|]. destruct R as [R _]; discriminate. }
  destruct (CPython.py_decode enc Replace (b :: bs)) as [s|e] eqn:E; [eauto|].
  destruct (CPython.lookup enc) eqn:K.
  - pose proof (py_decode_result enc Replace (b :: bs)) as R.
    rewrite E in R. destruct R as [R _]; [congruence|discriminate].
  - unfold CPython.py_decode in E. rewrite K in E. injection E as <-. exact U.
Qed.

(** C1.  The declared encoding is tried in a [try] that catches
    [UnicodeDecodeError] only: any other error of the decoding leaves the
    encoding block, and [fetch_and_parse] gives up on the page.  A page
    served with a charset the interpreter has no codec for ([utf8mb4])
    raises [LookupError] there, whatever the detector.  The branch for
    the detected encoding catches every error and goes on with
    [fallback_decode]. *)
Theorem decode_response_unknown_charset :
  (forall detect,
      let L := CPython.libraries detect in
      declared response_unknown_charset = Some (lit "utf8mb4")
      /\ decode L (lit "utf8mb4") Strict (content response_unknown_charset)
         = inr LookupError
      /\ decode_response L response_unknown_charset = inr LookupError
      /\ fetch_and_parse_text L response_unknown_charset = None)
  /\ (forall (L : Libraries) response enc e,
         declared response = Some enc ->
         decode L enc Strict (content response) = inr e ->
         e <> UnicodeDecodeError ->
         decode_response L response = inr e
         /\ fetch_and_parse_text L response = None)
  /\ (forall (L : Libraries) response enc e,
         declared response = None ->
         (0.8 <? det_confidence
                   (chardet_detect L (List.firstn 1024 (content response))))%float
         = true ->
         det_encoding (chardet_detect L (List.firstn 1024 (content response)))
         = Some enc ->
         decode L enc Ignore (content response) = inr e ->
         decode_response L response
         = fallback_decode L (content response) (Some (url response))).
Proof.
  split; [|split].
  - intros detect L. repeat split.
  - intros L response enc e Hd He Hne.
    assert (R : decode_response L response = inr e).
    { unfold decode_response. rewrite Hd, He.
      destruct e; [contradiction|reflexivity|reflexivity]. }
    split; [exact R|]. unfold fetch_and_parse_text. rewrite R. reflexivity.
  - intros L response enc e Hd Hc He Hx.
    unfold decode_response. rewrite Hd, Hc, He, Hx. reflexivity.
Qed.

Lemma decode_response_text_witness :
  exists s,
    decode_response (CPython.libraries CPython.detect_unsure) response_gbk = inl s.
Proof.
  apply (decode_response_text (CPython.libraries CPython.detect_unsure)
           py_decode_known py_decode_latin_1 requests_text_total).
  reflexivity.
Defined.

(** ** Running on the store *)

Lemma bind_run {A B} (m : M A) (f : A -> M B) st a st' :
  m st = Some (a, st') -> bind m f st = f a st'.
Proof. intros H. unfold bind. rewrite H. reflexivity. Qed.

Lemma read_run l (st : Store) doc : st !! l = Some doc -> read l st = Some (doc, st).
Proof. intros H. unfold read. rewrite H. reflexivity. Qed.

Lemma deref_run l i (st : Store) doc b :
  st !! l = Some doc -> find_by (is_nid i) doc = Some b ->
  deref (l, i) st = Some (b, st).
Proof.
  intros H Hb. unfold deref. cbn [fst snd].
  rewrite (bind_run _ _ _ _ _ (read_run _ _ _ H)), Hb. reflexivity.
Qed.

Lemma remove_all_nil doc : remove_all [] doc = doc.
Proof. reflexivity. Qed.

Lemma remove_all_cons i ids doc :
  remove_all (i :: ids) doc = remove_all ids (remove_tag i doc).
Proof. reflexivity. Qed.

(** The loop [for tag in tags: tag.decompose()] writes the document the
    tags live in, and nothing else. *)
Lemma for_each_decompose l ids (st : Store) d :
  st !! l = Some d ->
  for_each (List.map (fun i => (l, i)) ids) decompose st
  = Some (tt, <[l := remove_all ids d]> st).
Proof.
  revert st d. induction ids as [|i ids IH]; intros st d H.
  - cbn [List.map for_each]. unfold ret.
    rewrite remove_all_nil, list_insert_id by exact H. reflexivity.
  - cbn [List.map for_each].
    assert (D : decompose (l, i) st = Some (tt, <[l := remove_tag i d]> st)).
    { unfold decompose. cbn [fst snd]. rewrite H. reflexivity. }
    rewrite (bind_run _ _ _ _ _ D).
    rewrite (IH _ (remove_tag i d)).
    + rewrite list_insert_insert_eq, remove_all_cons. reflexivity.
    + apply list_lookup_insert_eq. apply (lookup_lt_Some _ _ _ H).
Qed.

Lemma noise_loop {B} l (st : Store) d (k : unit -> M B) :
  st !! l = Some d ->
  bind (find_all_refs noise_tags l)
       (fun tags => bind (for_each tags decompose) k) st
  = k tt (<[l := without_noise d]> st).
Proof.
  intros H.
  assert (F : find_all_refs noise_tags l st
              = Some (tag_refs l (find_all noise_tags d), st)).
  { unfold find_all_refs. rewrite (bind_run _ _ _ _ _ (read_run _ _ _ H)).
    reflexivity. }
  rewrite (bind_run _ _ _ _ _ F).
  apply bind_run. unfold tag_refs. apply for_each_decompose, H.
Qed.

Lemma selector_loop l selectors (st : Store) d :
  st !! l = Some d ->
  for_each selectors
    (fun selector => bind (select_refs selector l)
                          (fun tags => for_each tags decompose)) st
  = Some (tt, <[l := without_selected selectors d]> st).
Proof.
  revert st d. induction selectors as [|sel selectors IH]; intros st d H.
  - cbn [for_each]. unfold ret, without_selected. cbn [fold_left].
    rewrite list_insert_id by exact H. reflexivity.
  - cbn [for_each].
    assert (S1 : bind (select_refs sel l) (fun tags => for_each tags decompose) st
                 = Some (tt, <[l := remove_all (omap tag_id (select sel d)) d]> st)).
    { assert (F : select_refs sel l st = Some (tag_refs l (select sel d), st)).
      { unfold select_refs. rewrite (bind_run _ _ _ _ _ (read_run _ _ _ H)).
        reflexivity. }
      rewrite (bind_run _ _ _ _ _ F). unfold tag_refs.
      apply for_each_decompose, H. }
    rewrite (bind_run _ _ _ _ _ S1).
    rewrite (IH _ (remove_all (omap tag_id (select sel d)) d)).
    + rewrite list_insert_insert_eq. reflexivity.
    + apply list_lookup_insert_eq. apply (lookup_lt_Some _ _ _ H).
Qed.

(** The run of [check_initial_content] on a page with a body: two
    documents are added to the store, the copy and the working copy, and
    no document of the store is written. *)
Lemma check_initial_content_run soup (st : Store) doc body_tag b :
  st !! soup = Some doc ->
  find (lit "body") doc = Some body_tag ->
  find_by (is_nid (default 0 (tag_id body_tag))) doc = Some b ->
  check_initial_content soup st
  = Some (visibility_of b, st ++ [BeautifulSoup [copy_of b]; working_copy b]).
Proof.
  intros H Hf Hb.
  set (st1 := st ++ [BeautifulSoup [copy_of b]]).
  set (st2 := st1 ++ [BeautifulSoup [copy_of b]]).
  assert (H1 : st1 !! soup = Some doc) by (apply lookup_app_l_Some, H).
  assert (H2 : st2 !! soup = Some doc) by (apply lookup_app_l_Some, H1).
  assert (T2 : st2 !! length st1 = Some (BeautifulSoup [copy_of b])).
  { unfold st2. apply list_lookup_middle. reflexivity. }
  assert (Hlt : soup < length st) by apply (lookup_lt_Some _ _ _ H).
  assert (Hne : length st1 <> soup).
  { unfold st1. rewrite length_app. simpl. lia. }
  set (st3 := <[length st1 := without_noise (BeautifulSoup [copy_of b])]> st2).
  assert (T3 : st3 !! length st1 = Some (without_noise (BeautifulSoup [copy_of b]))).
  { apply list_lookup_insert_eq. apply (lookup_lt_Some _ _ _ T2). }
  set (st4 := <[length st1 := working_copy b]> st2).
  assert (T4 : st4 !! length st1 = Some (working_copy b)).
  { apply list_lookup_insert_eq. apply (lookup_lt_Some _ _ _ T2). }
  assert (H4 : st4 !! soup = Some doc).
  { unfold st4. rewrite list_lookup_insert_ne by exact Hne. exact H2. }
  assert (E4 : st4 = st ++ [BeautifulSoup [copy_of b]; working_copy b]).
  { unfold st4, st2, st1. rewrite <- app_assoc. cbn [app].
    replace (length (st ++ [BeautifulSoup [copy_of b]])) with (length st + 1)
      by (rewrite length_app; reflexivity).
    rewrite insert_app_r. reflexivity. }
  unfold check_initial_content.
  rewrite (bind_run _ _ _ _ _ (read_run _ _ _ H)), Hf.
  rewrite (bind_run _ _ _ _ _ (deref_run _ _ _ _ _ H Hb)).
  rewrite (bind_run (new_soup [b]) _ st (length st) st1) by reflexivity.
  rewrite (bind_run _ _ _ _ _ (deref_run _ _ _ _ _ H1 Hb)).
  rewrite (bind_run (new_soup [b]) _ st1 (length st1) st2) by reflexivity.
  rewrite (noise_loop _ _ _ _ T2). fold st3.
  rewrite (bind_run _ _ _ _ _ (selector_loop _ nav_selectors _ _ T3)).
  unfold st3. rewrite list_insert_insert_eq.
  change (without_selected nav_selectors
            (without_noise (BeautifulSoup [copy_of b])))
    with (working_copy b).
  fold st4.
  rewrite (bind_run _ _ _ _ _ (read_run _ _ _ T4)).
  rewrite !(bind_run _ _ _ _ _ (deref_run _ _ _ _ _ H4 Hb)).
  unfold visibility_of.
  destruct (visibility_decision _ _ _) as [finding verdict].
  unfold ret. rewrite E4. reflexivity.
Qed.

(** ** Tags and their identities *)

Lemma Node_induction (P : Node -> Prop) :
  (forall cls s, P (Text cls s)) ->
  (forall i nm a cs, Forall P cs -> P (Elem i nm a cs)) ->
  forall n, P n.
Proof.
  intros Ht He. fix IH 1. intros [cls s|i nm a cs]; [apply Ht|].
  apply He. revert cs. fix IHcs 1.
  intros [|c cs]; constructor; [apply IH|apply IHcs].
Qed.

Lemma find_by_in p doc x :
  find_by p doc = Some x -> In x (descendants doc) /\ is_tag x = true /\ p x = true.
Proof.
  unfold find_by, find_all_by. intros H.
  assert (I : In x (List.filter (fun d => is_tag d && p d) (descendants doc))).
  { destruct (List.filter _ _) as [|y l]; [discriminate|].
    injection H as ->. left. reflexivity. }
  apply filter_In in I. destruct I as [I E].
  apply andb_true_iff in E. tauto.
Qed.

Lemma find_by_exists p doc x :
  In x (descendants doc) -> is_tag x = true -> p x = true ->
  exists y, find_by p doc = Some y.
Proof.
  intros I T E. unfold find_by, find_all_by.
  assert (F : In x (List.filter (fun d => is_tag d && p d) (descendants doc))).
  { apply filter_In. split; [exact I|]. rewrite T, E. reflexivity. }
  destruct (List.filter _ _) as [|y l]; [destruct F|]. exists y. reflexivity.
Qed.

(** Among tags of distinct identities, the tag of a given identity is
    found by it. *)
Lemma head_filter_nid i b (l : list Node) :
  NoDup (omap tag_id l) -> In b l -> tag_id b = Some i ->
  head (List.filter (fun d => is_tag d && is_nid i d) l) = Some b.
Proof.
  induction l as [|x l IH]; intros N I T; [destruct I|].
  destruct x as [cls s|j nm a cs].
  - cbn in N |- *. destruct I as [<-|I]; [discriminate|]. apply IH; assumption.
  - cbn [omap list_omap tag_id] in N. apply NoDup_cons in N. destruct N as [N1 N2].
    cbn [List.filter is_tag is_nid andb].
    destruct (Nat.eqb_spec j i) as [->|Hne].
    + cbn [head]. f_equal. destruct I as [<-|I]; [reflexivity|].
      exfalso. apply N1. apply list_elem_of_omap. exists b.
      split; [apply list_elem_of_In; exact I|exact T].
    + destruct I as [<-|I]; [cbn in T; congruence|]. apply IH; assumption.
Qed.

Lemma body_deref doc body_tag :
  find (lit "body") doc = Some body_tag ->
  (exists b, find_by (is_nid (default 0 (tag_id body_tag))) doc = Some b)
  /\ (distinct_ids doc ->
      find_by (is_nid (default 0 (tag_id body_tag))) doc = Some body_tag).
Proof.
  intros H. apply find_by_in in H. destruct H as (I & T & _).
  destruct body_tag as [cls s|i nm a cs]; [discriminate|]. cbn [tag_id default].
  split.
  - apply (find_by_exists _ _ (Elem i nm a cs)); [exact I|reflexivity|].
    simpl. apply Nat.eqb_refl.
  - intros N. apply head_filter_nid; [exact N|exact I|reflexivity].
Qed.

(** ** What the loops remove *)

Lemma covered_mono i ids n : covered ids n = true -> covered (i :: ids) n = true.
Proof.
  induction n as [cls s|j nm a cs IH] using Node_induction; [auto|]. simpl.
  rewrite !orb_true_iff. intros [H|H]; [auto|]. right.
  rewrite forallb_forall in *. rewrite Forall_forall in IH.
  intros c Hc. apply IH; [apply list_elem_of_In|]; auto.
Qed.

Lemma covered_remove_tag i ids n :
  covered (i :: ids) n = true -> is_nid i n = false ->
  covered ids (remove_tag i n) = true.
Proof.
  induction n as [cls s|j nm a cs IH] using Node_induction; [auto|]. simpl.
  intros H Hj. rewrite Hj in H. cbn [orb] in H.
  apply orb_true_iff in H. apply orb_true_iff.
  destruct H as [H|H]; [auto|]. right.
  induction cs as [|c cs IHcs]; [reflexivity|].
  cbn [forallb] in H. apply andb_true_iff in H. destruct H as [Hc Hcs].
  apply Forall_cons in IH. destruct IH as [IHc IHrest].
  cbn [List.flat_map]. destruct (is_nid i c) eqn:E.
  - apply IHcs; assumption.
  - cbn [app forallb]. rewrite (IHc Hc eq_refl). apply IHcs; assumption.
Qed.

Lemma covered_root_remove_tag i ids doc :
  covered_root (i :: ids) doc = true -> covered_root ids (remove_tag i doc) = true.
Proof.
  unfold covered_root. destruct doc as [cls s|j nm a cs]; [reflexivity|].
  cbn [remove_tag children_of]. intros H.
  induction cs as [|c cs IH]; [reflexivity|].
  cbn [forallb] in H. apply andb_true_iff in H. destruct H as [Hc Hcs].
  cbn [List.flat_map]. destruct (is_nid i c) eqn:E; [apply IH, Hcs|].
  cbn [app forallb]. rewrite (covered_remove_tag _ _ _ Hc E). apply IH, Hcs.
Qed.

Lemma covered_root_mono i ids doc :
  covered_root ids doc = true -> covered_root (i :: ids) doc = true.
Proof.
  unfold covered_root. rewrite !forallb_forall. intros H c Hc.
  apply covered_mono, H, Hc.
Qed.

Lemma covered_root_remove_all ids doc :
  covered_root ids doc = true -> covered_root [] (remove_all ids doc) = true.
Proof.
  revert doc. induction ids as [|i ids IH]; intros doc H; [exact H|].
  rewrite remove_all_cons. apply IH, covered_root_remove_tag, H.
Qed.

Lemma covered_root_nil_remove_all ids doc :
  covered_root [] doc = true -> covered_root [] (remove_all ids doc) = true.
Proof.
  revert doc. induction ids as [|i ids IH]; intros doc H; [exact H|].
  rewrite remove_all_cons. apply IH, covered_root_remove_tag, covered_root_mono, H.
Qed.

Lemma covered_root_nil_without_selected selectors doc :
  covered_root [] doc = true ->
  covered_root [] (without_selected selectors doc) = true.
Proof.
  unfold without_selected. revert doc.
  induction selectors as [|sel selectors IH]; intros doc H; [exact H|].
  cbn [fold_left]. apply IH, covered_root_nil_remove_all, H.
Qed.

Lemma is_tag_remove_tag i n : is_tag (remove_tag i n) = is_tag n.
Proof. destruct n; reflexivity. Qed.

Lemma is_tag_remove_all ids n : is_tag (remove_all ids n) = is_tag n.
Proof.
  revert n. induction ids as [|i ids IH]; intros n; [reflexivity|].
  rewrite remove_all_cons, IH. apply is_tag_remove_tag.
Qed.

Lemma is_tag_without_selected selectors n :
  is_tag (without_selected selectors n) = is_tag n.
Proof.
  unfold without_selected. revert n.
  induction selectors as [|sel selectors IH]; intros n; [reflexivity|].
  cbn [fold_left]. rewrite IH. apply is_tag_remove_all.
Qed.

Lemma stripped_strings_app (l1 l2 : list pystr) :
  List.filter nonempty (List.map strip (l1 ++ l2))
  = List.filter nonempty (List.map strip l1)
    ++ List.filter nonempty (List.map strip l2).
Proof. rewrite List.map_app. apply List.filter_app. Qed.

(** A tag with no uncovered string has no string left after stripping. *)
Lemma covered_nil_strings n :
  covered [] n = true ->
  List.filter nonempty
              (List.map strip (strings_of [NavigableString; CData] n)) = [].
Proof.
  induction n as [cls s|j nm a cs IH] using Node_induction.
  - unfold strings_of. cbn [covered subtree List.flat_map app].
    destruct (class_in _ cls); [|reflexivity].
    cbn. destruct (nonempty (strip s)); [discriminate|reflexivity].
  - rewrite strings_of_elem. cbn [covered existsb orb].
    intros H. induction cs as [|c cs IHcs]; [reflexivity|].
    cbn [forallb] in H. apply andb_true_iff in H. destruct H as [Hc Hcs].
    apply Forall_cons in IH. destruct IH as [IHc IHrest].
    cbn [List.flat_map]. rewrite stripped_strings_app, (IHc Hc).
    apply IHcs; assumption.
Qed.

Lemma covered_root_nil_text sep doc :
  is_tag doc = true -> string_containers (tag_name doc) = None ->
  covered_root [] doc = true -> get_text_strip sep doc = [].
Proof.
  intros T C H. destruct doc as [cls s|j nm a cs]; [discriminate|].
  unfold get_text_strip, stripped_strings, all_strings,
    interesting_string_types.
  rewrite C, (covered_nil_strings (Elem j nm a cs)); [reflexivity|exact H].
Qed.

Lemma tag_name_remove_tag i n : tag_name (remove_tag i n) = tag_name n.
Proof. destruct n; reflexivity. Qed.

Lemma tag_name_remove_all ids n : tag_name (remove_all ids n) = tag_name n.
Proof.
  revert n. induction ids as [|i ids IH]; intros n; [reflexivity|].
  rewrite remove_all_cons, IH. apply tag_name_remove_tag.
Qed.

Lemma tag_name_without_selected selectors n :
  tag_name (without_selected selectors n) = tag_name n.
Proof.
  unfold without_selected. revert n.
  induction selectors as [|sel selectors IH]; intros n; [reflexivity|].
  cbn [fold_left]. rewrite IH. apply tag_name_remove_all.
Qed.

(** The working copy is a document. *)
Lemma working_copy_root body :
  is_tag (working_copy body) = true
  /\ string_containers (tag_name (working_copy body)) = None.
Proof.
  unfold working_copy, without_noise.
  rewrite is_tag_without_selected, is_tag_remove_all,
    tag_name_without_selected, tag_name_remove_all.
  split; reflexivity.
Qed.

Lemma only_nav_and_script_copy body :
  only_nav_and_script body -> only_nav_and_script (copy_of body).
Proof.
  unfold only_nav_and_script, copy_of.
  destruct body as [cls s|i nm a cs]; [constructor|].
  cbn [parsed children_of]. generalize (default NavigableString (string_containers nm)).
  intros container H. induction H as [|c cs Hc _ IH]; constructor; [|exact IH].
  destruct c as [cls s|j nmc ac csc]; [exact Hc|exact Hc].
Qed.

Lemma has_name_noise c :
  has_name [lit "nav"; lit "script"] c = true -> has_name noise_tags c = true.
Proof.
  unfold has_name. cbn [existsb]. rewrite orb_false_r.
  intros H. apply orb_true_iff in H. unfold noise_tags. cbn [List.map existsb].
  destruct H as [H|H]; rewrite H; rewrite ?orb_true_r; reflexivity.
Qed.

Lemma in_subtree_self n : In n (subtree n).
Proof. destruct n; left; reflexivity. Qed.

(** The working copy of a body that holds [nav] and [script] tags only
    has no text. *)
Lemma working_copy_nav_script body :
  is_tag body = true -> only_nav_and_script body ->
  get_text_strip (lit " ") (working_copy body) = [].
Proof.
  intros T H. destruct (working_copy_root body) as [R C].
  apply covered_root_nil_text; [exact R|exact C|].
  unfold working_copy.
  apply covered_root_nil_without_selected.
  unfold without_noise. apply covered_root_remove_all.
  apply only_nav_and_script_copy in H.
  assert (T' : is_tag (copy_of body) = true) by (destruct body; exact T).
  destruct (copy_of body) as [cls s|ib nm a kids]; [discriminate|].
  unfold only_nav_and_script in H. cbn [children_of] in H.
  set (doc := BeautifulSoup [Elem ib nm a kids]).
  unfold covered_root. cbn [children_of BeautifulSoup doc forallb covered].
  rewrite andb_true_r. apply orb_true_iff. right.
  apply forallb_forall. intros c Hc.
  rewrite Forall_forall in H.
  pose proof (H c (proj2 (list_elem_of_In _ _) Hc)) as Nc.
  destruct c as [cls s|ic nmc ac csc].
  { cbn [covered]. rewrite Nc, andb_false_r. reflexivity. }
  cbn [covered]. apply orb_true_iff. left.
  apply existsb_exists. exists ic. split; [|apply Nat.eqb_refl].
  apply list_elem_of_In, list_elem_of_omap. exists (Elem ic nmc ac csc).
  split; [|reflexivity]. apply list_elem_of_In.
  unfold find_all, find_all_by. apply filter_In. split.
  - unfold descendants, doc. cbn [children_of BeautifulSoup List.flat_map].
    rewrite app_nil_r. cbn [subtree]. right.
    apply in_flat_map. exists (Elem ic nmc ac csc).
    split; [exact Hc|apply in_subtree_self].
  - cbn [is_tag andb]. apply has_name_noise, Nc.
Qed.

(** ** check_initial_content *)

Lemma visibility_decision_cases n m h :
  (n < 100 -> visibility_decision n m h = (VisHighRisk, false))
  /\ (100 <= n -> n < 300 /\ m < 2 ->
      visibility_decision n m h = (VisMediumRisk, false))
  /\ (100 <= n -> ~ (n < 300 /\ m < 2) -> h = true \/ 2 <= m ->
      visibility_decision n m h = (VisGood, true))
  /\ (100 <= n -> ~ (n < 300 /\ m < 2) -> h = false -> m < 2 ->
      visibility_decision n m h = (VisUnsure, 200 <=? n)).
Proof.
  unfold visibility_decision.
  destruct (Nat.ltb_spec n 100) as [A|A];
    destruct (Nat.ltb_spec n 300) as [B|B];
    destruct (Nat.ltb_spec m 2) as [C|C];
    destruct (Nat.leb_spec 2 m) as [D|D];
    cbn [andb orb];
    (split; [|split; [|split]]).
  all: try (intros; exfalso; lia).
  all: try (intros; reflexivity).
  all: try (intros X Y [Z|Z]; [subst h; reflexivity|exfalso; lia]).
  all: try (intros X Y ->; reflexivity).
  all: try (intros X Y Z W; exfalso; apply Y; split; assumption).
  all: try (intros X [Y Z]; exfalso; lia).
  all: intros; rewrite orb_true_r; reflexivity.
Qed.

(** C3.  On a page with a body, [check_initial_content] returns, and its
    result line and value are decided by four tests tried in order, the
    first that holds winning: a stripped text shorter than 100 characters
    gives the high-risk line (FAIL) and false; else a text shorter than
    300 with fewer than two meaningful paragraphs gives the medium-risk
    warning and false; else a content structure or two meaningful
    paragraphs give the good line and true; else the further-check
    warning.  The text is the text of the working copy, in which the
    strings of scripts, style sheets and templates do not count.  A body
    that holds [nav] and [script] tags only has a stripped text of length
    0, hence FAIL. *)
Theorem check_initial_content_decision soup (st : Store) doc body_tag :
  st !! soup = Some doc ->
  distinct_ids doc ->
  find (lit "body") doc = Some body_tag ->
  let text_length :=
    length (get_text_strip (lit " ") (working_copy body_tag)) in
  let paragraphs :=
    length (List.filter is_meaningful (find_all [lit "p"] body_tag)) in
  let structure :=
    (0 <? length (find_all [lit "article"; lit "main"] body_tag))
    || (0 <? length (find_all_by (class_matches class_is_content) body_tag)) in
  exists report verdict st',
    check_initial_content soup st = Some ((report, verdict), st')
    /\ vis_text_length report = Some text_length
    /\ (vis_finding report, verdict)
       = visibility_decision text_length paragraphs structure
    /\ (text_length < 100 ->
        vis_finding report = VisHighRisk
        /\ visibility_status (vis_finding report) = FAIL /\ verdict = false)
    /\ (100 <= text_length -> text_length < 300 /\ paragraphs < 2 ->
        vis_finding report = VisMediumRisk /\ verdict = false)
    /\ (100 <= text_length -> ~ (text_length < 300 /\ paragraphs < 2) ->
        structure = true \/ 2 <= paragraphs ->
        vis_finding report = VisGood /\ verdict = true)
    /\ (100 <= text_length -> ~ (text_length < 300 /\ paragraphs < 2) ->
        structure = false -> paragraphs < 2 ->
        vis_finding report = VisUnsure
        /\ (verdict = true <-> 200 <= text_length))
    /\ (only_nav_and_script body_tag ->
        text_length = 0 /\ vis_finding report = VisHighRisk
        /\ visibility_status (vis_finding report) = FAIL /\ verdict = false).
Proof.
  intros H N Hf text_length paragraphs structure.
  destruct (body_deref _ _ Hf) as [_ Hb]. specialize (Hb N).
  pose proof (check_initial_content_run _ _ _ _ _ H Hf Hb) as R.
  unfold visibility_of in R.
  fold text_length in R. fold paragraphs in R. fold structure in R.
  assert (T : is_tag body_tag = true) by (apply find_by_in in Hf; tauto).
  assert (Z : only_nav_and_script body_tag -> text_length = 0).
  { intros O. unfold text_length.
    rewrite (working_copy_nav_script _ T O). reflexivity. }
  clearbody text_length paragraphs structure.
  destruct (visibility_decision_cases text_length paragraphs structure)
    as (C1 & C2 & C3 & C4).
  destruct (visibility_decision text_length paragraphs structure)
    as [finding verdict] eqn:D.
  exists {| vis_finding := finding; vis_text_length := Some text_length;
            vis_word_count :=
              Some (length (split_ws (get_text_strip (lit " ")
                                        (working_copy body_tag)))) |},
         verdict, (st ++ [BeautifulSoup [copy_of body_tag]; working_copy body_tag]).
  split; [exact R|]. cbn [vis_text_length vis_finding].
  split; [reflexivity|]. split; [reflexivity|].
  assert (P : forall f v, (finding, verdict) = (f, v) -> finding = f /\ verdict = v).
  { intros f v E. split; [exact (f_equal fst E)|exact (f_equal snd E)]. }
  split; [|split; [|split; [|split]]].
  - intros A. destruct (P _ _ (C1 A)) as [-> ->]. auto.
  - intros A B. destruct (P _ _ (C2 A B)) as [-> ->]. auto.
  - intros A B C. destruct (P _ _ (C3 A B C)) as [-> ->]. auto.
  - intros A B C E. destruct (P _ _ (C4 A B C E)) as [-> ->].
    split; [reflexivity|]. apply Nat.leb_le.
  - intros O. assert (A : text_length < 100) by (rewrite (Z O); lia).
    destruct (P _ _ (C1 A)) as [-> ->]. auto.
Qed.

Lemma page_nav_script_distinct : distinct_ids page_nav_script.
Proof. apply (bool_decide_unpack _). vm_compute. exact I. Qed.

Lemma page_template_distinct : distinct_ids page_template.
Proof. apply (bool_decide_unpack _). vm_compute. exact I. Qed.

Lemma check_initial_content_decision_witness :
  (exists report verdict st',
      check_initial_content 0 [page_nav_script] = Some ((report, verdict), st')
      /\ vis_text_length report = Some 0
      /\ vis_finding report = VisHighRisk /\ verdict = false)
  /\ (exists report verdict st',
         check_initial_content 0 [page_template]
         = Some ((report, verdict), st')
         /\ vis_text_length report = Some 0
         /\ vis_finding report = VisHighRisk /\ verdict = false).
Proof.
  split.
  - destruct (check_initial_content_decision 0 [page_nav_script]
                page_nav_script nav_script_body eq_refl
                page_nav_script_distinct eq_refl)
      as (report & verdict & st' & R & L & _ & _ & _ & _ & _ & O).
    destruct O as (Z & F & _ & V).
    { repeat constructor. }
    exists report, verdict, st'. rewrite Z in L. auto.
  - destruct (check_initial_content_decision 0 [page_template]
                page_template template_body eq_refl
                page_template_distinct eq_refl)
      as (report & verdict & st' & R & L & _ & H & _).
    destruct H as (F & _ & V).
    { vm_compute. lia. }
    exists report, verdict, st'. auto.
Defined.

(** C4.  [check_initial_content] writes no document of the store it is
    given: it returns, and the store it leaves is the given one followed
    by the documents it built, none on a page without body, the copy of
    the body and the working copy on a page with one.  Every removal is in
    the working copy, the last document.  The returned line and value come
    from the text of the working copy (the strings of scripts, style
    sheets and templates are no text) and from the paragraphs and the
    content structure of the body of the page itself: a paragraph inside a
    removed header still counts, and the script inside a paragraph does
    not make it longer. *)
Theorem check_initial_content_frame soup (st : Store) doc :
  st !! soup = Some doc ->
  exists result st_new,
    check_initial_content soup st = Some (result, st ++ st_new)
    /\ (forall l d, st !! l = Some d -> (st ++ st_new) !! l = Some d)
    /\ (find (lit "body") doc = None -> st_new = [])
    /\ (forall body_tag,
           find (lit "body") doc = Some body_tag -> distinct_ids doc ->
           st_new = [BeautifulSoup [copy_of body_tag]; working_copy body_tag]
           /\ vis_text_length result.1
              = Some (length (get_text_strip (lit " ") (working_copy body_tag)))
           /\ (vis_finding result.1, result.2)
              = visibility_decision
                  (length (get_text_strip (lit " ") (working_copy body_tag)))
                  (length (List.filter is_meaningful
                                       (find_all [lit "p"] body_tag)))
                  ((0 <? length (find_all [lit "article"; lit "main"] body_tag))
                   || (0 <? length (find_all_by (class_matches class_is_content)
                                                body_tag)))).
Proof.
  intros H. destruct (find (lit "body") doc) as [body_tag|] eqn:Hf.
  - destruct (body_deref _ _ Hf) as [[b Hb] Hu].
    exists (visibility_of b), [BeautifulSoup [copy_of b]; working_copy b].
    split; [apply (check_initial_content_run _ _ _ _ _ H Hf Hb)|].
    split; [intros l d Hl; apply lookup_app_l_Some, Hl|].
    split; [discriminate|].
    intros body_tag' [= <-] N. specialize (Hu N).
    assert (E : b = body_tag) by congruence. subst b.
    split; [reflexivity|]. unfold visibility_of.
    destruct (visibility_decision _ _ _) as [finding verdict].
    split; reflexivity.
  - exists ({| vis_finding := VisNoBody; vis_text_length := None;
               vis_word_count := None |}, false), [].
    split.
    + unfold check_initial_content.
      rewrite (bind_run _ _ _ _ _ (read_run _ _ _ H)), Hf, app_nil_r.
      reflexivity.
    + split; [intros l d Hl; rewrite app_nil_r; exact Hl|].
      split; [reflexivity|discriminate].
Qed.

Lemma page_header_paragraphs_distinct : distinct_ids page_header_paragraphs.
Proof. apply (bool_decide_unpack _). vm_compute. exact I. Qed.

Lemma page_script_paragraph_distinct : distinct_ids page_script_paragraph.
Proof. apply (bool_decide_unpack _). vm_compute. exact I. Qed.

Lemma page_body_in_template_distinct : distinct_ids page_body_in_template.
Proof. apply (bool_decide_unpack _). vm_compute. exact I. Qed.

Lemma check_initial_content_frame_witness :
  (exists result,
      check_initial_content 0 [page_header_paragraphs]
      = Some (result,
              [page_header_paragraphs;
               BeautifulSoup [header_paragraphs_body];
               BeautifulSoup
                 [tag 3 "body" []
                    [tag 14 "div" []
                       [Text NavigableString (repeat 99%N 120)]]]])
      /\ vis_text_length result.1 = Some 120
      /\ length (List.filter is_meaningful
                             (find_all [lit "p"] header_paragraphs_body)) = 2
      /\ (vis_finding result.1, result.2) = (VisGood, true))
  /\ (exists result st_new,
         check_initial_content 0 [page_script_paragraph]
         = Some (result, page_script_paragraph :: st_new)
         /\ vis_text_length result.1 = Some 202
         /\ length (List.filter is_meaningful
                                (find_all [lit "p"] script_paragraph_body)) = 1
         /\ (vis_finding result.1, result.2) = (VisMediumRisk, false))
  /\ (exists result,
         check_initial_content 0 [page_body_in_template]
         = Some (result,
                 [page_body_in_template;
                  BeautifulSoup
                    [tag 3 "body" []
                       [tag 4 "p" []
                          [Text NavigableString (repeat 97%N 300)]]];
                  BeautifulSoup
                    [tag 3 "body" []
                       [tag 4 "p" []
                          [Text NavigableString (repeat 97%N 300)]]]])
         /\ vis_text_length result.1 = Some 300
         /\ get_text_strip (lit " ") body_in_template = []
         /\ length (List.filter is_meaningful
                                (find_all [lit "p"] body_in_template)) = 0
         /\ (vis_finding result.1, result.2) = (VisUnsure, true)).
Proof.
  split; [|split].
  - destruct (check_initial_content_frame 0 [page_header_paragraphs]
                page_header_paragraphs eq_refl)
      as (result & st_new & R & _ & _ & B).
    destruct (B header_paragraphs_body eq_refl page_header_paragraphs_distinct)
      as (E & L & D).
    exists result. subst st_new. split; [exact R|].
    split; [exact L|]. split; [reflexivity|exact D].
  - destruct (check_initial_content_frame 0 [page_script_paragraph]
                page_script_paragraph eq_refl)
      as (result & st_new & R & _ & _ & B).
    destruct (B script_paragraph_body eq_refl page_script_paragraph_distinct)
      as (E & L & D).
    exists result, st_new. split; [exact R|].
    split; [exact L|]. split; [reflexivity|exact D].
  - destruct (check_initial_content_frame 0 [page_body_in_template]
                page_body_in_template eq_refl)
      as (result & st_new & R & _ & _ & B).
    destruct (B body_in_template eq_refl page_body_in_template_distinct)
      as (E & L & D).
    exists result. subst st_new. split; [exact R|].
    split; [exact L|]. split; [reflexivity|]. split; [reflexivity|exact D].
Defined.

(** * Further properties *)

(** ** The value check_initial_content returns *)

(** The returned value, read off the four tests: it is true exactly when
    the stripped text has 100 characters and either 300 or two
    meaningful paragraphs.  The content structure changes the printed line
    only, and the further-check line always comes with true: the test
    [text_length >= 200] is reached with 300 characters at least. *)
Lemma visibility_decision_value n m h :
  ((visibility_decision n m h).2 = true <-> 100 <= n /\ (300 <= n \/ 2 <= m))
  /\ (visibility_decision n m h).2 = (visibility_decision n m (negb h)).2
  /\ ((visibility_decision n m h).1 = VisUnsure ->
      300 <= n /\ (visibility_decision n m h).2 = true).
Proof.
  unfold visibility_decision.
  destruct (Nat.ltb_spec n 100) as [A|A];
    destruct (Nat.ltb_spec n 300) as [B|B];
    destruct (Nat.ltb_spec m 2) as [C|C];
    destruct (Nat.leb_spec 2 m) as [D|D];
    destruct (Nat.leb_spec 200 n) as [E|E];
    try (exfalso; lia);
    destruct h; cbn [andb orb negb fst snd];
    (split; [split; [intros; try discriminate; lia|intros; try reflexivity; lia]
            |split; [reflexivity
                    |intros; first [discriminate|split; [lia|reflexivity]]]]).
Qed.

(** X1.  On a page with a body, [check_initial_content] returns true exactly
    when the text left in the working copy has 100 characters and either
    300 characters or two meaningful paragraphs in the body; whether the
    body has an article, a main or a content class does not change the
    value.  The further-check warning is never returned with false. *)
Theorem check_initial_content_value soup (st : Store) doc body_tag :
  st !! soup = Some doc ->
  distinct_ids doc ->
  find (lit "body") doc = Some body_tag ->
  let text_length :=
    length (get_text_strip (lit " ") (working_copy body_tag)) in
  let paragraphs :=
    length (List.filter is_meaningful (find_all [lit "p"] body_tag)) in
  exists report verdict st',
    check_initial_content soup st = Some ((report, verdict), st')
    /\ (verdict = true <->
        100 <= text_length /\ (300 <= text_length \/ 2 <= paragraphs))
    /\ (vis_finding report = VisUnsure -> verdict = true).
Proof.
  intros H N Hf text_length paragraphs.
  destruct (body_deref _ _ Hf) as [_ Hb]. specialize (Hb N).
  pose proof (check_initial_content_run _ _ _ _ _ H Hf Hb) as R.
  unfold visibility_of in R. fold text_length in R. fold paragraphs in R.
  clearbody text_length paragraphs.
  set (h := _ || _) in R. clearbody h.
  destruct (visibility_decision_value text_length paragraphs h) as (V & _ & U).
  destruct (visibility_decision text_length paragraphs h)
    as [finding verdict] eqn:D.
  cbn [fst snd] in V, U.
  eexists _, verdict, _. split; [exact R|]. split; [exact V|].
  cbn [vis_finding]. intros F. apply U, F.
Qed.

Lemma check_initial_content_value_witness :
  exists report st',
    check_initial_content 0 [page_header_paragraphs]
    = Some ((report, true), st').
Proof.
  destruct (check_initial_content_value 0 [page_header_paragraphs]
              page_header_paragraphs header_paragraphs_body
              eq_refl page_header_paragraphs_distinct eq_refl)
    as (report & verdict & st' & R & V & _).
  assert (E : verdict = true).
  { apply V. vm_compute. split; [lia|]. right. lia. }
  subst verdict. exists report, st'. exact R.
Defined.

(** ** Result line and returned value of the title and description checks *)

(** X2.  [check_meta_description] returns true exactly when it prints the
    check mark: no description gets a warning or a cross together with
    true. *)
Theorem check_meta_description_pass soup :
  (check_meta_description soup).2 = true
  <-> meta_status (check_meta_description soup).1 = PASS.
Proof.
  unfold check_meta_description.
  destruct (find_by is_meta_description soup) as [meta_desc|];
    [|split; discriminate].
  destruct (nonempty _); cbn [negb]; [|split; discriminate].
  set (n := length _). cbn [fst snd]. unfold desc_band.
  destruct (desc_is_chinese_dominant _).
  - destruct (Nat.ltb_spec n 50); destruct (Nat.ltb_spec n 100);
      destruct (Nat.ltb_spec 200 n); destruct (Nat.leb_spec 100 n);
      destruct (Nat.leb_spec n 200); cbn; split; intros;
      try reflexivity; try discriminate; lia.
  - destruct (Nat.ltb_spec n 120); destruct (Nat.ltb_spec n 140);
      destruct (Nat.ltb_spec 180 n); destruct (Nat.leb_spec 140 n);
      destruct (Nat.leb_spec n 180); cbn; split; intros;
      try reflexivity; try discriminate; lia.
Qed.

(** X3.  [check_title] never returns true with a cross and never false with a
    check mark.  A warning comes with true exactly for a title that is not
    CJK-dominant and has 30 to 49 or 66 to 70 characters. *)
Theorem check_title_status_verdict soup :
  (title_status (check_title soup).1 = FAIL -> (check_title soup).2 = false)
  /\ (title_status (check_title soup).1 = PASS -> (check_title soup).2 = true)
  /\ (forall title_tag,
         find (lit "title") soup = Some title_tag ->
         let t := get_text_strip [] title_tag in
         (title_status (check_title soup).1 = WARN
          /\ (check_title soup).2 = true
          <-> title_is_chinese_dominant t = false
              /\ (30 <= length t < 50 \/ 65 < length t <= 70))).
Proof.
  assert (B : forall d n,
             let st := title_status (title_band d n) in
             let v := (30 <=? n) && (n <=? 70) in
             (st = FAIL -> v = false) /\ (st = PASS -> v = true)
             /\ (st = WARN /\ v = true
                 <-> d = false /\ (30 <= n < 50 \/ 65 < n <= 70))).
  { intros d n. unfold title_band.
    destruct d;
      [destruct (Nat.ltb_spec n 15); destruct (Nat.ltb_spec n 30);
       destruct (Nat.ltb_spec 70 n)
      |destruct (Nat.ltb_spec n 30); destruct (Nat.ltb_spec n 50);
       destruct (Nat.ltb_spec 65 n)];
      destruct (Nat.leb_spec 30 n); destruct (Nat.leb_spec n 70);
      cbn; repeat split; intros;
      repeat match goal with H : _ /\ _ |- _ => destruct H end;
      try reflexivity; try discriminate; try lia. }
  unfold check_title.
  destruct (find (lit "title") soup) as [title_tag|].
  - cbn [fst snd].
    destruct (B (title_is_chinese_dominant (get_text_strip [] title_tag))
                (length (get_text_strip [] title_tag))) as (B1 & B2 & B3).
    split; [exact B1|]. split; [exact B2|].
    intros t' [= <-]. exact B3.
  - cbn. split; [reflexivity|]. split; [discriminate|]. discriminate.
Qed.

Lemma check_title_status_verdict_witness :
  title_status (check_title (page_with_title latin_title_68)).1 = WARN
  /\ (check_title (page_with_title latin_title_68)).2 = true.
Proof.
  destruct (check_title_status_verdict (page_with_title latin_title_68))
    as (_ & _ & W).
  apply (W (tag 10 "title" [] [Text NavigableString latin_title_68]) eq_refl).
  split; [reflexivity|]. right. vm_compute. lia.
Defined.

(** ** The relation of the H1 with the title *)






Lemma extract_key_phrases_facts text :
  let words := List.filter (fun word => negb (in_stop_words word)) text in
  length (extract_key_phrases text)
  = (if length words <=? 2 then 0 else if length words <=? 4 then 1 else 2)
  /\ Forall (fun phrase => length phrase = 3
                           /\ Forall (fun c => in_stop_words c = false) phrase)
            (extract_key_phrases text).
Proof.
  intros words.
  assert (W : Forall (fun c => in_stop_words c = false) words).
  { apply Forall_forall. intros c Hc. apply list_elem_of_In, filter_In in Hc.
    destruct Hc as [_ Hc]. apply negb_true_iff, Hc. }
  unfold extract_key_phrases. fold words. unfold slice.
  split.
  - destruct (Nat.ltb_spec 2 (length words));
      destruct (Nat.ltb_spec 4 (length words));
      destruct (Nat.leb_spec (length words) 2);
      destruct (Nat.leb_spec (length words) 4);
      try lia; reflexivity.
  - apply Forall_app. split.
    + destruct (Nat.ltb_spec 2 (length words)); constructor; [|constructor].
      split; [|apply Forall_take, W].
      rewrite length_take, length_drop. lia.
    + destruct (Nat.ltb_spec 4 (length words)); constructor; [|constructor].
      split; [|apply Forall_take, Forall_drop, W].
      rewrite length_take, length_drop. lia.
Qed.

(** X4.  The key phrases of a text: none when fewer than three characters are
    left once the stop words are dropped, one up to four, two from five
    on.  Every phrase has three characters, none of them a stop word. *)
Theorem extract_key_phrases_shape text :
  let words := List.filter (fun word => negb (in_stop_words word)) text in
  length (extract_key_phrases text)
  = (if length words <=? 2 then 0 else if length words <=? 4 then 1 else 2)
  /\ Forall (fun phrase => length phrase = 3
                           /\ Forall (fun c => in_stop_words c = false) phrase)
            (extract_key_phrases text).
Proof. apply extract_key_phrases_facts. Qed.





Lemma h1_title_relation_empty b :
  b <> [] -> h1_title_relation [] b = RelContained.
Proof. intros Hb. destruct b as [|c b]; [congruence|]. reflexivity. Qed.


(** ** What check_h1 and check_image_alt report *)

(** X6.  Without H1 the missing line is printed and nothing else.  With H1
    tags, every one gets a state line, the warning for several H1 is
    printed exactly when there is more than one, and the relation with the
    title is examined exactly when the title is not empty, on the first H1
    alone.  An empty first H1 is then reported as contained in the
    title. *)
Theorem check_h1_report soup :
  let h1_tags := find_all [lit "h1"] soup in
  let page_title :=
    match find (lit "title") soup with
    | Some title_tag => get_text_strip [] title_tag
    | None => []
    end in
  let r := (check_h1 soup).1 in
  (h1_tags = [] ->
   check_h1 soup = ({| h1_missing := true; h1_states := [];
                       h1_multiple := false; h1_relation := None |}, false))
  /\ (forall h rest,
         h1_tags = h :: rest ->
         h1_missing r = false
         /\ length (h1_states r) = length h1_tags
         /\ (h1_multiple r = true <-> rest <> [])
         /\ (page_title = [] -> h1_relation r = None)
         /\ (page_title <> [] ->
             h1_relation r
             = Some (h1_title_relation (get_text_strip [] h) page_title))
         /\ (get_text_strip [] h = [] -> page_title <> [] ->
             h1_relation r = Some RelContained
             /\ head (h1_states r) = Some H1Empty)).
Proof.
  intros h1_tags page_title r. unfold r, check_h1.
  fold h1_tags. fold page_title. clearbody page_title.
  split.
  - intros ->. reflexivity.
  - intros h rest ->. cbn [length Nat.eqb fst List.map].
    cbn [h1_missing h1_states h1_multiple h1_relation].
    split; [reflexivity|]. split; [cbn [length]; rewrite !length_map; reflexivity|].
    split.
    { destruct rest; cbn; split; (congruence || discriminate || auto). }
    split; [intros ->; reflexivity|].
    assert (P : page_title <> [] ->
                (if nonempty page_title && (1 <=? S (length rest))
                 then Some (h1_title_relation (get_text_strip [] h) page_title)
                 else None)
                = Some (h1_title_relation (get_text_strip [] h) page_title)).
    { intros Hp. destruct page_title; [congruence|]. reflexivity. }
    split; [exact P|].
    intros E Hp. rewrite (P Hp), E. split.
    + f_equal. apply h1_title_relation_empty, Hp.
    + reflexivity.
Qed.

Lemma find_all_length_zero names soup :
  length (find_all names soup) = 0 -> find_all names soup = [].
Proof. destruct (find_all names soup); [reflexivity|discriminate]. Qed.

(** X7.  The examples [check_image_alt] prints are the sources of the
    first five images that lack alt, in the order of the page, each cut to
    50 characters, with the default text for an image without src; the
    images that lack alt are the [img] tags of the page whose alt is
    absent or empty.  The value is true exactly when there is no example
    to print, which is when the result line is the information line or
    the check mark. *)
Theorem check_image_alt_examples soup :
  let missing := List.filter lacks_alt (find_all [lit "img"] soup) in
  let r := check_image_alt soup in
  img_examples r.1
  = List.map (fun img =>
                List.firstn 50 (default no_src (get_attr img (lit "src"))))
             (List.firstn 5 missing)
  /\ missing
     = List.filter (fun d => is_tag d && str_eqb (tag_name d) (lit "img")
                             && negb (nonempty (get_attr_default d (lit "alt"))))
                   (descendants soup)
  /\ length (img_examples r.1) = Nat.min 5 (length missing)
  /\ Forall (fun src => length src <= 50) (img_examples r.1)
  /\ (r.2 = true <-> img_examples r.1 = [])
  /\ (r.2 = true <->
      image_status (img_finding r.1) = INFO
      \/ image_status (img_finding r.1) = PASS).
Proof.
  intros missing r.
  assert (M : missing
              = List.filter
                  (fun d => is_tag d && str_eqb (tag_name d) (lit "img")
                            && negb (nonempty (get_attr_default d (lit "alt"))))
                  (descendants soup)).
  { unfold missing, find_all, find_all_by.
    induction (descendants soup) as [|d l IH]; [reflexivity|].
    cbn [List.filter]. unfold has_name at 1 3. cbn [existsb].
    rewrite orb_false_r.
    destruct (is_tag d && str_eqb (tag_name d) (lit "img")) eqn:E;
      cbn [andb List.filter].
    - rewrite IH. unfold lacks_alt at 1, get_attr_default.
      destruct (get_attr d (lit "alt")) as [v|]; reflexivity.
    - exact IH. }
  split; [|split; [exact M|]]; clear M; unfold r, check_image_alt.
  { destruct (Nat.eqb_spec (length (find_all [lit "img"] soup)) 0) as [Z|Z].
    { unfold missing. rewrite (find_all_length_zero _ _ Z). reflexivity. }
    fold missing.
    destruct (Nat.eqb_spec (length missing) 0) as [E|E]; [|reflexivity].
    destruct missing; [reflexivity|discriminate]. }
  destruct (Nat.eqb_spec (length (find_all [lit "img"] soup)) 0) as [Z|Z].
  { unfold missing. rewrite (find_all_length_zero _ _ Z).
    cbn. repeat split; auto. }
  fold missing.
  destruct (Nat.eqb_spec (length missing) 0) as [E|E].
  { rewrite E. cbn. repeat split; auto. }
  cbn [fst snd img_examples img_finding]. split; [|split; [|split]].
  - rewrite length_map, length_take. reflexivity.
  - apply Forall_forall. intros src Hs.
    apply list_elem_of_In, in_map_iff in Hs. destruct Hs as (img & <- & _).
    rewrite length_take. lia.
  - split; [discriminate|]. intros H. exfalso.
    destruct missing as [|m ms]; [simpl in E; lia|]. discriminate.
  - split; [discriminate|]. unfold image_band.
    destruct (Nat.eqb_spec (length missing) 0); [contradiction|].
    destruct (_ <? 20)%float; [intros [?|?]; discriminate|].
    destruct (_ <? 50)%float; intros [?|?]; discriminate.
Qed.

(** ** Normal forms of urls *)

Lemma rstrip_by_fixed_last p r c :
  rstrip_by p r = r -> last r = Some c -> p c = false.
Proof.
  unfold rstrip_by. intros E L.
  pose proof (lstrip_by_head p (rev r)) as Hd.
  assert (R : lstrip_by p (rev r) = rev r).
  { rewrite <- E at 2. rewrite rev_involutive. reflexivity. }
  rewrite R in Hd.
  destruct (rev r) as [|x t] eqn:Er.
  - apply (f_equal (@rev N)) in Er. rewrite rev_involutive in Er.
    subst r. discriminate.
  - apply (f_equal (@rev N)) in Er. rewrite rev_involutive in Er.
    subst r. cbn [rev] in L. rewrite last_snoc in L. congruence.
Qed.

(** X8.  A normalized url holds no query mark, no fragment mark, no tab and no
    line end, and does not end with a slash. *)
Theorem normalize_url_normal_form K u r :
  normalize_url K u = Some r ->
  has_char (ch "?") r = false /\ has_char (ch "#") r = false
  /\ has_char 9 r = false /\ has_char 13 r = false /\ has_char 10 r = false
  /\ last r <> Some (ch "/").
Proof.
  intros H.
  destruct (normalize_url_shape _ _ _ H) as ((H9 & H13 & H10) & Hh & Hq & Hr).
  repeat split; try (apply has_char_false; assumption).
  intros L. pose proof (rstrip_by_fixed_last _ _ _ Hr L) as F. discriminate.
Qed.

Lemma normalize_url_normal_form_witness :
  last (lit "a.com/p") <> Some (ch "/").
Proof.
  apply (normalize_url_normal_form CPython.netloc_checks
           (lit "https://a.com/p//?x=1#top") (lit "a.com/p")).
  reflexivity.
Defined.

(** X9.  [check_canonical] does not parse any url when the page has no
    canonical link or the link has an empty href.  It fails with the
    error of [urlparse] exactly when the link has an href and one of the
    two urls does not parse; and it returns true only with the
    self-reference line. *)
Theorem check_canonical_errors K soup current_url :
  (find_by is_canonical_link soup = None ->
   check_canonical K soup current_url = Some (CanonMissing, false))
  /\ (forall canonical_tag,
         find_by is_canonical_link soup = Some canonical_tag ->
         let canonical_url :=
           strip (get_attr_default canonical_tag (lit "href")) in
         (canonical_url = [] ->
          check_canonical K soup current_url = Some (CanonEmptyHref, false))
         /\ (canonical_url <> [] ->
             (check_canonical K soup current_url = None <->
              normalize_url K current_url = None
              \/ normalize_url K canonical_url = None)))
  /\ (forall finding,
         check_canonical K soup current_url = Some (finding, true) ->
         finding = CanonSelf).
Proof.
  unfold check_canonical.
  destruct (find_by is_canonical_link soup) as [tag0|].
  - split; [discriminate|]. split.
    + intros canonical_tag [= <-]. cbv zeta.
      generalize (strip (get_attr_default tag0 (lit "href"))).
      intros canonical_url. split.
      * intros ->. reflexivity.
      * intros Hne. destruct canonical_url as [|c s]; [congruence|].
        cbn [nonempty negb].
        destruct (normalize_url K current_url) as [a|].
        -- destruct (normalize_url K (c :: s)) as [b|].
           ++ destruct (str_eqb a b); split; try discriminate;
                intros [?|?]; discriminate.
           ++ split; auto.
        -- split; auto.
    + intros finding.
      destruct (negb _); [discriminate|].
      destruct (normalize_url K current_url) as [a|]; [|discriminate].
      destruct (normalize_url K _) as [b|]; [|discriminate].
      destruct (str_eqb a b); [|discriminate]. intros [= <-]. reflexivity.
  - split; [reflexivity|]. split; [discriminate|].
    intros finding. discriminate.
Qed.

(** ** Urls that differ in the scheme, the query or the fragment *)

Lemma split_scheme_http r :
  split_scheme (clean_url (lit "http://" ++ r))
  = (lit "http", lit "//" ++ clean_tail r).
Proof. reflexivity. Qed.

Lemma split_scheme_https r :
  split_scheme (clean_url (lit "https://" ++ r))
  = (lit "https", lit "//" ++ clean_tail r).
Proof. reflexivity. Qed.

Lemma split_scheme_relative r :
  split_scheme (clean_url (lit "//" ++ r)) = ([], lit "//" ++ clean_tail r).
Proof.
  change (clean_url (lit "//" ++ r)) with (lit "//" ++ clean_tail r).
  unfold split_scheme.
  destruct (str_find (ch ":") (lit "//" ++ clean_tail r)) as [[|i]|]; reflexivity.
Qed.

(** X10.  The scheme does not count: a url has the same normal form with
    [http://], with [https://] and with a bare [//] in front of the same
    rest. *)
Theorem normalize_url_scheme K r :
  normalize_url K (lit "http://" ++ r) = normalize_url K (lit "https://" ++ r)
  /\ normalize_url K (lit "//" ++ r) = normalize_url K (lit "https://" ++ r).
Proof.
  unfold normalize_url, urlparse, urlsplit.
  rewrite split_scheme_http, split_scheme_https, split_scheme_relative.
  destruct (split_location K _) as [[netloc rest]|]; [|split; reflexivity].
  destruct (_ && _); split; reflexivity.
Qed.

Lemma lstrip_by_app_keep p u c t :
  p c = false -> lstrip_by p (u ++ c :: t) = lstrip_by p u ++ c :: t.
Proof.
  intros Hc. induction u as [|x u IH]; simpl; [rewrite Hc; reflexivity|].
  destruct (p x); [exact IH|reflexivity].
Qed.

Lemma clean_tail_app u v : clean_tail (u ++ v) = clean_tail u ++ clean_tail v.
Proof.
  unfold clean_tail, remove_char. cbn [fold_left].
  rewrite !List.filter_app. reflexivity.
Qed.

Lemma clean_url_app u c t :
  is_c0_control_or_space c = false -> clean_tail [c] = [c] ->
  clean_url (u ++ c :: t) = clean_url u ++ c :: clean_tail t.
Proof.
  intros H0 Hc.
  change (clean_url (u ++ c :: t))
    with (clean_tail (lstrip_by is_c0_control_or_space (u ++ c :: t))).
  rewrite (lstrip_by_app_keep _ _ _ _ H0).
  change (c :: t) with ([c] ++ t). rewrite !clean_tail_app, Hc. reflexivity.
Qed.

Lemma str_find_app_some x v w i :
  str_find x v = Some i -> str_find x (v ++ w) = Some i /\ i < length v.
Proof.
  revert i. induction v as [|y v IH]; intros i; simpl; [discriminate|].
  destruct (x =? y)%N.
  - intros [= <-]. split; [reflexivity|lia].
  - destruct (str_find x v) as [j|]; [|discriminate].
    intros [= <-]. destruct (IH j eq_refl) as [E L]. rewrite E.
    split; [reflexivity|lia].
Qed.

Lemma str_find_app_none x v w :
  str_find x v = None ->
  str_find x (v ++ w) = option_map (fun i => length v + i) (str_find x w).
Proof.
  induction v as [|y v IH]; simpl.
  - intros _. destruct (str_find x w); reflexivity.
  - destruct (x =? y)%N; [discriminate|].
    destruct (str_find x v) as [j|]; [discriminate|]. intros _.
    rewrite (IH eq_refl). destruct (str_find x w); reflexivity.
Qed.

Lemma forallb_take_past f (v : pystr) c t k :
  f c = false -> forallb f (List.firstn (length v + S k) (v ++ c :: t)) = false.
Proof.
  intros Hc. rewrite take_app_add, forallb_app. cbn [List.firstn forallb].
  rewrite Hc. cbn [andb]. apply andb_false_r.
Qed.

(** A character that no scheme holds, put after a url with what follows
    it, leaves the scheme as it is. *)
Lemma split_scheme_app v c t :
  is_scheme_char c = false -> (ch ":" =? c)%N = false ->
  split_scheme (v ++ c :: t)
  = ((split_scheme v).1, (split_scheme v).2 ++ c :: t).
Proof.
  intros Hs Hc. unfold split_scheme.
  destruct (str_find (ch ":") v) as [i|] eqn:F.
  - destruct (str_find_app_some _ _ (c :: t) _ F) as [F' L]. rewrite F'.
    destruct i as [|i']; [destruct v; reflexivity|].
    destruct v as [|c0 v']; [discriminate|].
    rewrite (take_app_le (c0 :: v')) by lia.
    rewrite (drop_app_le (c0 :: v')) by lia.
    change ((c0 :: v') ++ c :: t) with (c0 :: (v' ++ c :: t)).
    cbv iota.
    destruct (is_ascii_alpha c0 && _); reflexivity.
  - rewrite (str_find_app_none _ _ (c :: t) F). cbn [str_find]. rewrite Hc.
    destruct (str_find (ch ":") t) as [k|]; cbn [option_map fst snd];
      [|reflexivity].
    rewrite Nat.add_succ_r. cbv iota.
    pose proof (forallb_take_past is_scheme_char v c t k Hs) as P.
    rewrite Nat.add_succ_r in P. rewrite P.
    destruct (v ++ c :: t) as [|c1 rest]; [reflexivity|].
    rewrite andb_false_r. reflexivity.
Qed.

Lemma undelimited_take s :
  List.firstn (length (undelimited s)) s = undelimited s
  /\ List.skipn (length (undelimited s)) s = from_delim s.
Proof.
  induction s as [|x s [IH1 IH2]]; [split; reflexivity|].
  cbn [undelimited from_delim]. destruct (is_delim x); [split; reflexivity|].
  cbn [length List.firstn List.skipn]. rewrite IH1, IH2. split; reflexivity.
Qed.

(** The index where [_splitnetloc] cuts, counted in characters. *)
Lemma splitnetloc_delim s :
  fold_left (fun delim c =>
               match option_map (fun i => 2 + i) (str_find c s) with
               | Some wdelim => Nat.min delim wdelim
               | None => delim
               end)
            [ch "/"; ch "?"; ch "#"] (2 + length s)
  = 2 + length (undelimited s).
Proof.
  induction s as [|x s IH]; [reflexivity|].
  cbn [fold_left str_find undelimited] in *. unfold is_delim.
  destruct (ch "/" =? x)%N; destruct (ch "?" =? x)%N; destruct (ch "#" =? x)%N;
    destruct (str_find (ch "/") s); destruct (str_find (ch "?") s);
    destruct (str_find (ch "#") s);
    cbn [option_map orb length] in *; lia.
Qed.

Lemma splitnetloc_chars a b s :
  splitnetloc (a :: b :: s) 2 = (undelimited s, from_delim s).
Proof.
  unfold splitnetloc, slice, str_find_from.
  change (List.skipn 2 (a :: b :: s)) with s.
  change (length (a :: b :: s)) with (2 + length s).
  rewrite splitnetloc_delim.
  replace (2 + length (undelimited s) - 2) with (length (undelimited s)) by lia.
  change (List.skipn (2 + length (undelimited s)) (a :: b :: s))
    with (List.skipn (length (undelimited s)) s).
  destruct (undelimited_take s) as [-> ->]. reflexivity.
Qed.

Lemma undelimited_app s c t :
  is_delim c = true ->
  undelimited (s ++ c :: t) = undelimited s
  /\ from_delim (s ++ c :: t) = from_delim s ++ c :: t.
Proof.
  intros Hc. induction s as [|x s [IH1 IH2]].
  - cbn. rewrite Hc. split; reflexivity.
  - cbn [app undelimited from_delim]. destruct (is_delim x).
    + split; reflexivity.
    + rewrite IH1, IH2. split; reflexivity.
Qed.

Lemma str_eqb_take2_short (w : pystr) :
  length w < 2 -> str_eqb (List.firstn 2 w) (lit "//") = false.
Proof.
  intros L. unfold str_eqb. apply bool_decide_eq_false. intros E.
  apply (f_equal (@length N)) in E. rewrite length_take in E.
  change (length (lit "//")) with 2 in E. lia.
Qed.

(** A query mark or a fragment mark, put after a url with what follows
    it, leaves the location as it is. *)
Lemma split_location_app K w c t :
  is_delim c = true -> (ch "/" =? c)%N = false ->
  split_location K (w ++ c :: t)
  = option_map (fun p => (p.1, p.2 ++ c :: t)) (split_location K w).
Proof.
  intros Hd Hc.
  destruct w as [|a [|b s]].
  - unfold split_location. rewrite (str_eqb_take2_short []) by (simpl; lia).
    assert (E : str_eqb (List.firstn 2 ([] ++ c :: t)) (lit "//") = false).
    { unfold str_eqb. apply bool_decide_eq_false. intros E.
      destruct t; cbn in E; injection E as -> ; discriminate. }
    rewrite E. reflexivity.
  - unfold split_location. rewrite (str_eqb_take2_short [a]) by (simpl; lia).
    assert (E : str_eqb (List.firstn 2 ([a] ++ c :: t)) (lit "//") = false).
    { unfold str_eqb. apply bool_decide_eq_false. intros E.
      cbn in E. injection E as _ ->. discriminate. }
    rewrite E. reflexivity.
  - unfold split_location.
    change ((a :: b :: s) ++ c :: t) with (a :: b :: (s ++ c :: t)).
    change (List.firstn 2 (a :: b :: (s ++ c :: t))) with [a; b].
    change (List.firstn 2 (a :: b :: s)) with [a; b].
    destruct (str_eqb [a; b] (lit "//")); [|reflexivity].
    rewrite !splitnetloc_chars.
    destruct (undelimited_app s c t Hd) as [-> ->].
    destruct (_ || _); [reflexivity|].
    destruct (_ && _); reflexivity.
Qed.

Lemma cut_at_app x (r w : pystr) :
  cut_at x (r ++ w)
  = if has_char x r then cut_at x r else r ++ cut_at x w.
Proof.
  unfold cut_at. destruct (str_find x r) as [i|] eqn:F.
  - destruct (str_find_app_some _ _ w _ F) as [F' L]. rewrite F'.
    rewrite take_app_le by lia.
    destruct (has_char x r) eqn:H; [reflexivity|].
    apply has_char_false, str_find_none in H. congruence.
  - rewrite (str_find_app_none _ _ w F).
    assert (H : has_char x r = false) by (apply has_char_false, str_find_none, F).
    rewrite H. destruct (str_find x w) as [j|]; cbn [option_map]; [|reflexivity].
    rewrite take_app_add. reflexivity.
Qed.

Lemma cut_at_head x t : cut_at x (x :: t) = [].
Proof. unfold cut_at. cbn [str_find]. rewrite N.eqb_refl. reflexivity. Qed.

Lemma cut_at_cons x c t :
  (x =? c)%N = false -> cut_at x (c :: t) = c :: cut_at x t.
Proof.
  intros H. unfold cut_at. cbn [str_find]. rewrite H.
  destruct (str_find x t); reflexivity.
Qed.

Lemma cut_at_no_char x r : has_char x r = false -> cut_at x r = r.
Proof. intros H. apply cut_at_id, has_char_false, H. Qed.

Lemma cut_query_fragment_app r c t :
  c = ch "?" \/ c = ch "#" ->
  cut_at (ch "?") (cut_at (ch "#") (r ++ c :: t))
  = cut_at (ch "?") (cut_at (ch "#") r).
Proof.
  intros Hc. rewrite (cut_at_app (ch "#")).
  destruct (has_char (ch "#") r) eqn:Hh; [reflexivity|].
  rewrite (cut_at_no_char _ _ Hh). destruct Hc as [->| ->].
  - rewrite cut_at_cons by reflexivity. rewrite (cut_at_app (ch "?")).
    destruct (has_char (ch "?") r) eqn:Hq; [reflexivity|].
    rewrite cut_at_head, app_nil_r, (cut_at_no_char _ _ Hq). reflexivity.
  - rewrite cut_at_head, app_nil_r. reflexivity.
Qed.

Lemma urlsplit_app K u c t :
  c = ch "?" \/ c = ch "#" -> urlsplit K (u ++ c :: t) = urlsplit K u.
Proof.
  intros Hc. unfold urlsplit.
  assert (P : is_c0_control_or_space c = false /\ clean_tail [c] = [c]
              /\ is_scheme_char c = false /\ (ch ":" =? c)%N = false
              /\ is_delim c = true /\ (ch "/" =? c)%N = false).
  { destruct Hc as [->| ->]; repeat split. }
  destruct P as (P1 & P2 & P3 & P4 & P5 & P6).
  rewrite (clean_url_app _ _ _ P1 P2), (split_scheme_app _ _ _ P3 P4).
  destruct (split_scheme (clean_url u)) as [scheme v]. cbn [fst snd].
  rewrite (split_location_app _ _ _ _ P5 P6).
  destruct (split_location K v) as [[netloc rest]|]; cbn [option_map fst snd];
    [|reflexivity].
  rewrite (cut_query_fragment_app _ _ _ Hc). reflexivity.
Qed.

(** X11.  The query and the fragment do not count: whatever follows a [?] or a
    [#] put after a url, the normal form is that of the url. *)
Theorem normalize_url_query_fragment K u t :
  normalize_url K (u ++ lit "?" ++ t) = normalize_url K u
  /\ normalize_url K (u ++ lit "#" ++ t) = normalize_url K u.
Proof.
  unfold normalize_url, urlparse.
  change (lit "?" ++ t) with (ch "?" :: t).
  change (lit "#" ++ t) with (ch "#" :: t).
  rewrite !urlsplit_app by auto. split; reflexivity.
Qed.

(** ** Urls that differ by a trailing slash *)

Lemma has_char_split c (u : pystr) :
  has_char c u = true -> exists v t, u = v ++ c :: t.
Proof.
  unfold has_char. intros H. apply existsb_exists in H.
  destruct H as (x & I & E). apply N.eqb_eq in E. subst x.
  apply in_split in I. exact I.
Qed.

Lemma free_clean_url p u : free p u -> free p (clean_url u).
Proof.
  intros H. unfold clean_url. cbn [fold_left].
  repeat apply free_filter. apply free_lstrip_by, H.
Qed.

Lemma rstrip_by_snoc p (s : pystr) c :
  p c = true -> rstrip_by p (s ++ [c]) = rstrip_by p s.
Proof.
  intros H. unfold rstrip_by. rewrite rev_app_distr. cbn [rev app lstrip_by].
  rewrite H. reflexivity.
Qed.

(** The location of a url with one more slash, but for the url [/]. *)
Lemma split_location_slash K w :
  w <> lit "/" ->
  split_location K (w ++ lit "/")
  = option_map (fun p => (p.1, p.2 ++ lit "/")) (split_location K w).
Proof.
  intros Hw.
  destruct w as [|a [|b s]].
  - reflexivity.
  - unfold split_location. rewrite (str_eqb_take2_short [a]) by (simpl; lia).
    assert (E : str_eqb (List.firstn 2 ([a] ++ lit "/")) (lit "//") = false).
    { unfold str_eqb. apply bool_decide_eq_false. intros E.
      cbn in E. apply Hw. injection E as ->. reflexivity. }
    rewrite E. reflexivity.
  - unfold split_location.
    change ((a :: b :: s) ++ lit "/") with (a :: b :: (s ++ ch "/" :: [])).
    change (List.firstn 2 (a :: b :: (s ++ ch "/" :: []))) with [a; b].
    change (List.firstn 2 (a :: b :: s)) with [a; b].
    destruct (str_eqb [a; b] (lit "//")); [|reflexivity].
    rewrite !splitnetloc_chars.
    destruct (undelimited_app s (ch "/") [] eq_refl) as [-> ->].
    destruct (_ || _); [reflexivity|].
    destruct (_ && _); reflexivity.
Qed.

Lemma split_location_free K p url netloc rest :
  free p url -> split_location K url = Some (netloc, rest) -> free p rest.
Proof.
  intros F H. destruct (split_location_some _ _ _ _ H) as [[_ ->]|[_ ->]];
    [exact F|apply splitnetloc_sub, F].
Qed.

(** ** Urls that differ in the scheme *)

Lemma scheme_char_facts c :
  is_scheme_char c = true ->
  (ch ":" =? c)%N = false /\ negb (9 =? c)%N = true /\ negb (13 =? c)%N = true
  /\ negb (10 =? c)%N = true.
Proof.
  unfold is_scheme_char, is_ascii_alpha. intros H.
  assert (B : (43 <= c)%N).
  { rewrite !orb_true_iff, !andb_true_iff, !N.leb_le, !N.eqb_eq in H. lia. }
  assert (C : c <> 58%N).
  { rewrite !orb_true_iff, !andb_true_iff, !N.leb_le, !N.eqb_eq in H. lia. }
  repeat split.
  - apply N.eqb_neq. intros E. apply C. rewrite <- E. reflexivity.
  - apply negb_true_iff, N.eqb_neq. lia.
  - apply negb_true_iff, N.eqb_neq. lia.
  - apply negb_true_iff, N.eqb_neq. lia.
Qed.

Lemma clean_tail_scheme s : forallb is_scheme_char s = true -> clean_tail s = s.
Proof.
  unfold clean_tail, remove_char. cbn [fold_left].
  induction s as [|c s IH]; [reflexivity|].
  cbn [forallb]. intros H. apply andb_true_iff in H. destruct H as [Hc Hs].
  destruct (scheme_char_facts _ Hc) as (_ & A & B & C).
  cbn [List.filter]. rewrite A. cbn [List.filter]. rewrite B.
  cbn [List.filter]. rewrite C. f_equal. apply IH, Hs.
Qed.

Lemma str_find_scheme s t :
  forallb is_scheme_char s = true ->
  str_find (ch ":") (s ++ ch ":" :: t) = Some (length s).
Proof.
  induction s as [|c s IH]; [reflexivity|].
  cbn [forallb]. intros H. apply andb_true_iff in H. destruct H as [Hc Hs].
  destruct (scheme_char_facts _ Hc) as (A & _).
  cbn [app str_find]. rewrite A, (IH Hs). reflexivity.
Qed.

Lemma split_scheme_any scheme r :
  is_scheme scheme = true ->
  split_scheme (clean_url (scheme ++ lit "://" ++ r))
  = (lower scheme, lit "//" ++ clean_tail r).
Proof.
  intros H. destruct scheme as [|c s]; [discriminate|].
  cbn [is_scheme] in H. apply andb_true_iff in H. destruct H as [Ha Hs].
  assert (H0 : is_c0_control_or_space c = false).
  { unfold is_ascii_alpha in Ha. unfold is_c0_control_or_space.
    apply N.leb_gt.
    rewrite !orb_true_iff, !andb_true_iff, !N.leb_le in Ha. lia. }
  change (clean_url ((c :: s) ++ lit "://" ++ r))
    with (clean_tail (lstrip_by is_c0_control_or_space
                        ((c :: s) ++ lit "://" ++ r))).
  cbn [app lstrip_by]. rewrite H0.
  change (c :: s ++ lit "://" ++ r) with ((c :: s) ++ lit "://" ++ r).
  rewrite !clean_tail_app, (clean_tail_scheme _ Hs).
  change (clean_tail (lit "://")) with (lit "://").
  unfold split_scheme.
  change (lit "://" ++ clean_tail r) with (ch ":" :: lit "//" ++ clean_tail r).
  rewrite (str_find_scheme _ _ Hs).
  cbn [length app].
  change (c :: s ++ ch ":" :: lit "//" ++ clean_tail r)
    with ((c :: s) ++ ch ":" :: lit "//" ++ clean_tail r).
  rewrite (take_app_length' (c :: s)) by reflexivity.
  rewrite Ha, Hs. cbn [andb].
  f_equal.
  replace (S (length s) + 1) with (length ((c :: s) ++ [ch ":"]))
    by (rewrite length_app; reflexivity).
  change ((c :: s) ++ ch ":" :: lit "//" ++ clean_tail r)
    with ((c :: s) ++ [ch ":"] ++ lit "//" ++ clean_tail r).
  rewrite app_assoc. apply drop_app_length.
Qed.

Lemma free_cut_at_any p c s : free p s -> free p (cut_at c s).
Proof.
  intros H. unfold cut_at. destruct (str_find c s); [apply Forall_take, H|exact H].
Qed.

(** Two schemes in front of the same rest: the same normal form, when the
    rest holds no semicolon or both schemes, or neither, take parameters. *)
Lemma normalize_url_schemes K s1 s2 r :
  is_scheme s1 = true -> is_scheme s2 = true ->
  has_char (ch ";") r = false
  \/ existsb (str_eqb (lower s1)) uses_params
     = existsb (str_eqb (lower s2)) uses_params ->
  normalize_url K (s1 ++ lit "://" ++ r) = normalize_url K (s2 ++ lit "://" ++ r).
Proof.
  intros H1 H2 H. unfold normalize_url, urlparse, urlsplit.
  rewrite (split_scheme_any _ _ H1), (split_scheme_any _ _ H2).
  destruct (split_location K (lit "//" ++ clean_tail r))
    as [[netloc rest]|] eqn:E; [|reflexivity].
  destruct (_ && _); [reflexivity|]. cbn [sr_scheme sr_netloc sr_path].
  destruct H as [H|H]; [|rewrite H; reflexivity].
  assert (G : free (N.eqb (ch ";")) (lit "//" ++ clean_tail r)).
  { apply has_char_false in H.
    apply Forall_app. split; [repeat constructor|].
    unfold clean_tail. cbn [fold_left]. repeat apply free_filter. exact H. }
  assert (F : free (N.eqb (ch ";")) (cut_at (ch "?") (cut_at (ch "#") rest))).
  { apply free_cut_at_any, free_cut_at_any.
    apply (split_location_free _ _ _ _ _ G E). }
  apply has_char_false in F. rewrite F, !andb_false_r. reflexivity.
Qed.

(** One slash more at the end of a url without query, fragment and
    parameters: the same scheme and location, the path with one slash
    more, or [/] for an empty path. *)
Lemma normalize_url_slash_plain K u :
  has_char (ch "?") u = false -> has_char (ch "#") u = false ->
  has_char (ch ";") u = false ->
  normalize_url K (u ++ lit "/") = normalize_url K u.
Proof.
  intros Hq Hh Hs. apply has_char_false in Hq, Hh, Hs.
  unfold normalize_url, urlparse, urlsplit.
  change (lit "/") with (ch "/" :: []).
  rewrite (clean_url_app u (ch "/") []) by reflexivity.
  rewrite (split_scheme_app _ (ch "/") []) by reflexivity.
  change (clean_tail []) with (@nil N).
  pose proof (split_scheme_free _ _ (free_clean_url _ _ Hq)) as Fq.
  pose proof (split_scheme_free _ _ (free_clean_url _ _ Hh)) as Fh.
  pose proof (split_scheme_free _ _ (free_clean_url _ _ Hs)) as Fs.
  destruct (split_scheme (clean_url u)) as [scheme w]. cbn [fst snd] in *.
  destruct (bool_decide_reflect (w = lit "/")) as [->|Hw].
  - assert (E1 : split_location K (lit "/" ++ [ch "/"]) = Some ([], []))
      by reflexivity.
    assert (E2 : split_location K (lit "/") = Some ([], lit "/"))
      by reflexivity.
    rewrite E1, E2. cbn [nonempty andb]. cbv iota beta.
    cbn [sr_scheme sr_netloc sr_path].
    change (cut_at (ch "?") (cut_at (ch "#") (lit "/"))) with (lit "/").
    change (cut_at (ch "?") (cut_at (ch "#") [])) with (@nil N).
    change (has_char (ch ";") (lit "/")) with false.
    change (has_char (ch ";") []) with false.
    rewrite !andb_false_r. reflexivity.
  - change (ch "/" :: []) with (lit "/").
    rewrite (split_location_slash _ _ Hw).
    destruct (split_location K w) as [[netloc rest]|] eqn:E;
      cbn [option_map fst snd]; [|reflexivity].
    pose proof (split_location_free _ _ _ _ _ Fq E) as Rq.
    pose proof (split_location_free _ _ _ _ _ Fh E) as Rh.
    pose proof (split_location_free _ _ _ _ _ Fs E) as Rs.
    assert (A : forall c, free (N.eqb c) rest -> (c =? ch "/")%N = false ->
                          free (N.eqb c) (rest ++ lit "/")).
    { intros c F Hc. apply Forall_app. split; [exact F|].
      constructor; [exact Hc|constructor]. }
    rewrite (cut_at_id (ch "#") (rest ++ lit "/")) by (apply A; auto).
    rewrite (cut_at_id (ch "?") (rest ++ lit "/")) by (apply A; auto).
    rewrite (cut_at_id (ch "#") rest) by exact Rh.
    rewrite (cut_at_id (ch "?") rest) by exact Rq.
    destruct (_ && _); [reflexivity|]. cbn [sr_netloc sr_path sr_scheme].
    rewrite (proj2 (has_char_false (ch ";") (rest ++ lit "/")))
      by (apply A; auto).
    rewrite (proj2 (has_char_false (ch ";") rest)) by exact Rs.
    rewrite !andb_false_r.
    change (lit "/") with [ch "/"]. rewrite rstrip_by_snoc by reflexivity.
    reflexivity.
Qed.

(** One slash more at the end of any url without parameters: what comes
    after a [?] or a [#] is not read. *)
Lemma normalize_url_slash K u :
  has_char (ch ";") u = false ->
  normalize_url K (u ++ lit "/") = normalize_url K u.
Proof.
  intros Hs.
  destruct (has_char (ch "?") u) eqn:Hq.
  { destruct (has_char_split _ _ Hq) as (v & t & ->).
    unfold normalize_url, urlparse. rewrite <- app_assoc.
    change ((ch "?" :: t) ++ lit "/") with (ch "?" :: (t ++ lit "/")).
    rewrite !urlsplit_app by auto. reflexivity. }
  destruct (has_char (ch "#") u) eqn:Hh.
  { destruct (has_char_split _ _ Hh) as (v & t & ->).
    unfold normalize_url, urlparse. rewrite <- app_assoc.
    change ((ch "#" :: t) ++ lit "/") with (ch "#" :: (t ++ lit "/")).
    rewrite !urlsplit_app by auto. reflexivity. }
  apply normalize_url_slash_plain; assumption.
Qed.

(** C8, amended.  Normalizing a url a second time changes nothing whenever
    its normal form has no colon and no semicolon and begins neither with
    [//] nor with a control character or a space.  A url has the same
    normal form with [http://] and with [https://] in front of the same
    rest, and so it has with any two schemes when it holds no semicolon
    or when both schemes, or neither, take parameters; a url without
    semicolon has the same normal form with one more slash at its end:
    so [https://a.com/p/] and [http://a.com/p] have the same normal
    form.  On a page with a canonical link whose stripped
    href is not empty, when both urls parse, [check_canonical] reports a
    self-reference (PASS, value true) exactly when the two normal forms
    are equal, as for the page [https://ex.com/page/] with canonical
    [https://ex.com/page]. *)
Theorem normalize_url_canonical K :
  (forall u r,
      normalize_url K u = Some r ->
      has_char (ch ":") r = false -> has_char (ch ";") r = false ->
      startswith (lit "//") r = false ->
      (forall c, head r = Some c -> is_c0_control_or_space c = false) ->
      normalize_url K r = Some r)
  /\ (forall r,
         normalize_url K (lit "http://" ++ r)
         = normalize_url K (lit "https://" ++ r))
  /\ (forall scheme1 scheme2 r,
         is_scheme scheme1 = true -> is_scheme scheme2 = true ->
         has_char (ch ";") r = false
         \/ existsb (str_eqb (lower scheme1)) uses_params
            = existsb (str_eqb (lower scheme2)) uses_params ->
         normalize_url K (scheme1 ++ lit "://" ++ r)
         = normalize_url K (scheme2 ++ lit "://" ++ r))
  /\ (forall u,
         has_char (ch ";") u = false ->
         normalize_url K (u ++ lit "/") = normalize_url K u)
  /\ normalize_url K (lit "https://a.com/p/") = normalize_url K (lit "http://a.com/p")
  /\ normalize_url K (lit "http://a.com/p") = Some (lit "a.com/p")
  /\ (forall soup current_url canonical_tag a b,
         find_by is_canonical_link soup = Some canonical_tag ->
         strip (get_attr_default canonical_tag (lit "href")) <> [] ->
         normalize_url K current_url = Some a ->
         normalize_url K (strip (get_attr_default canonical_tag (lit "href")))
           = Some b ->
         (check_canonical K soup current_url = Some (CanonSelf, true) <-> a = b)
         /\ (a <> b ->
             check_canonical K soup current_url = Some (CanonOther, false)))
  /\ check_canonical K (page_with_canonical (lit "https://ex.com/page"))
                     (lit "https://ex.com/page/") = Some (CanonSelf, true)
  /\ canonical_status CanonSelf = PASS.
Proof.
  split; [|split; [|split; [|split; [|split; [|split; [|split; [|split]]]]]]];
    try reflexivity.
  - intros u r Hu Hc Hs Hss H0.
    destruct (normalize_url_shape _ _ _ Hu) as ((H9 & H13 & H10) & Hh & Hq & Hr).
    apply normalize_url_fixed; try assumption;
      try (apply has_char_false; assumption).
    destruct r as [|c r']; [exact I|]. apply H0. reflexivity.
  - intros r. unfold normalize_url, urlparse, urlsplit.
    rewrite split_scheme_http, split_scheme_https.
    destruct (split_location K _) as [[netloc rest]|]; [|reflexivity].
    destruct (_ && _); reflexivity.
  - apply normalize_url_schemes.
  - apply normalize_url_slash.
  - intros soup current_url canonical_tag a b Hf Hne Ha Hb.
    rewrite (check_canonical_found _ _ _ _ _ _ Hf Hne Ha Hb).
    unfold str_eqb. destruct (bool_decide_reflect (a = b)) as [E|E].
    + split; [split; auto|]. intros N. contradiction.
    + split; [split; [discriminate|contradiction]|]. reflexivity.
Qed.

Lemma normalize_url_canonical_witness :
  normalize_url CPython.netloc_checks (lit "https://a.com/p/") = Some (lit "a.com/p")
  /\ normalize_url CPython.netloc_checks (lit "a.com/p") = Some (lit "a.com/p")
  /\ normalize_url CPython.netloc_checks (lit "gopher" ++ lit "://" ++ lit "a.com/p")
     = normalize_url CPython.netloc_checks (lit "http" ++ lit "://" ++ lit "a.com/p")
  /\ normalize_url CPython.netloc_checks (lit "https://a.com/p?x=1" ++ lit "/")
     = normalize_url CPython.netloc_checks (lit "https://a.com/p?x=1").
Proof.
  destruct (normalize_url_canonical CPython.netloc_checks)
    as (Idem & _ & Schemes & Slash & _).
  split; [reflexivity|]. split; [|split].
  - apply (Idem (lit "https://a.com/p/")); try reflexivity.
    intros c [= <-]. reflexivity.
  - apply Schemes; [reflexivity|reflexivity|]. left. reflexivity.
  - apply Slash. reflexivity.
Defined.

(** ** What is left in the working copy *)

Lemma shallow_remove_tag i n : shallow (remove_tag i n) = shallow n.
Proof. destruct n; reflexivity. Qed.

Lemma shallow_is_tag x y : shallow x = shallow y -> is_tag x = is_tag y.
Proof. destruct x, y; simpl; congruence. Qed.

Lemma shallow_is_nid i x y : shallow x = shallow y -> is_nid i x = is_nid i y.
Proof.
  destruct x, y; cbn [shallow]; intros E; try discriminate; [reflexivity|].
  injection E as -> _ _. reflexivity.
Qed.

Lemma shallow_tag_id x y : shallow x = shallow y -> tag_id x = tag_id y.
Proof. destruct x, y; simpl; congruence. Qed.

Lemma shallow_has_name names x y :
  shallow x = shallow y -> has_name names x = has_name names y.
Proof.
  destruct x, y; cbn [shallow]; intros E; try discriminate; [reflexivity|].
  injection E as _ -> _. reflexivity.
Qed.

Lemma shallow_selector_matches sel x y :
  shallow x = shallow y -> selector_matches sel x = selector_matches sel y.
Proof.
  destruct x, y; cbn [shallow]; intros E; try discriminate; [reflexivity|].
  injection E as _ -> ->. reflexivity.
Qed.

(** Every element of the document without the tag [i] comes from an
    element of the document, other than the tag [i] when it is below the
    top. *)
Lemma subtree_remove_tag i n x :
  In x (subtree (remove_tag i n)) ->
  exists y, In y (subtree n) /\ shallow x = shallow y
            /\ (y = n \/ is_nid i y = false).
Proof.
  revert x. induction n as [cls s|j nm a cs IH] using Node_induction; intros x.
  - cbn. intros [<-|[]]. exists (Text cls s). cbn. auto.
  - cbn [remove_tag subtree]. intros [<-|Hx].
    + exists (Elem j nm a cs). split; [left; reflexivity|]. auto.
    + apply in_flat_map in Hx. destruct Hx as (c' & Hc' & Hx).
      apply in_flat_map in Hc'. destruct Hc' as (c & Hc & Hc').
      destruct (is_nid i c) eqn:E; [destruct Hc'|].
      destruct Hc' as [<-|[]].
      rewrite Forall_forall in IH.
      destruct (IH c (proj2 (list_elem_of_In _ _) Hc) x Hx) as (y & Hy & S & D).
      exists y. split.
      * right. apply in_flat_map. exists c. split; assumption.
      * split; [exact S|]. right. destruct D as [->|D]; assumption.
Qed.

Lemma descendants_remove_tag i n x :
  In x (descendants (remove_tag i n)) ->
  exists y, In y (descendants n) /\ shallow x = shallow y
            /\ is_nid i y = false.
Proof.
  destruct n as [cls s|j nm a cs]; [intros []|].
  unfold descendants. cbn [remove_tag children_of]. intros Hx.
  apply in_flat_map in Hx. destruct Hx as (c' & Hc' & Hx).
  apply in_flat_map in Hc'. destruct Hc' as (c & Hc & Hc').
  destruct (is_nid i c) eqn:E; [destruct Hc'|]. destruct Hc' as [<-|[]].
  destruct (subtree_remove_tag _ _ _ Hx) as (y & Hy & S & D).
  exists y. split; [apply in_flat_map; exists c; split; assumption|].
  split; [exact S|]. destruct D as [->|D]; assumption.
Qed.

Lemma descendants_remove_all ids n x :
  In x (descendants (remove_all ids n)) ->
  exists y, In y (descendants n) /\ shallow x = shallow y
            /\ Forall (fun i => is_nid i y = false) ids.
Proof.
  revert n. induction ids as [|i ids IH]; intros n Hx.
  - exists x. split; [exact Hx|]. split; [reflexivity|constructor].
  - rewrite remove_all_cons in Hx.
    destruct (IH _ Hx) as (y1 & Hy1 & S1 & F1).
    destruct (descendants_remove_tag _ _ _ Hy1) as (y & Hy & S & D).
    exists y. split; [exact Hy|]. split; [congruence|].
    constructor; [exact D|].
    apply Forall_forall. intros i' Hi'. rewrite Forall_forall in F1.
    rewrite <- (shallow_is_nid i' _ _ S). apply F1, Hi'.
Qed.

Lemma find_all_by_nil p n :
  find_all_by p n = []
  <-> forall x, In x (descendants n) -> is_tag x = true -> p x = false.
Proof.
  unfold find_all_by. split.
  - intros E x Hx T. destruct (p x) eqn:P; [|reflexivity].
    assert (I : In x (List.filter (fun d => is_tag d && p d) (descendants n))).
    { apply filter_In. rewrite T, P. auto. }
    rewrite E in I. destruct I.
  - intros H. destruct (List.filter _ _) as [|x l] eqn:E; [reflexivity|].
    assert (I : In x (List.filter (fun d => is_tag d && p d) (descendants n)))
      by (rewrite E; left; reflexivity).
    apply filter_In in I. destruct I as [I C].
    apply andb_true_iff in C. destruct C as [T P].
    rewrite (H x I T) in P. discriminate.
Qed.

(** Removing tags leaves no match where there was none. *)
Lemma find_all_by_remove_all p ids n :
  (forall x y, shallow x = shallow y -> p x = p y) ->
  find_all_by p n = [] -> find_all_by p (remove_all ids n) = [].
Proof.
  intros Hp E. apply find_all_by_nil. intros x Hx T.
  destruct (descendants_remove_all _ _ _ Hx) as (y & Hy & S & _).
  rewrite (Hp _ _ S). rewrite (shallow_is_tag _ _ S) in T.
  apply (proj1 (find_all_by_nil p n) E y Hy T).
Qed.

(** Removing the matches leaves no match. *)
Lemma find_all_by_removed p n :
  (forall x y, shallow x = shallow y -> p x = p y) ->
  find_all_by p (remove_all (omap tag_id (find_all_by p n)) n) = [].
Proof.
  intros Hp. apply find_all_by_nil. intros x Hx T.
  destruct (descendants_remove_all _ _ _ Hx) as (y & Hy & S & F).
  rewrite (Hp _ _ S). rewrite (shallow_is_tag _ _ S) in T.
  destruct (p y) eqn:P; [|reflexivity]. exfalso.
  destruct y as [cls s|i nm a cs]; [discriminate|].
  rewrite Forall_forall in F.
  assert (I : i ∈ omap tag_id (find_all_by p n)).
  { apply list_elem_of_omap. exists (Elem i nm a cs). split; [|reflexivity].
    apply list_elem_of_In. unfold find_all_by. apply filter_In.
    split; [exact Hy|]. cbn [is_tag andb]. exact P. }
  specialize (F i I). cbn in F. rewrite Nat.eqb_refl in F. discriminate.
Qed.

Lemma without_selected_keeps p selectors n :
  (forall x y, shallow x = shallow y -> p x = p y) ->
  find_all_by p n = [] -> find_all_by p (without_selected selectors n) = [].
Proof.
  intros Hp. unfold without_selected. revert n.
  induction selectors as [|sel selectors IH]; intros n E; [exact E|].
  cbn [fold_left]. apply IH, find_all_by_remove_all; assumption.
Qed.

Lemma without_selected_removed selectors n :
  Forall (fun sel => select sel (without_selected selectors n) = []) selectors.
Proof.
  revert n. induction selectors as [|sel selectors IH]; intros n; constructor.
  - unfold without_selected. cbn [fold_left].
    apply (without_selected_keeps (selector_matches sel)).
    + apply shallow_selector_matches.
    + apply (find_all_by_removed (selector_matches sel)),
        shallow_selector_matches.
  - apply IH.
Qed.

Lemma working_copy_clean body :
  find_all noise_tags (working_copy body) = []
  /\ Forall (fun selector => select selector (working_copy body) = [])
            nav_selectors.
Proof.
  unfold working_copy. split.
  - apply (without_selected_keeps (has_name noise_tags)).
    + apply shallow_has_name.
    + apply (find_all_by_removed (has_name noise_tags)), shallow_has_name.
  - apply without_selected_removed.
Qed.

(** The strings of the working copy are strings of the copy of the body,
    in the order they have there. *)
Lemma strings_of_remove_tag types i n :
  strings_of types (remove_tag i n) `sublist_of` strings_of types n.
Proof.
  induction n as [cls s|j nm a cs IH] using Node_induction; [reflexivity|].
  cbn [remove_tag]. rewrite !strings_of_elem.
  induction cs as [|c cs IHcs]; [reflexivity|].
  apply Forall_cons in IH. destruct IH as [Hc Hcs].
  cbn [List.flat_map]. destruct (is_nid i c).
  - cbn [app]. apply sublist_inserts_l, IHcs, Hcs.
  - cbn [app List.flat_map].
    apply sublist_app; [exact Hc|apply IHcs, Hcs].
Qed.

Lemma strings_of_remove_all types ids n :
  strings_of types (remove_all ids n) `sublist_of` strings_of types n.
Proof.
  revert n. induction ids as [|i ids IH]; intros n; [reflexivity|].
  rewrite remove_all_cons. etrans; [apply IH|apply strings_of_remove_tag].
Qed.

Lemma strings_of_without_selected types selectors n :
  strings_of types (without_selected selectors n) `sublist_of` strings_of types n.
Proof.
  unfold without_selected. revert n.
  induction selectors as [|sel selectors IH]; intros n; [reflexivity|].
  cbn [fold_left]. etrans; [apply IH|apply strings_of_remove_all].
Qed.

Lemma sublist_map {A B} (f : A -> B) l1 l2 :
  l1 `sublist_of` l2 -> List.map f l1 `sublist_of` List.map f l2.
Proof. induction 1; cbn [List.map]; constructor; assumption. Qed.

Lemma sublist_filter_list {A} (p : A -> bool) l1 l2 :
  l1 `sublist_of` l2 -> List.filter p l1 `sublist_of` List.filter p l2.
Proof.
  induction 1 as [|x l1 l2 _ IH|x l1 l2 _ IH]; cbn [List.filter].
  - constructor.
  - destruct (p x); [constructor|]; exact IH.
  - destruct (p x); [constructor|]; exact IH.
Qed.

Lemma join_cons_length sep (x : pystr) l :
  length (join sep l) <= length (join sep (x :: l)).
Proof.
  destruct l as [|y l]; [cbn; lia|].
  change (join sep (x :: y :: l)) with (x ++ sep ++ join sep (y :: l)).
  rewrite !length_app. lia.
Qed.

Lemma join_sublist_length sep l1 l2 :
  l1 `sublist_of` l2 -> length (join sep l1) <= length (join sep l2).
Proof.
  induction 1 as [|x l1 l2 S IH|x l1 l2 S IH].
  - reflexivity.
  - destruct l1 as [|y1 l1].
    + destruct l2 as [|y2 l2]; [reflexivity|].
      change (join sep (x :: y2 :: l2)) with (x ++ sep ++ join sep (y2 :: l2)).
      cbn [join]. rewrite length_app. lia.
    + destruct l2 as [|y2 l2]; [inversion S|].
      change (join sep (x :: y1 :: l1)) with (x ++ sep ++ join sep (y1 :: l1)).
      change (join sep (x :: y2 :: l2)) with (x ++ sep ++ join sep (y2 :: l2)).
      rewrite !length_app. lia.
  - etrans; [exact IH|apply join_cons_length].
Qed.

Lemma tag_name_copy_of n : tag_name (copy_of n) = tag_name n.
Proof. destruct n; reflexivity. Qed.

Lemma working_copy_text_length sep body :
  string_containers (tag_name body) = None ->
  length (get_text_strip sep (working_copy body))
  <= length (get_text_strip sep (copy_of body)).
Proof.
  intros C. destruct (working_copy_root body) as [_ R].
  rewrite (get_text_strip_plain _ _ R), get_text_strip_plain
    by (rewrite tag_name_copy_of; exact C).
  apply join_sublist_length, sublist_filter_list, sublist_map.
  unfold working_copy, without_noise.
  etrans; [apply strings_of_without_selected|].
  etrans; [apply strings_of_remove_all|].
  unfold BeautifulSoup. rewrite strings_of_elem. cbn [List.flat_map].
  rewrite app_nil_r. reflexivity.
Qed.

Lemma visibility_of_text_length body :
  vis_text_length (visibility_of body).1
  = Some (length (get_text_strip (lit " ") (working_copy body))).
Proof.
  unfold visibility_of.
  destruct (visibility_decision _ _ _) as [finding verdict]. reflexivity.
Qed.

(** X12.  On a page with a body, [check_initial_content] leaves two
    documents behind: the copy of the body and the working copy, which is
    the copy after the two loops.  The working copy holds no script,
    style, noscript, iframe, nav, header, footer, aside, form, button or
    input tag and no tag that one of the navigation selectors matches; the
    length the function reports is the length of its text, which is never
    more than the length of the text of the copy of the body, the text of
    the body itself when the strings of the body have the classes they get
    when the body is parsed on its own. *)
Theorem check_initial_content_working_copy soup (st : Store) doc body_tag :
  st !! soup = Some doc ->
  distinct_ids doc ->
  find (lit "body") doc = Some body_tag ->
  let temp := working_copy body_tag in
  exists result,
    check_initial_content soup st
    = Some (result, st ++ [BeautifulSoup [copy_of body_tag]; temp])
    /\ temp
       = without_selected nav_selectors
           (without_noise (BeautifulSoup [copy_of body_tag]))
    /\ find_all noise_tags temp = []
    /\ Forall (fun selector => select selector temp = []) nav_selectors
    /\ vis_text_length result.1
       = Some (length (get_text_strip (lit " ") temp))
    /\ length (get_text_strip (lit " ") temp)
       <= length (get_text_strip (lit " ") (copy_of body_tag))
    /\ (copy_of body_tag = body_tag ->
        length (get_text_strip (lit " ") temp)
        <= length (get_text_strip (lit " ") body_tag)).
Proof.
  intros H N Hf temp. destruct (body_deref _ _ Hf) as [_ Hb]. specialize (Hb N).
  assert (C : string_containers (tag_name body_tag) = None)
    by (rewrite (proj2 (find_name _ _ _ Hf)); reflexivity).
  exists (visibility_of body_tag).
  split; [apply (check_initial_content_run _ _ _ _ _ H Hf Hb)|].
  split; [reflexivity|].
  destruct (working_copy_clean body_tag) as [Z S].
  split; [exact Z|]. split; [exact S|].
  split; [apply visibility_of_text_length|].
  split; [apply working_copy_text_length, C|].
  intros E. pose proof (working_copy_text_length (lit " ") body_tag C) as W.
  rewrite E in W. exact W.
Qed.

Lemma check_initial_content_working_copy_witness :
  (exists result,
      check_initial_content 0 [page_header_paragraphs]
      = Some (result,
              [page_header_paragraphs;
               BeautifulSoup [copy_of header_paragraphs_body];
               working_copy header_paragraphs_body])
      /\ find_all noise_tags (working_copy header_paragraphs_body) = []
      /\ vis_text_length result.1 = Some 120
      /\ length (get_text_strip (lit " ") header_paragraphs_body) = 242)
  /\ (exists result,
         check_initial_content 0 [page_body_in_template]
         = Some (result,
                 [page_body_in_template;
                  BeautifulSoup [copy_of body_in_template];
                  working_copy body_in_template])
         /\ vis_text_length result.1 = Some 300
         /\ length (get_text_strip (lit " ") (copy_of body_in_template)) = 300
         /\ length (get_text_strip (lit " ") body_in_template) = 0).
Proof.
  split.
  - destruct (check_initial_content_working_copy 0 [page_header_paragraphs]
                page_header_paragraphs header_paragraphs_body
                eq_refl page_header_paragraphs_distinct eq_refl)
      as (result & R & _ & Z & _ & L & _).
    exists result. split; [exact R|]. split; [exact Z|].
    split; [exact L|reflexivity].
  - destruct (check_initial_content_working_copy 0 [page_body_in_template]
                page_body_in_template body_in_template
                eq_refl page_body_in_template_distinct eq_refl)
      as (result & R & _ & _ & _ & L & _).
    exists result. split; [exact R|]. split; [exact L|].
    split; reflexivity.
Defined.

(** ** A body that a selector matches *)

Lemma remove_all_no_children ids d :
  is_tag d = true -> children_of d = [] ->
  children_of (remove_all ids d) = [].
Proof.
  revert d. induction ids as [|i ids IH]; intros d T E; [exact E|].
  rewrite remove_all_cons. apply IH.
  - rewrite is_tag_remove_tag. exact T.
  - destruct d as [cls s|j nm a cs]; [discriminate|]. cbn in E. subst cs.
    reflexivity.
Qed.

Lemma without_selected_no_children selectors d :
  is_tag d = true -> children_of d = [] ->
  children_of (without_selected selectors d) = [].
Proof.
  unfold without_selected. revert d.
  induction selectors as [|sel selectors IH]; intros d T E; [exact E|].
  cbn [fold_left]. apply IH.
  - rewrite is_tag_remove_all. exact T.
  - apply remove_all_no_children; assumption.
Qed.

Lemma holds_at_most_remove_tag b i d :
  holds_at_most b d -> holds_at_most b (remove_tag i d).
Proof.
  intros [T C]. split; [rewrite is_tag_remove_tag; exact T|].
  destruct d as [cls s|j nm a cs]; [discriminate|]. cbn [children_of] in C.
  cbn [remove_tag children_of].
  destruct C as [->|(b' & -> & S)]; [left; reflexivity|].
  cbn [List.flat_map app]. destruct (is_nid i b'); [left; reflexivity|].
  right. exists (remove_tag i b'). split; [reflexivity|].
  rewrite shallow_remove_tag. exact S.
Qed.

Lemma holds_at_most_remove_all b ids d :
  holds_at_most b d -> holds_at_most b (remove_all ids d).
Proof.
  revert d. induction ids as [|i ids IH]; intros d H; [exact H|].
  rewrite remove_all_cons. apply IH, holds_at_most_remove_tag, H.
Qed.

Lemma holds_at_most_removed b i ids d :
  holds_at_most b d -> tag_id b = Some i -> i ∈ ids ->
  children_of (remove_all ids d) = [].
Proof.
  intros H Hi. revert d H.
  induction ids as [|i' ids IH]; intros d H I; [inversion I|].
  rewrite remove_all_cons.
  destruct (Nat.eq_dec i' i) as [->|Hne].
  - apply remove_all_no_children.
    + rewrite is_tag_remove_tag. apply H.
    + destruct H as [T C]. destruct d as [cls s|j nm a cs]; [discriminate|].
      cbn [children_of] in C. cbn [remove_tag children_of].
      destruct C as [->|(b' & -> & S)]; [reflexivity|].
      cbn [List.flat_map app].
      rewrite (shallow_is_nid i _ _ S).
      destruct b as [cls s|k nm' a' cs']; [discriminate|].
      cbn in Hi. injection Hi as ->. cbn. rewrite Nat.eqb_refl. reflexivity.
  - apply IH; [apply holds_at_most_remove_tag, H|].
    apply elem_of_cons in I. destruct I as [->|I]; [congruence|exact I].
Qed.

Lemma holds_at_most_selected b sel selectors d :
  holds_at_most b d -> is_tag b = true ->
  In sel selectors -> selector_matches sel b = true ->
  children_of (without_selected selectors d) = [].
Proof.
  intros H T I M. revert d H.
  induction selectors as [|s selectors IH]; intros d H; [destruct I|].
  change (without_selected (s :: selectors) d)
    with (without_selected selectors
            (remove_all (omap tag_id (select s d)) d)).
  destruct I as [->|I].
  - apply without_selected_no_children.
    + rewrite is_tag_remove_all. apply H.
    + destruct H as [Td [C|(b' & C & S)]].
      * apply remove_all_no_children; assumption.
      * destruct b as [cls t|i nm a cs]; [discriminate|].
        apply (holds_at_most_removed (Elem i nm a cs) i).
        -- split; [exact Td|]. right. exists b'. split; assumption.
        -- reflexivity.
        -- apply list_elem_of_omap. exists b'. split.
           ++ apply list_elem_of_In. unfold select, find_all_by.
              apply filter_In. split.
              ** unfold descendants. rewrite C. cbn [List.flat_map].
                 rewrite app_nil_r. destruct b'; left; reflexivity.
              ** rewrite (shallow_is_tag _ _ S),
                   (shallow_selector_matches sel _ _ S), M. reflexivity.
           ++ rewrite (shallow_tag_id _ _ S). reflexivity.
  - apply (IH I), holds_at_most_remove_all, H.
Qed.

Lemma working_copy_selected body sel :
  is_tag body = true ->
  In sel nav_selectors -> selector_matches sel body = true ->
  get_text_strip (lit " ") (working_copy body) = [].
Proof.
  intros T I M.
  assert (S : shallow (copy_of body) = shallow body) by (destruct body; reflexivity).
  assert (H : holds_at_most body (without_noise (BeautifulSoup [copy_of body]))).
  { apply holds_at_most_remove_all. split; [reflexivity|].
    right. exists (copy_of body). split; [reflexivity|exact S]. }
  pose proof (holds_at_most_selected _ _ _ _ H T I M) as E.
  fold (working_copy body) in E.
  destruct (working_copy_root body) as [R C].
  apply covered_root_nil_text; [exact R|exact C|].
  unfold covered_root. rewrite E. reflexivity.
Qed.

(** X13.  When one of the navigation selectors matches the body tag itself (a
    body of class [menu], say), the second loop removes the body from the
    working copy: the function reports no text at all, the high-risk line
    and false, whatever the body holds. *)
Theorem check_initial_content_body_selected
  soup (st : Store) doc body_tag selector :
  st !! soup = Some doc ->
  distinct_ids doc ->
  find (lit "body") doc = Some body_tag ->
  In selector nav_selectors ->
  selector_matches selector body_tag = true ->
  exists st',
    check_initial_content soup st
    = Some (({| vis_finding := VisHighRisk; vis_text_length := Some 0;
                vis_word_count := Some 0 |}, false), st').
Proof.
  intros H N Hf I M.
  destruct (body_deref _ _ Hf) as [_ Hb]. specialize (Hb N).
  assert (T : is_tag body_tag = true).
  { apply find_by_in in Hf. apply Hf. }
  eexists. rewrite (check_initial_content_run _ _ _ _ _ H Hf Hb).
  unfold visibility_of.
  rewrite (working_copy_selected _ _ T I M). reflexivity.
Qed.

Lemma page_menu_body_distinct : distinct_ids page_menu_body.
Proof. apply (bool_decide_unpack _). vm_compute. exact I. Qed.

Lemma check_initial_content_body_selected_witness :
  length (get_text_strip (lit " ") menu_body) = 401
  /\ exists st',
       check_initial_content 0 [page_menu_body]
       = Some (({| vis_finding := VisHighRisk; vis_text_length := Some 0;
                   vis_word_count := Some 0 |}, false), st').
Proof.
  split; [reflexivity|].
  apply (check_initial_content_body_selected 0 [page_menu_body]
           page_menu_body menu_body (SelClass (lit "menu"))
           eq_refl page_menu_body_distinct eq_refl).
  - cbv. tauto.
  - reflexivity.
Defined.

(** ** The candidate that decodes *)

Section Candidates.
Variable L : Libraries.

Hypothesis candidates_known :
  forall e content,
    In e (cjk_encodings ++ other_encodings) ->
    text_or_decode_error (decode L e Strict content).
Hypothesis latin_1_total :
  forall content, exists s, decode L (lit "iso-8859-1") Strict content = inl s.

Lemma try_encodings_winner content encodings :
  (forall e, In e encodings -> In e (cjk_encodings ++ other_encodings)) ->
  In (lit "iso-8859-1") encodings ->
  exists before encoding after s,
    encodings = before ++ encoding :: after
    /\ Forall (fun e => decode L e Strict content = inr UnicodeDecodeError)
              before
    /\ decode L encoding Strict content = inl s
    /\ try_encodings L content encodings = inl s.
Proof.
  induction encodings as [|e encodings IH]; intros Hsub Hin; [destruct Hin|].
  pose proof (candidates_known e content (Hsub e (or_introl eq_refl))) as K.
  cbn [try_encodings].
  destruct (decode L e Strict content) as [s|err] eqn:E.
  - exists [], e, encodings, s. repeat split; [constructor|exact E].
  - cbn in K. subst err.
    destruct IH as (before & encoding & after & s & -> & F & D & T).
    + intros e' H'. apply Hsub. right. exact H'.
    + destruct Hin as [Heq|Hin]; [|exact Hin].
      destruct (latin_1_total content) as [s Hs].
      rewrite Heq, Hs in E. discriminate.
    + exists (e :: before), encoding, after, s.
      repeat split; [constructor; assumption|exact D|exact T].
Qed.

(** X14.  [fallback_decode] never raises and never drops a byte: its result is
    the strict decoding with the first encoding of its list that decodes
    the content, every encoding before it having raised
    [UnicodeDecodeError]; the lossy UTF-8 decoding after the loop is never
    reached, ISO-8859-1 being in both lists.  The list is the Chinese one
    for a non-empty url with the CJK hint, the other one otherwise. *)
Theorem fallback_decode_winner content (u : option pystr) :
  exists before encoding after s,
    (if match u with
        | Some u => nonempty u && cjk_hint fallback_sites u
        | None => false
        end
     then cjk_encodings else other_encodings)
    = before ++ encoding :: after
    /\ Forall (fun e => decode L e Strict content = inr UnicodeDecodeError)
              before
    /\ decode L encoding Strict content = inl s
    /\ fallback_decode L content u = inl s.
Proof.
  unfold fallback_decode.
  destruct u as [u|]; [destruct (nonempty u && cjk_hint fallback_sites u)|];
    apply try_encodings_winner;
    try (intros e He; apply in_or_app; (left; exact He) || (right; exact He));
    unfold cjk_encodings, other_encodings; simpl; auto 10.
Qed.

End Candidates.

Lemma fallback_decode_winner_witness :
  exists s,
    fallback_decode (CPython.libraries CPython.detect_unsure)
                    (content response_gbk) (Some (url response_gbk)) = inl s.
Proof.
  destruct (fallback_decode_winner (CPython.libraries CPython.detect_unsure)
              py_decode_known py_decode_latin_1
              (content response_gbk) (Some (url response_gbk)))
    as (before & encoding & after & s & _ & _ & _ & R).
  exists s. exact R.
Defined.

(** ** The checks in a row *)

(** X15.  On a store that holds the page, the run of the checks does not fail.
    [check_initial_content] takes tags out of its own working copy only:
    the five checks called after it are the checks of the page as it was
    parsed.  The hint follows the visibility report exactly when its value
    is false, and the closing banner is printed unless [check_canonical]
    raises. *)
Theorem run_checks_report K soup url (st : Store) doc :
  st !! soup = Some doc ->
  exists visibility st_new,
    check_initial_content soup st = Some (visibility, st ++ st_new)
    /\ run_checks K soup url st
       = Some ({| an_visibility := visibility;
                  an_hint := negb visibility.2;
                  an_title := check_title doc;
                  an_description := check_meta_description doc;
                  an_h1 := check_h1 doc;
                  an_images := check_image_alt doc;
                  an_canonical := check_canonical K doc url;
                  an_finished :=
                    bool_decide (check_canonical K doc url <> None) |},
               st ++ st_new).
Proof.
  intros H.
  assert (R : exists visibility st_new,
             check_initial_content soup st = Some (visibility, st ++ st_new)).
  { destruct (find (lit "body") doc) as [body_tag|] eqn:Hf.
    - destruct (body_deref _ _ Hf) as [[b Hb] _].
      eexists _, _. apply (check_initial_content_run _ _ _ _ _ H Hf Hb).
    - eexists _, []. unfold check_initial_content.
      rewrite (bind_run _ _ _ _ _ (read_run _ _ _ H)), Hf, app_nil_r.
      reflexivity. }
  destruct R as (visibility & st_new & R).
  exists visibility, st_new. split; [exact R|].
  assert (H' : (st ++ st_new) !! soup = Some doc)
    by (apply lookup_app_l_Some, H).
  unfold run_checks.
  rewrite (bind_run _ _ _ _ _ R).
  rewrite !(bind_run _ _ _ _ _ (read_run _ _ _ H')).
  unfold ret. do 2 f_equal.
  destruct (check_canonical K doc url); reflexivity.
Qed.

Lemma run_checks_report_witness :
  exists analysis st',
    run_checks CPython.netloc_checks 0 (lit "http://example.com/")
               [page_header_paragraphs]
    = Some (analysis, st')
    /\ an_title analysis = check_title page_header_paragraphs.
Proof.
  destruct (run_checks_report CPython.netloc_checks 0
              (lit "http://example.com/") [page_header_paragraphs]
              page_header_paragraphs eq_refl)
    as (visibility & st_new & _ & R).
  eexists _, _. split; [exact R|reflexivity].
Defined.
